(** * leo-chat: the ingest, index and retrieve pipeline

  A shallow embedding of the scraper, the document processor, the
  retriever and the database service of leo-chat, with the properties
  of the design document stated and proved (or refuted) against it.

  Conventions.
  - A MongoDB collection is the list of its documents in natural
    (insertion) order; [find_one] and [update_one] act on the first
    document that matches the filter.
  - Python objects that are mutated in place (the [Chunk] objects that
    [index_chunks] stamps with their FAISS id) live in a heap, a list
    indexed by references, and lists hold references.
  - FAISS distances and the scores computed from them are exact
    rationals.
  - [ObjectId]s are natural numbers, drawn from a counter. *)

From Stdlib Require Import ZArith QArith Lqa Lia Bool Ascii String DecimalString DecimalNat DecimalFacts Sorted.
From stdpp Require Import base option list.

Local Open Scope Z_scope.
Local Open Scope nat_scope.
Local Open Scope list_scope.

(** ** config/config.py *)

Module Config.
Definition SCRAPE_DELAY : nat := 1.
Definition CHUNK_SIZE : nat := 300.
Definition CHUNK_OVERLAP : nat := 50.
Definition MAX_RESULTS : nat := 5.
End Config.

(** ** src/models/document.py *)

Definition ObjectId := nat.

(** A [datetime] is a number of seconds since the epoch. *)
Definition datetime := Z.

Module Chunk.
Record t := mk {
  id : ObjectId;
  text : string;
  chunk_index : nat;
  article_id : ObjectId;
  faiss_id : option Z
}.

Definition set_faiss_id (c : t) (f : Z) : t :=
  mk (id c) (text c) (chunk_index c) (article_id c) (Some f).
End Chunk.

Module Article.
Record t := mk {
  id : ObjectId;
  title : string;
  content : string;
  url : string;
  source : string;
  date_published : option datetime;
  processed : option bool;
  date_ingested : datetime;
  chunks : list Chunk.t;
  metadata : list (string * string)
}.

Definition set_processed (a : t) (b : bool) : t :=
  mk (id a) (title a) (content a) (url a) (source a) (date_published a)
     (Some b) (date_ingested a) (chunks a) (metadata a).
End Article.

(** ** src/services/db_service.py *)

Module DatabaseService.

(** The two collections of the [leo_chat] database. *)
Record t := mk {
  articles : list Article.t;
  chunks : list Chunk.t
}.

(** [collection.update_one(filter, update)] without upsert: the first
    document matching [p] is replaced by its image under [f]; [None]
    when no document matches. *)
Fixpoint update_first {A} (p : A -> bool) (f : A -> A) (l : list A)
  : option (list A) :=
  match l with
  | [] => None
  | x :: r =>
      if p x then Some (f x :: r)
      else match update_first p f r with
           | Some r' => Some (x :: r')
           | None => None
           end
  end.

(** [collection.find_one(filter)]. *)
Fixpoint find_one {A} (p : A -> bool) (l : list A) : option A :=
  match l with
  | [] => None
  | x :: r => if p x then Some x else find_one p r
  end.

(** [collection.count_documents(filter)]. *)
Fixpoint count_documents {A} (p : A -> bool) (l : list A) : nat :=
  match l with
  | [] => 0
  | x :: r => if p x then S (count_documents p r) else count_documents p r
  end.

Definition url_is (u : string) (a : Article.t) : bool :=
  String.eqb (Article.url a) u.

Definition oid_is (i : ObjectId) (a : Article.t) : bool :=
  Nat.eqb (Article.id a) i.

Definition article_exists (db : t) (u : string) : bool :=
  0 <? count_documents (url_is u) (articles db).

(** [update_one({"url": article.url}, {"$set": article.dict(by_alias=True)},
    upsert=True)]. The [$set] document carries every field of the
    article, its [_id] included. Without a document of that URL the
    upsert appends the article. A document of that URL which has the
    [_id] of the article takes the fields of the article. One with
    another [_id] cannot take them, since the server does not change the
    [_id] of a stored document: [update_one] raises, the method logs and
    raises again ([None]), and nothing is stored. The return value is not
    used by any caller and is left out. *)
Definition insert_article (db : t) (a : Article.t) : option t :=
  match find_one (url_is (Article.url a)) (articles db) with
  | None => Some (mk (articles db ++ [a]) (chunks db))
  | Some doc =>
      if Article.id doc =? Article.id a
      then
        match update_first (url_is (Article.url a)) (fun _ => a)
                (articles db) with
        | Some l => Some (mk l (chunks db))
        | None => None
        end
      else None
  end.

(** [insert_many], a no-op on the empty list. *)
Definition insert_chunks (db : t) (cs : list Chunk.t) : t :=
  match cs with
  | [] => db
  | _ => mk (articles db) (chunks db ++ cs)
  end.

Definition get_article (db : t) (i : ObjectId) : option Article.t :=
  find_one (oid_is i) (articles db).

Definition get_chunk_by_faiss_id (db : t) (f : Z) : option Chunk.t :=
  find_one (fun c => match Chunk.faiss_id c with
                     | Some g => Z.eqb g f
                     | None => false
                     end) (chunks db).

(** [find({"processed": {"$ne": True}}, limit=batch_size)]. *)
Definition unprocessed (a : Article.t) : bool :=
  match Article.processed a with
  | Some true => false
  | _ => true
  end.

Definition get_unprocessed_articles (db : t) (batch_size : nat)
  : list Article.t :=
  take batch_size (List.filter unprocessed (articles db)).

Definition mark_article_processed (db : t) (i : ObjectId) : t :=
  match update_first (oid_is i) (fun a => Article.set_processed a true)
                     (articles db) with
  | Some l => mk l (chunks db)
  | None => db
  end.

(** The invariant of the design document: no two stored documents share
    a URL. *)
Definition url_unique (db : t) : Prop :=
  NoDup (Article.url <$> articles db).

(** The database knows an article with identifier [i]. *)
Definition known (d : t) (i : ObjectId) : Prop :=
  is_Some (get_article d i).

(** The article with identifier [i] is stored with its processed flag
    set. *)
Definition marked (d : t) (i : ObjectId) : Prop :=
  exists a, get_article d i = Some a /\ Article.processed a = Some true.

(** [find({"source": source})]. *)
Definition get_articles_by_source (db : t) (src : string) : list Article.t :=
  List.filter (fun a => String.eqb (Article.source a) src) (articles db).

(** [find({"article_id": article_id})]. *)
Definition get_chunks_by_article (db : t) (i : ObjectId) : list Chunk.t :=
  List.filter (fun c => Nat.eqb (Chunk.article_id c) i) (chunks db).

(** [count_documents({"source": source, "processed": True})]. *)
Definition get_indexed_articles_count (db : t) (src : string) : nat :=
  count_documents
    (fun a => String.eqb (Article.source a) src
              && match Article.processed a with
                 | Some true => true
                 | _ => false
                 end)
    (articles db).

(** One document of the [$group] stage of [get_source_stats]. *)
Record source_stat := mk_source_stat {
  _id : string;
  total_articles : nat;
  indexed_articles : nat;
  latest_date : option datetime
}.

(** [{"$cond": [{"$eq": [{"$ifNull": ["$processed", False]}, True]}, 1, 0]}]. *)
Definition indexed_flag (a : Article.t) : nat :=
  match Article.processed a with
  | Some true => 1
  | _ => 0
  end.

(** The [$max] accumulator on [date_published]: missing dates are
    skipped. *)
Definition max_date (acc : option datetime) (a : Article.t) : option datetime :=
  match acc, Article.date_published a with
  | Some x, Some y => Some (Z.max x y)
  | None, d => d
  | d, None => d
  end.

(** The [$group] stage for one value [src] of the key [$source], over the
    documents of the collection. *)
Definition group_stat (l : list Article.t) (src : string) : source_stat :=
  let members := List.filter (fun a => String.eqb (Article.source a) src) l in
  mk_source_stat src
    (fold_left (fun n _ => n + 1) members 0)
    (fold_left (fun n a => n + indexed_flag a) members 0)
    (fold_left max_date members None).

(** The distinct values of a key, in the order of their first
    occurrence. (MongoDB promises no order for the groups.) *)
Fixpoint distinct (seen : list string) (keys : list string) : list string :=
  match keys with
  | [] => []
  | k :: r =>
      if existsb (String.eqb k) seen then distinct seen r
      else k :: distinct (k :: seen) r
  end.

(** [get_source_stats]: one document per source. *)
Definition get_source_stats (db : t) : list source_stat :=
  List.map (group_stat (articles db))
    (distinct [] (List.map Article.source (articles db))).

End DatabaseService.

(** ** Python built-ins used by the pipeline *)

Module Py.

(** [str.isspace] on the code points below 256: tab to carriage return,
    the four separators 0x1c to 0x1f, space, NEL and no-break space. *)
Definition isspace (c : ascii) : bool :=
  let n := nat_of_ascii c in
  ((9 <=? n) && (n <=? 13)) || ((28 <=? n) && (n <=? 32))
  || (n =? 133) || (n =? 160).

(** [str.split()] without arguments: the maximal runs of non-space
    characters, in order. [acc] is the current run, reversed. *)
Fixpoint split_go (s : string) (acc : list ascii) : list string :=
  match s with
  | EmptyString =>
      match acc with
      | [] => []
      | _ => [string_of_list_ascii (rev acc)]
      end
  | String c r =>
      if isspace c then
        match acc with
        | [] => split_go r []
        | _ => string_of_list_ascii (rev acc) :: split_go r []
        end
      else split_go r (c :: acc)
  end.

Definition split (s : string) : list string := split_go s [].

(** [' '.join(words)]. *)
Definition join (words : list string) : string := String.concat " " words.

(** The values of [range(start, stop, step)] for a positive [step]:
    [start], [start + step], ... below [stop]. [fuel] bounds the number
    of values; [stop - start] is always enough. *)
Fixpoint range_up (fuel start stop step : nat) : list nat :=
  match fuel with
  | 0 => []
  | S fuel' =>
      if start <? stop
      then start :: range_up fuel' (start + step) stop step
      else []
  end.

(** [range(0, stop, step)] for an integer [step]: a [ValueError] ([None])
    when the step is zero, no value when it is negative. *)
Definition range0 (stop : nat) (step : Z) : option (list nat) :=
  if (step =? 0)%Z then None
  else if (step <? 0)%Z then Some []
  else Some (range_up stop 0 stop (Z.to_nat step)).

(** [words[i : i + n]]. *)
Definition slice {A} (l : list A) (i n : nat) : list A := take n (drop i l).

(** Truthiness of an [Optional[int]]. *)
Definition truthy_int (o : option Z) : bool :=
  match o with
  | Some n => negb (n =? 0)%Z
  | None => false
  end.

(** Truthiness of an optional list. *)
Definition truthy_list {A} (o : option (list A)) : bool :=
  match o with
  | Some (_ :: _) => true
  | _ => false
  end.

(** [x in l] on strings. *)
Definition str_in (x : string) (l : list string) : bool :=
  existsb (String.eqb x) l.

End Py.

(** ** src/processing/processor.py *)

(** The embedding model: [encode] on a batch of texts and on one text. *)
Class SentenceTransformer := {
  vector : Type;
  encode : list string -> list vector;
  encode_query : string -> vector
}.

Module DocumentProcessor.

(** The dictionaries built by [_create_chunks]. *)
Record chunk_dict := mk_chunk_dict {
  text : string;
  index : nat
}.

(** One pass of the loop body of [_create_chunks]. *)
Definition append_chunk (size : nat) (words : list string)
  (chunks : list chunk_dict) (i : nat) : list chunk_dict :=
  chunks ++ [mk_chunk_dict (Py.join (Py.slice words i size)) (length chunks)].

(** [_create_chunks] with the two settings as arguments. *)
Definition create_chunks (size overlap : nat) (txt : string)
  : option (list chunk_dict) :=
  let words := Py.split txt in
  match Py.range0 (length words) (Z.of_nat size - Z.of_nat overlap) with
  | None => None
  | Some starts => Some (fold_left (append_chunk size words) starts [])
  end.

Definition _create_chunks (txt : string) : option (list chunk_dict) :=
  create_chunks Config.CHUNK_SIZE Config.CHUNK_OVERLAP txt.

(** The quotient [a / b] rounded up. *)
Definition ceil_div (a b : nat) : nat := (a + b - 1) / b.

(** The number of chunks as the design document gives it, for a text of
    [n] words: [ceil(max(n - o, 1) / (w - o))]. *)
Definition documented_chunk_count (n size overlap : nat) : nat :=
  ceil_div (Nat.max (n - overlap) 1) (size - overlap).

(** A reference to a [Chunk] object: its position in the heap. *)
Abbreviation ref := nat (only parsing).

(** The processor and what it touches: the database, the FAISS index in
    memory ([ntotal] is its length), the index file, the heap of [Chunk]
    objects and the [ObjectId] counter. *)
Record t `{SentenceTransformer} := mk {
  db : DatabaseService.t;
  faiss_index : list vector;
  index_file : option (list vector);
  heap : list Chunk.t;
  next_oid : ObjectId
}.

Section WithModel.
Context `{SentenceTransformer}.

Definition ntotal (s : t) : nat := length (faiss_index s).

(** [_load_or_create_index]. *)
Definition _load_or_create_index (file : option (list vector)) : list vector :=
  match file with
  | Some ix => ix
  | None => []
  end.

Definition with_db (s : t) (d : DatabaseService.t) : t :=
  mk _ d (faiss_index s) (index_file s) (heap s) (next_oid s).

(** [Chunk(text=..., chunk_index=..., article_id=...)]: a new object with
    a fresh [id] and no FAISS id; its reference is returned. *)
Definition new_chunk (s : t) (c : chunk_dict) (aid : ObjectId) : ref * t :=
  (length (heap s),
   mk _ (db s) (faiss_index s) (index_file s)
      (heap s ++ [Chunk.mk (next_oid s) (text c) (index c) aid None])
      (S (next_oid s))).

Fixpoint new_chunks (s : t) (cs : list chunk_dict) (aid : ObjectId)
  : list ref * t :=
  match cs with
  | [] => ([], s)
  | c :: r =>
      let (x, s1) := new_chunk s c aid in
      let (xs, s2) := new_chunks s1 r aid in
      (x :: xs, s2)
  end.

(** The articles selected by [process_articles]: those of [article_ids]
    that the database knows, or a batch of 100 unprocessed ones. *)
Definition select_articles (s : t) (article_ids : option (list ObjectId))
  : list Article.t :=
  if Py.truthy_list article_ids then
    omap (DatabaseService.get_article (db s)) (default [] article_ids)
  else DatabaseService.get_unprocessed_articles (db s) 100.

(** The loop of [process_articles] over the selected articles. *)
Fixpoint process_loop (s : t) (arts : list Article.t) (all_chunks : list ref)
  : option (list ref * t) :=
  match arts with
  | [] => Some (all_chunks, s)
  | article :: rest =>
      match _create_chunks (Article.content article) with
      | None => None
      | Some chunks =>
          let (chunk_objects, s1) := new_chunks s chunks (Article.id article) in
          let s2 := with_db s1 (DatabaseService.mark_article_processed
                                  (db s1) (Article.id article)) in
          process_loop s2 rest (all_chunks ++ chunk_objects)
      end
  end.

Definition process_articles (s : t) (article_ids : option (list ObjectId))
  : option (list ref * t) :=
  process_loop s (select_articles s article_ids) [].

(** [chunk.faiss_id = faiss_id] for the pairs of [zip(chunks, faiss_ids)]. *)
Fixpoint assign_ids (h : list Chunk.t) (pairs : list (ref * nat))
  : list Chunk.t :=
  match pairs with
  | [] => h
  | (r, f) :: rest =>
      assign_ids (alter (fun c => Chunk.set_faiss_id c (Z.of_nat f)) r h) rest
  end.

Definition index_chunks (s : t) (chunks : list ref) : t :=
  match chunks with
  | [] => s
  | _ =>
      let texts := omap (fun r => Chunk.text <$> heap s !! r) chunks in
      let embeddings := encode texts in
      let faiss_ids := seq (ntotal s) (length embeddings) in
      let index' := faiss_index s ++ embeddings in
      let heap' := assign_ids (heap s) (zip chunks faiss_ids) in
      let db' := DatabaseService.insert_chunks (db s)
                   (omap (fun r => heap' !! r) chunks) in
      mk _ db' index' (Some index') heap' (next_oid s)
  end.

End WithModel.
End DocumentProcessor.

(** ** src/retrieval/retriever.py *)

(** [faiss.Index.search] for one query vector: the [(distance, id)] pairs
    of [zip(D[0], I[0])]. An id of [-1] fills the places for which the
    index has no vector. *)
Class Faiss `{SentenceTransformer} := {
  index_search : list vector -> vector -> nat -> list (Q * Z)
}.

(** [datetime.strftime] with ['%A, %B %d, %Y'], [datetime.strptime] with
    ['%Y-%m-%d'] ([None] for a [ValueError]) and the reading of
    [datetime.utcnow] when the session has issued [n] requests. *)
Class DateTime := {
  strftime : datetime -> string;
  strptime : string -> option datetime;
  utcnow : nat -> datetime
}.

Module DocumentRetriever.

(** The ['chunk'] dictionary of a search result. *)
Record chunk_info := mk_chunk_info {
  text : string;
  article_title : string;
  article_date : string;
  article_url : string;
  source : string
}.

Record result := mk_result {
  chunk : chunk_info;
  score : Q;
  rank : nat
}.

(** [score = 1 / (1 + distance)], over the rationals: the rounding of the
    floating-point numbers the code computes with is not modelled. *)
Definition score_of (distance : Q) : Q := (1 / (1 + distance))%Q.

Section WithModel.
Context `{Faiss} `{DateTime}.

Record t := mk {
  db : DatabaseService.t;
  faiss_index : list vector
}.

(** The source filter of [search]: [sources and article.source not in
    sources]. *)
Definition filtered_out (sources : option (list string)) (a : Article.t)
  : bool :=
  Py.truthy_list sources && negb (Py.str_in (Article.source a) (default [] sources)).

(** A hit is kept when it passes the three tests of the loop: its chunk
    is stored, the article of the chunk is stored, and the source filter
    lets the article through. The other hits are dropped. *)
Definition kept (d : DatabaseService.t) (sources : option (list string))
  (faiss_id : Z) : bool :=
  match DatabaseService.get_chunk_by_faiss_id d faiss_id with
  | None => false
  | Some c =>
      match DatabaseService.get_article d (Chunk.article_id c) with
      | None => false
      | Some article => negb (filtered_out sources article)
      end
  end.

(** The loop of [search] over [enumerate(zip(D[0], I[0]))], from position
    [i]. [None] is the [AttributeError] raised by [strftime] on a missing
    publication date. *)
Fixpoint search_loop (d : DatabaseService.t) (sources : option (list string))
  (i : nat) (hits : list (Q * Z)) : option (list result) :=
  match hits with
  | [] => Some []
  | (distance, faiss_id) :: rest =>
      match DatabaseService.get_chunk_by_faiss_id d faiss_id with
      | None => search_loop d sources (S i) rest
      | Some c =>
          match DatabaseService.get_article d (Chunk.article_id c) with
          | None => search_loop d sources (S i) rest
          | Some article =>
              if filtered_out sources article
              then search_loop d sources (S i) rest
              else
                match Article.date_published article with
                | None => None
                | Some date =>
                    let r :=
                      mk_result
                        (mk_chunk_info (Chunk.text c) (Article.title article)
                           (strftime date) (Article.url article)
                           (Article.source article))
                        (score_of distance) (i + 1) in
                    match search_loop d sources (S i) rest with
                    | None => None
                    | Some results => Some (r :: results)
                    end
                end
          end
      end
  end.

(** The hits [search] works on. *)
Definition hits_of (s : t) (query : string) (k : nat) : list (Q * Z) :=
  index_search (faiss_index s) (encode_query query) k.

Definition search (s : t) (query : string) (k : nat)
  (sources : option (list string)) : option (list result) :=
  search_loop (db s) sources 0 (hits_of s query k).

End WithModel.
End DocumentRetriever.

(** ** src/scraping/scraper.py *)

(** What [session.get] yields: a response with its status and body, or an
    exception raised while the request is made or the body is read. *)
Inductive response :=
| HttpResponse (status : nat) (body : string)
| ClientError.

(** The network: the outcome of the [n]-th request of the session
    (counting from 0) for a URL. *)
Class Web := {
  http_get : nat -> string -> response
}.

Module BaseScraper.

(** The dictionary a scraper builds for one article. *)
Record article_data := mk_article_data {
  url : string;
  title : string;
  date : string;
  content : string;
  scraped_at : string;
  source : string
}.

(** The scraper object, the database it holds, and the session's
    bookkeeping of the outside world: requests issued, seconds slept, and
    the [ObjectId] counter. *)
Record t := mk {
  base_url : string;
  max_articles : option Z;
  db : DatabaseService.t;
  new_articles_found : nat;
  max_pages_without_new : nat;
  pages_without_new : nat;
  requests : nat;
  slept : nat;
  next_oid : ObjectId
}.

(** [__init__], on a database [d]. *)
Definition init (d : DatabaseService.t) (base : string) (cap : option Z)
  (oid : ObjectId) : t :=
  mk base cap d 0 10 0 0 0 oid.

(** The two abstract methods. [scrape_article] reads the database,
    issues requests and sleeps; it yields the article's dictionary, the
    requests issued and the seconds slept. *)
Class Methods := {
  parse_article_links : string -> list string;
  scrape_article : DatabaseService.t -> nat -> string
                   -> option article_data * nat * nat
}.

Definition with_db (s : t) (d : DatabaseService.t) (found : nat)
  (oid : ObjectId) : t :=
  mk (base_url s) (max_articles s) d found (max_pages_without_new s)
     (pages_without_new s) (requests s) (slept s) oid.

Definition with_net (s : t) (reqs secs : nat) : t :=
  mk (base_url s) (max_articles s) (db s) (new_articles_found s)
     (max_pages_without_new s) (pages_without_new s) reqs secs (next_oid s).

(** [await asyncio.sleep(n)]. *)
Definition sleep (n : nat) (s : t) : t := with_net s (requests s) (slept s + n).

(** One more request issued. *)
Definition tick (s : t) : t := with_net s (S (requests s)) (slept s).

(** [self.max_articles and self.new_articles_found >= self.max_articles]. *)
Definition cap_reached (s : t) : bool :=
  Py.truthy_int (max_articles s)
  && (default 0%Z (max_articles s) <=? Z.of_nat (new_articles_found s))%Z.

Section WithWorld.
Context `{Web} `{DateTime} `{Methods}.

(** [_save_article]. Every exception is caught and answered [False]:
    the [ValueError] of [strptime] and the error of [insert_article]. *)
Definition _save_article (s : t) (a : article_data) : bool * t :=
  if cap_reached s then (false, s)
  else if DatabaseService.article_exists (db s) (url a) then (false, s)
  else
    match strptime (date a) with
    | None => (false, s)
    | Some published =>
        let article :=
          Article.mk (next_oid s) (title a) (content a) (url a) (source a)
            (Some published) (Some false) (utcnow (requests s)) [] [] in
        match DatabaseService.insert_article (db s) article with
        | Some d =>
            (true, with_db s d (new_articles_found s + 1) (S (next_oid s)))
        | None => (false, s)
        end
    end.

Definition _article_exists (s : t) (u : string) : bool :=
  DatabaseService.article_exists (db s) u.

(** [str(page)]. *)
Definition str_of_nat (n : nat) : string :=
  DecimalString.NilZero.string_of_uint (Nat.to_uint n).

Definition get_page_url (s : t) (page : nat) : string :=
  if page =? 0 then base_url s
  else (base_url s ++ "?page=" ++ str_of_nat page)%string.

Definition max_retries : nat := 3.

(** The [for attempt in range(max_retries)] loop of [fetch_page]. *)
Fixpoint fetch_loop (u : string) (attempts : list nat) (s : t)
  : option string * t :=
  match attempts with
  | [] => (None, s)
  | attempt :: rest =>
      match http_get (requests s) u with
      | HttpResponse status body =>
          if status =? 200 then (Some body, tick s) else (None, tick s)
      | ClientError =>
          if attempt =? max_retries - 1 then (None, tick s)
          else fetch_loop u rest (sleep 1 (tick s))
      end
  end.

Definition fetch_page (s : t) (u : string) : option string * t :=
  fetch_loop u (seq 0 max_retries) s.

(** The call of the abstract [scrape_article] on the session state. *)
Definition do_scrape_article (s : t) (u : string) : option article_data * t :=
  let '(a, reqs, secs) := scrape_article (db s) (requests s) u in
  (a, with_net s (requests s + reqs) (slept s + secs)).

(** The local variables of [scrape_all_articles]. *)
Record locals := mk_locals {
  page : nat;
  new_articles : nat;
  consecutive_empty_pages : nat
}.

Definition max_empty_pages : nat := 5.

(** The [for url in article_links] loop; [page_new] is
    [page_new_articles]. *)
Fixpoint process_links (links : list string) (s : t) (new page_new : nat)
  : nat * nat * t :=
  match links with
  | [] => (new, page_new, s)
  | u :: rest =>
      if cap_reached s then (new, page_new, s)
      else if _article_exists s u then process_links rest s new page_new
      else
        let (article, s1) := do_scrape_article s u in
        match article with
        | Some a =>
            let (saved, s2) := _save_article s1 a in
            if saved
            then process_links rest (sleep Config.SCRAPE_DELAY s2)
                   (new + 1) (page_new + 1)
            else process_links rest (sleep Config.SCRAPE_DELAY s2) new page_new
        | None => process_links rest (sleep Config.SCRAPE_DELAY s1) new page_new
        end
  end.

Inductive flow := Continue | Break.

(** [not html]: no page, or an empty one. *)
Definition no_page (html : option string) : bool :=
  match html with
  | None => true
  | Some EmptyString => true
  | Some _ => false
  end.

(** One pass of the [while True] loop of [scrape_all_articles]. *)
Definition iteration (l : locals) (s : t) : flow * locals * t :=
  if cap_reached s then (Break, l, s)
  else
    let (html, s1) := fetch_page s (get_page_url s (page l)) in
    if no_page html then (Break, l, s1)
    else
      let article_links := parse_article_links (default EmptyString html) in
      let empty := match article_links with [] => true | _ => false end in
      let c1 := if empty then consecutive_empty_pages l + 1
                else consecutive_empty_pages l in
      if empty && (max_empty_pages <=? c1)
      then (Break, mk_locals (page l) (new_articles l) c1, s1)
      else
        let '(new, page_new, s2) :=
          process_links article_links s1 (new_articles l) 0 in
        if 0 <? page_new
        then (Continue, mk_locals (page l + 1) new 0,
              sleep Config.SCRAPE_DELAY s2)
        else
          let c2 := c1 + 1 in
          if max_empty_pages <=? c2
          then (Break, mk_locals (page l) new c2, s2)
          else (Continue, mk_locals (page l + 1) new c2,
                sleep Config.SCRAPE_DELAY s2).

(** The [while True] loop, run for at most [fuel] passes: [Break] with the
    final state when the loop has ended by then, [Continue] with the state
    reached otherwise. *)
Fixpoint scrape_loop (fuel : nat) (l : locals) (s : t) : flow * locals * t :=
  match fuel with
  | 0 => (Continue, l, s)
  | S fuel' =>
      match iteration l s with
      | (Break, l', s') => (Break, l', s')
      | (Continue, l', s') => scrape_loop fuel' l' s'
      end
  end.

Definition scrape_all_articles (fuel : nat) (s : t) : flow * locals * t :=
  scrape_loop fuel (mk_locals 0 0 0) s.

End WithWorld.

(** The scraper [s] with [max_articles] set to [cap]. *)
Definition with_cap (cap : option Z) (s : t) : t :=
  mk (base_url s) cap (db s) (new_articles_found s) (max_pages_without_new s)
     (pages_without_new s) (requests s) (slept s) (next_oid s).

(** No cap: [max_articles] is [None] or 0. *)
Definition uncapped (cap : option Z) : Prop :=
  cap = None \/ cap = Some 0%Z.

(** From [s] to [s'] the session has saved [k] new articles: the counter
    of new articles and the number of stored documents have grown by [k],
    a positive cap that held still holds, and the settings of the scraper
    and its [pages_without_new] attribute are what they were. *)
Definition saved (s s' : t) (k : nat) : Prop :=
  base_url s' = base_url s /\
  max_articles s' = max_articles s /\
  max_pages_without_new s' = max_pages_without_new s /\
  pages_without_new s' = pages_without_new s /\
  new_articles_found s' = new_articles_found s + k /\
  length (DatabaseService.articles (db s'))
  = length (DatabaseService.articles (db s)) + k /\
  (forall m, max_articles s = Some m -> (0 < m)%Z ->
     (Z.of_nat (new_articles_found s) <= m)%Z ->
     (Z.of_nat (new_articles_found s') <= m)%Z).

End BaseScraper.

(** ** src/scraping/scraper.py: the two scrapers *)

Module USAOScraper.
Import BaseScraper.

Definition section_path : string := "/usao-cdca/pr".

(** [__init__]. *)
Definition init (d : DatabaseService.t) (cap : option Z) (oid : ObjectId) : t :=
  BaseScraper.init d "https://www.justice.gov" cap oid.

(** [f"{self.base_url}{self.section_path}?page={page}"]. *)
Definition page_url (s : t) (page : nat) : string :=
  (base_url s ++ section_path ++ "?page=" ++ str_of_nat page)%string.

(** The scraper with [pages_without_new] set to [n]. *)
Definition with_pages_without_new (s : t) (n : nat) : t :=
  mk (base_url s) (max_articles s) (db s) (new_articles_found s)
     (max_pages_without_new s) n (requests s) (slept s) (next_oid s).

Section WithWorld.
Context `{Web} `{DateTime} `{Methods}.

(** The [for link in article_links] loop; the result is [new_on_page]. *)
Fixpoint process_links (links : list string) (s : t) (new_on_page : nat)
  : nat * t :=
  match links with
  | [] => (new_on_page, s)
  | link :: rest =>
      if cap_reached s then (new_on_page, s)
      else if _article_exists s link then process_links rest s new_on_page
      else
        let (article, s1) := do_scrape_article s link in
        match article with
        | None => process_links rest s1 new_on_page
        | Some a =>
            let (saved, s2) := _save_article s1 a in
            if saved then process_links rest s2 (new_on_page + 1)
            else process_links rest s2 new_on_page
        end
  end.

(** One pass of the [while True] loop, on page [page]. *)
Definition iteration (page : nat) (s : t) : flow * nat * t :=
  if cap_reached s then (Break, page, s)
  else if max_pages_without_new s <=? pages_without_new s
  then (Break, page, s)
  else
    let (html, s1) := fetch_page s (page_url s page) in
    if no_page html then (Break, page, s1)
    else
      match parse_article_links (default EmptyString html) with
      | [] => (Break, page, s1)
      | article_links =>
          let (new_on_page, s2) := process_links article_links s1 0 in
          let s3 :=
            if new_on_page =? 0
            then with_pages_without_new s2 (pages_without_new s2 + 1)
            else with_pages_without_new s2 0 in
          (Continue, page + 1, sleep Config.SCRAPE_DELAY s3)
      end.

Fixpoint scrape_loop (fuel : nat) (page : nat) (s : t) : flow * nat * t :=
  match fuel with
  | 0 => (Continue, page, s)
  | S fuel' =>
      match iteration page s with
      | (Break, page', s') => (Break, page', s')
      | (Continue, page', s') => scrape_loop fuel' page' s'
      end
  end.

(** [scrape_all_articles], run for at most [fuel] passes; its return
    value is [new_articles_found] of the final state. *)
Definition scrape_all_articles (fuel : nat) (s : t) : flow * nat * t :=
  scrape_loop fuel 0 s.

End WithWorld.

(** From [s] to [s'] a session has run: the settings are what they were,
    the database has grown by the articles counted as new, a positive cap
    that held still holds, and [pages_without_new] has not passed the
    larger of its old value and [max_pages_without_new]. *)
Definition progressed (s s' : t) : Prop :=
  base_url s' = base_url s /\
  max_articles s' = max_articles s /\
  max_pages_without_new s' = max_pages_without_new s /\
  new_articles_found s <= new_articles_found s' /\
  length (DatabaseService.articles (db s'))
  = length (DatabaseService.articles (db s))
    + (new_articles_found s' - new_articles_found s) /\
  (forall m, max_articles s = Some m -> (0 < m)%Z ->
     (Z.of_nat (new_articles_found s) <= m)%Z ->
     (Z.of_nat (new_articles_found s') <= m)%Z) /\
  pages_without_new s'
  <= Nat.max (pages_without_new s) (max_pages_without_new s).

End USAOScraper.

Module LATimesScraper.
Import BaseScraper.

(** [__init__], with [SCRAPING_SOURCES['latimes']]. *)
Definition init (d : DatabaseService.t) (cap : option Z) (oid : ObjectId) : t :=
  BaseScraper.init d "https://homicide.latimes.com" cap oid.

(** The two methods of the class: no link, no article. *)
#[local] Instance methods : Methods :=
  {| parse_article_links := fun _ => [];
     scrape_article := fun _ _ _ => (None, 0, 0) |}.

Section WithWorld.
Context `{Web} `{DateTime}.

(** The [for link in article_links] loop. *)
Fixpoint process_links (links : list string) (s : t) (new page_new : nat)
  : nat * nat * t :=
  match links with
  | [] => (new, page_new, s)
  | link :: rest =>
      if cap_reached s then (new, page_new, s)
      else if _article_exists s link then process_links rest s new page_new
      else
        let (article, s1) := do_scrape_article s link in
        match article with
        | None => process_links rest s1 new page_new
        | Some a =>
            let (saved, s2) := _save_article s1 a in
            if saved then process_links rest s2 (new + 1) (page_new + 1)
            else process_links rest s2 new page_new
        end
  end.

(** One pass of the [while True] loop: the flow, the page, [new_articles]
    and the state. *)
Definition iteration (page new : nat) (s : t) : flow * nat * nat * t :=
  if cap_reached s then (Break, page, new, s)
  else
    let (html, s1) := fetch_page s (get_page_url s page) in
    if no_page html then (Break, page, new, s1)
    else
      match parse_article_links (default EmptyString html) with
      | [] => (Break, page, new, s1)
      | article_links =>
          let '(new', page_new, s2) := process_links article_links s1 new 0 in
          if page_new =? 0 then (Break, page, new', s2)
          else (Continue, page + 1, new', sleep Config.SCRAPE_DELAY s2)
      end.

Fixpoint scrape_loop (fuel : nat) (page new : nat) (s : t)
  : flow * nat * nat * t :=
  match fuel with
  | 0 => (Continue, page, new, s)
  | S fuel' =>
      match iteration page new s with
      | (Break, page', new', s') => (Break, page', new', s')
      | (Continue, page', new', s') => scrape_loop fuel' page' new' s'
      end
  end.

(** [scrape_all_articles]; its return value is the third component,
    [new_articles]. *)
Definition scrape_all_articles (fuel : nat) (s : t) : flow * nat * nat * t :=
  scrape_loop fuel 0 0 s.

End WithWorld.
End LATimesScraper.

(** ** The alignment of the two stores *)

(** Every stored chunk that carries a FAISS id carries one below [n], the
    size of the index. *)
Definition stored_ids_below (d : DatabaseService.t) (n : nat) : Prop :=
  Forall (fun c => forall f, Chunk.faiss_id c = Some f -> (f < Z.of_nat n)%Z)
    (DatabaseService.chunks d).

(** The database after [mark_article_processed] for each article of a
    list, in order. *)
Definition mark_all (d : DatabaseService.t) (arts : list Article.t)
  : DatabaseService.t :=
  fold_left (fun d a => DatabaseService.mark_article_processed d (Article.id a))
    arts d.


(** ** The chunks built by the processor *)

(** The [Chunk] objects that the loop of [process_articles] builds for the
    articles [arts], in order, the first of them with identifier [oid]. *)
Fixpoint chunk_objects (oid : ObjectId) (arts : list Article.t)
  : list Chunk.t :=
  match arts with
  | [] => []
  | a :: rest =>
      let cs := default [] (DocumentProcessor._create_chunks (Article.content a)) in
      imap (fun k c => Chunk.mk (oid + k) (DocumentProcessor.text c)
                         (DocumentProcessor.index c) (Article.id a) None) cs
      ++ chunk_objects (oid + length cs) rest
  end.

(** What [process_articles] reads of an article: its identifier and its
    content. *)
Definition read_of (a : Article.t) : ObjectId * string :=
  (Article.id a, Article.content a).

(** A [Chunk] without its own identifier. *)
Definition body_of (c : Chunk.t) : string * nat * ObjectId * option Z :=
  (Chunk.text c, Chunk.chunk_index c, Chunk.article_id c, Chunk.faiss_id c).


(** ** The words of a text *)

(** A word, as [str.split] produces them: a non-empty string without
    white space. *)
Definition is_word (w : string) : Prop :=
  w <> EmptyString /\
  Forall (fun c => Py.isspace c = false) (list_ascii_of_string w).

(** ** src/retrieval/data_sources.py *)

Module DataSources.

(** [needle in hay] on strings: [needle] is a prefix of a suffix of
    [hay]. *)
Fixpoint contains (needle hay : string) : bool :=
  String.prefix needle hay
  || match hay with
     | EmptyString => false
     | String _ rest => contains needle rest
     end.

(** [url.startswith(p)]. *)
Definition startswith (p url : string) : bool := String.prefix p url.

(** A [DataSource]: its two properties and its method. *)
Record t := mk {
  source_id : string;
  display_name : string;
  matches_url : string -> bool
}.

Definition USAOSource : t :=
  mk "usao" "U.S. Attorney's Office" (contains "justice.gov/usao-cdca").

Definition LATimesSource : t :=
  mk "latimes" "LA Times Homicide Report" (contains "homicide.latimes.com").

Definition LocalFileSource : t :=
  mk "local" "Local Files" (startswith "file://").

(** The registry, a dictionary in insertion order. *)
Definition SOURCES : list (string * t) :=
  List.map (fun source => (source_id source, source))
    [USAOSource; LATimesSource; LocalFileSource].

(** The loop of [get_source_for_url] over the items of a registry. *)
Fixpoint first_match (items : list (string * t)) (url : string)
  : option string :=
  match items with
  | [] => None
  | (sid, source) :: rest =>
      if matches_url source url then Some sid else first_match rest url
  end.

Definition get_source_for_url (url : string) : option string :=
  first_match SOURCES url.

(** The dictionaries of [get_available_sources]: id and name. *)
Definition get_available_sources : list (string * string) :=
  List.map (fun item => (source_id (snd item), display_name (snd item)))
    SOURCES.

End DataSources.

(** ** src/scraping/scraper.py: [clean_text] *)

Module TextCleaning.

(** [str.isalnum], and so the alphanumeric part of [\w], on the code
    points below 256: the ASCII digits and letters, the letters of
    Latin-1, and its superscript digits and fractions. *)
Definition isalnum (c : ascii) : bool :=
  let n := nat_of_ascii c in
  ((48 <=? n) && (n <=? 57)) || ((65 <=? n) && (n <=? 90))
  || ((97 <=? n) && (n <=? 122))
  || (n =? 170) || (n =? 178) || (n =? 179) || (n =? 181)
  || (n =? 185) || (n =? 186) || ((188 <=? n) && (n <=? 190))
  || ((192 <=? n) && (n <=? 214)) || ((216 <=? n) && (n <=? 246))
  || (248 <=? n).

(** The class [\w]: alphanumeric or the underscore. *)
Definition isword (c : ascii) : bool :=
  isalnum c || (nat_of_ascii c =? 95).

(** The class [[^\w\s.,!?-]] of the second substitution. *)
Definition special (c : ascii) : bool :=
  negb (isword c || Py.isspace c
        || existsb (Ascii.eqb c) ["."; ","; "!"; "?"; "-"]%char).

(** [str.strip()], in two halves. *)
Fixpoint lstrip (s : string) : string :=
  match s with
  | EmptyString => EmptyString
  | String c rest => if Py.isspace c then lstrip rest else s
  end.

Fixpoint rstrip (s : string) : string :=
  match s with
  | EmptyString => EmptyString
  | String c rest =>
      match rstrip rest with
      | EmptyString => if Py.isspace c then EmptyString else String c EmptyString
      | stripped => String c stripped
      end
  end.

Definition strip (s : string) : string := rstrip (lstrip s).

(** [re.sub(r'\s+', ' ', s)]: every maximal run of white space becomes
    one space. [in_run] tells that the character before was white
    space. *)
Fixpoint collapse (in_run : bool) (s : string) : string :=
  match s with
  | EmptyString => EmptyString
  | String c rest =>
      if Py.isspace c then
        if in_run then collapse true rest
        else String " " (collapse true rest)
      else String c (collapse false rest)
  end.

(** [re.sub(class, '', s)] for a class of single characters. *)
Fixpoint remove (class : ascii -> bool) (s : string) : string :=
  match s with
  | EmptyString => EmptyString
  | String c rest =>
      if class c then remove class rest else String c (remove class rest)
  end.

Definition clean_text (text : string) : string :=
  let text := collapse false (strip text) in
  remove special text.

End TextCleaning.

(** ** src/scraping/local_ingestion.py *)


Module LocalFileIngester.




(** A dictionary with string keys and values, in insertion order. *)
Definition dict := list (string * string).




(** The article written by [ingest_file]. *)
Record article := mk_article {
  url : string;
  title : string;
  date : string;
  content : string;
  scraped_at : string;
  metadata : dict
}.







Section WithHost.
Context `{Host}.





End WithHost.
End LocalFileIngester.
(** * Sample data

    Concrete databases, networks and scrapers on which the statements
    below are evaluated. *)

Module Sample.

(** An article of source [src] at URL [u], with identifier [i]. *)
Definition article (i : ObjectId) (u ttl body src : string) : Article.t :=
  Article.mk i ttl body u src (Some 0%Z) (Some false) 0%Z [] [].

Definition fraud_v1 : Article.t :=
  article 1 "https://www.justice.gov/usao-cdca/pr/fraud" "Fraud plea"
    "A man pleaded guilty" "usao".

Definition fraud_v2 : Article.t :=
  article 2 "https://www.justice.gov/usao-cdca/pr/fraud" "Fraud plea (updated)"
    "A man pleaded guilty to wire fraud" "usao".

Definition homicide : Article.t :=
  article 3 "https://homicide.latimes.com/post/1" "Homicide report"
    "A report" "latimes".

Definition empty_db : DatabaseService.t := DatabaseService.mk [] [].

(** A text of [n] one-letter words. *)
Definition text_of_words (n : nat) : string :=
  String.concat " " (repeat "w"%string n).

(** An embedding model for the examples: a text is embedded as its
    length. *)
Definition model : SentenceTransformer :=
  {| vector := nat;
     encode := List.map String.length;
     encode_query := String.length |}.

(** Five chunks of article 1, not yet indexed. *)
Definition five_chunks : list Chunk.t :=
  [Chunk.mk 100 "alpha" 0 1 None; Chunk.mk 101 "beta" 1 1 None;
   Chunk.mk 102 "gamma" 2 1 None; Chunk.mk 103 "delta" 3 1 None;
   Chunk.mk 104 "epsilon" 4 1 None].

(** A processor whose index holds ten vectors and whose heap holds the
    five chunks. *)
Definition processor : @DocumentProcessor.t model :=
  @DocumentProcessor.mk model empty_db (repeat 0 10) None five_chunks 105.

(** Date handling for the examples: every date prints the same, and every
    non-empty string parses. *)
Definition dates : DateTime :=
  {| strftime := fun _ => "Monday, January 01, 2024"%string;
     strptime := fun s => if String.eqb s "" then None else Some 0%Z;
     utcnow := Z.of_nat |}.

(** A FAISS index that answers every query with the same three hits, in
    ascending order of distance. *)
Definition faiss : @Faiss model :=
  {| index_search := fun _ _ k =>
       take k [(1 # 10, 0%Z); (2 # 10, 1%Z); (3 # 10, 2%Z)]%Q |}.

(** Two articles, one chunk of each, and a chunk whose article is gone. *)
Definition library_db : DatabaseService.t :=
  DatabaseService.mk [fraud_v1; homicide]
    [Chunk.mk 10 "guilty plea" 0 1 (Some 0%Z);
     Chunk.mk 11 "homicide report" 0 3 (Some 1%Z);
     Chunk.mk 12 "orphan" 0 99 (Some 2%Z)].

Definition retriever : @DocumentRetriever.t model :=
  @DocumentRetriever.mk model library_db (repeat 0 3).

(** The results of a search for three hits, without a source filter and
    with the filter [["latimes"]]. *)
Definition unfiltered_results : list DocumentRetriever.result :=
  Eval vm_compute in
    default [] (@DocumentRetriever.search model faiss dates retriever
                  "fraud" 3 None).

Definition latimes_results : list DocumentRetriever.result :=
  Eval vm_compute in
    default [] (@DocumentRetriever.search model faiss dates retriever
                  "fraud" 3 (Some ["latimes"%string])).

(** A server that answers the first request of a session with the status
    503 and every later one with a page. *)
Definition flaky_web : Web :=
  {| http_get := fun n _ =>
       if n =? 0 then HttpResponse 503 "" else HttpResponse 200 "<html>" |}.

(** A server whose pages all carry the same markup. *)
Definition steady_web : Web :=
  {| http_get := fun _ _ => HttpResponse 200 "<html>" |}.

(** A scraper that finds no link on any page. *)
Definition no_links : BaseScraper.Methods :=
  {| BaseScraper.parse_article_links := fun _ => [];
     BaseScraper.scrape_article := fun _ _ _ => (None, 0, 0) |}.

(** A server whose first two pages are empty and whose later pages are
    listings. *)
Definition late_listing_web : Web :=
  {| http_get := fun n _ =>
       if n <? 2 then HttpResponse 200 "empty" else HttpResponse 200 "listing" |}.

(** A scraper that finds one link on a listing and fails to parse the
    article behind it. *)
Definition unparsable : BaseScraper.Methods :=
  {| BaseScraper.parse_article_links := fun html =>
       if String.eqb html "listing"
       then ["https://www.justice.gov/usao-cdca/pr/a"%string] else [];
     BaseScraper.scrape_article := fun _ _ _ => (None, 0, 0) |}.

Definition site : string := "https://www.justice.gov/usao-cdca/pr".

(** A server whose front page is a listing and whose other pages are
    empty. *)
Definition one_listing_web : Web :=
  {| http_get := fun _ u =>
       if String.eqb u site then HttpResponse 200 "listing"
       else HttpResponse 200 "empty" |}.

(** A scraper that finds three links on a listing and parses every
    article, at the cost of one request each. *)
Definition three_articles : BaseScraper.Methods :=
  {| BaseScraper.parse_article_links := fun html =>
       if String.eqb html "listing"
       then [(site ++ "/a")%string; (site ++ "/b")%string;
             (site ++ "/c")%string]
       else [];
     BaseScraper.scrape_article := fun _ _ u =>
       (Some (BaseScraper.mk_article_data u "Press release" "2025-02-05"
                "A man pleaded guilty" "2025-02-06T10:00:00" "usao"), 1, 0) |}.

(** A new scraper on the empty database, with the given cap. *)
Definition scraper (cap : option Z) : BaseScraper.t :=
  BaseScraper.init empty_db site cap 1.

(** A scraper that finds the same link on every page and fails to parse
    the article behind it. *)
Definition stale_listing : BaseScraper.Methods :=
  {| BaseScraper.parse_article_links := fun _ =>
       ["https://www.justice.gov/usao-cdca/pr/a"%string];
     BaseScraper.scrape_article := fun _ _ _ => (None, 0, 0) |}.

End Sample.

(** * Properties *)

(** ** The database service *)

Section DatabaseFacts.
Import DatabaseService.

Lemma update_first_None {A} (p : A -> bool) f (l : list A) :
  update_first p f l = None <-> Forall (fun x => p x = false) l.
Proof.
  induction l as [|x r IH]; simpl.
  - split; [constructor | reflexivity].
  - destruct (p x) eqn:Hp.
    + split; [discriminate | intros Hf; inversion Hf; congruence].
    + destruct (update_first p f r).
      * split; [discriminate |].
        intros Hf; inversion Hf; subst. apply IH in H2. discriminate.
      * split; [| reflexivity].
        intros _. constructor; [assumption | apply IH; reflexivity].
Qed.

Lemma update_first_length {A} (p : A -> bool) f (l l' : list A) :
  update_first p f l = Some l' -> length l' = length l.
Proof.
  revert l'. induction l as [|x r IH]; simpl; intros l' Hu; [discriminate|].
  destruct (p x).
  - inversion Hu; reflexivity.
  - destruct (update_first p f r) eqn:E; [|discriminate].
    inversion Hu; subst. simpl. f_equal. apply IH. reflexivity.
Qed.

Lemma url_is_true u a : url_is u a = true <-> Article.url a = u.
Proof. unfold url_is. apply String.eqb_eq. Qed.

Lemma url_is_false u a : url_is u a = false <-> Article.url a <> u.
Proof. unfold url_is. apply String.eqb_neq. Qed.

Lemma update_first_urls a l l' :
  update_first (url_is (Article.url a)) (fun _ => a) l = Some l' ->
  Article.url <$> l' = Article.url <$> l.
Proof.
  revert l'. induction l as [|x r IH]; simpl; intros l' Hu; [discriminate|].
  destruct (url_is (Article.url a) x) eqn:Hx.
  - inversion Hu; subst. simpl. apply url_is_true in Hx. congruence.
  - destruct (update_first _ _ r) eqn:E; [|discriminate].
    inversion Hu; subst. simpl. f_equal. apply IH. reflexivity.
Qed.

Lemma update_first_find a l l' :
  update_first (url_is (Article.url a)) (fun _ => a) l = Some l' ->
  find_one (url_is (Article.url a)) l' = Some a.
Proof.
  revert l'. induction l as [|x r IH]; simpl; intros l' Hu; [discriminate|].
  destruct (url_is (Article.url a) x) eqn:Hx.
  - inversion Hu; subst. simpl.
    replace (url_is (Article.url a) a) with true; [reflexivity|].
    symmetry. apply url_is_true. reflexivity.
  - destruct (update_first _ _ r) eqn:E; [|discriminate].
    inversion Hu; subst. simpl. rewrite Hx. apply IH. reflexivity.
Qed.

Lemma find_one_app_miss {A} (p : A -> bool) (l : list A) x :
  Forall (fun y => p y = false) l -> p x = true ->
  find_one p (l ++ [x]) = Some x.
Proof.
  induction 1 as [|y r Hy _ IH]; simpl; intros Hx.
  - rewrite Hx. reflexivity.
  - rewrite Hy. apply IH, Hx.
Qed.

Lemma count_documents_urls u (l l' : list Article.t) :
  Article.url <$> l = Article.url <$> l' ->
  count_documents (url_is u) l = count_documents (url_is u) l'.
Proof.
  revert l'. induction l as [|x r IH]; intros [|y r']; simpl;
    try discriminate; [reflexivity|].
  intros Heq. injection Heq as Hxy Hr.
  assert (Hp : url_is u x = url_is u y) by (unfold url_is; congruence).
  rewrite Hp, (IH r' Hr). reflexivity.
Qed.

Lemma count_documents_absent u (l : list Article.t) :
  u ∉ Article.url <$> l -> count_documents (url_is u) l = 0.
Proof.
  induction l as [|x r IH]; simpl; intros Hn; [reflexivity|].
  apply not_elem_of_cons in Hn as [Hx Hr].
  replace (url_is u x) with false; [apply IH, Hr|].
  symmetry. apply url_is_false. congruence.
Qed.

Lemma count_documents_present u (l : list Article.t) :
  NoDup (Article.url <$> l) -> u ∈ Article.url <$> l ->
  count_documents (url_is u) l = 1.
Proof.
  induction l as [|x r IH]; simpl; intros Hnd Hin.
  - inversion Hin.
  - apply NoDup_cons in Hnd as [Hx Hr].
    destruct (url_is u x) eqn:E.
    + apply url_is_true in E. subst u.
      rewrite count_documents_absent; [reflexivity | assumption].
    + apply url_is_false in E. apply elem_of_cons in Hin as [Hin|Hin].
      * congruence.
      * apply IH; assumption.
Qed.

Lemma count_documents_app {A} (p : A -> bool) (l r : list A) :
  count_documents p (l ++ r) = count_documents p l + count_documents p r.
Proof.
  induction l as [|x l IH]; simpl; [reflexivity|].
  destruct (p x); rewrite IH; reflexivity.
Qed.

Lemma miss_not_elem a (l : list Article.t) :
  Forall (fun x => url_is (Article.url a) x = false) l ->
  Article.url a ∉ Article.url <$> l.
Proof.
  induction 1 as [|x r Hx _ IH]; simpl.
  - apply not_elem_of_nil.
  - apply not_elem_of_cons. split; [|assumption].
    apply url_is_false in Hx. congruence.
Qed.

Lemma article_exists_elem db u :
  article_exists db u = true <-> u ∈ Article.url <$> articles db.
Proof.
  unfold article_exists. rewrite Nat.ltb_lt.
  induction (articles db) as [|x r IH]; simpl.
  - split; [lia | intros Hin; inversion Hin].
  - rewrite elem_of_cons. destruct (url_is u x) eqn:E.
    + apply url_is_true in E. split; [auto | lia].
    + apply url_is_false in E. rewrite IH. split; [auto|].
      intros [Heq|Hin]; [congruence | assumption].
Qed.

Lemma find_one_miss {A} (p : A -> bool) (l : list A) :
  find_one p l = None <-> Forall (fun x => p x = false) l.
Proof.
  induction l as [|x r IH]; simpl.
  - split; [constructor | reflexivity].
  - destruct (p x) eqn:Hp.
    + split; [discriminate | intros Hf; inversion Hf; congruence].
    + rewrite IH. split; [constructor; assumption|].
      intros Hf. inversion Hf. assumption.
Qed.

Lemma find_one_urls u (l : list Article.t) :
  is_Some (find_one (url_is u) l) <-> u ∈ Article.url <$> l.
Proof.
  induction l as [|x r IH]; simpl.
  - split; [intros [? ?]; discriminate | intros Hin; inversion Hin].
  - rewrite elem_of_cons. destruct (url_is u x) eqn:E.
    + apply url_is_true in E. split; [auto | eexists; reflexivity].
    + apply url_is_false in E. rewrite IH. split; [auto|].
      intros [Heq|Hin]; [congruence | assumption].
Qed.

(** An article with a URL that is not stored is appended. *)
Lemma insert_article_new db a :
  article_exists db (Article.url a) = false ->
  insert_article db a = Some (mk (articles db ++ [a]) (chunks db)).
Proof.
  intros Hex. unfold insert_article.
  destruct (find_one _ (articles db)) as [doc|] eqn:Hf; [|reflexivity].
  exfalso. apply not_true_iff_false in Hex. apply Hex.
  apply article_exists_elem, find_one_urls. rewrite Hf. eexists; reflexivity.
Qed.

(** A stored URL: the insert goes through exactly when the stored
    document has the [_id] of the article, and then replaces it. *)
Lemma insert_article_stored db a doc :
  find_one (url_is (Article.url a)) (articles db) = Some doc ->
  insert_article db a =
  if Article.id doc =? Article.id a
  then (fun l => mk l (chunks db))
         <$> update_first (url_is (Article.url a)) (fun _ => a) (articles db)
  else None.
Proof.
  intros Hf. unfold insert_article. rewrite Hf.
  destruct (Article.id doc =? Article.id a); [|reflexivity].
  destruct (update_first _ _ _); reflexivity.
Qed.

(** What an [insert_article] that returns does to the list of stored
    URLs: nothing when the URL is stored already, one more URL at the end
    otherwise. *)
Lemma insert_article_urls db a db' :
  insert_article db a = Some db' ->
  Article.url <$> articles db' =
  if article_exists db (Article.url a)
  then Article.url <$> articles db
  else (Article.url <$> articles db) ++ [Article.url a].
Proof.
  intros Hins.
  destruct (article_exists db (Article.url a)) eqn:Hex.
  - apply article_exists_elem, find_one_urls in Hex as [doc Hf].
    rewrite (insert_article_stored _ _ _ Hf) in Hins.
    destruct (Article.id doc =? Article.id a); [|discriminate].
    destruct (update_first _ _ (articles db)) as [l|] eqn:E; [|discriminate].
    injection Hins as <-. cbn [articles].
    apply (update_first_urls _ _ _ E).
  - rewrite (insert_article_new _ _ Hex) in Hins. injection Hins as <-.
    cbn [articles]. rewrite fmap_app. reflexivity.
Qed.

Lemma insert_article_unique db a db' :
  url_unique db -> insert_article db a = Some db' -> url_unique db'.
Proof.
  unfold url_unique. intros Hnd Hins. rewrite (insert_article_urls _ _ _ Hins).
  destruct (article_exists db (Article.url a)) eqn:Ex; [assumption|].
  apply NoDup_app. split; [assumption|]. split.
  - intros u Hu Hin. apply list_elem_of_singleton in Hin. subst u.
    apply article_exists_elem in Hu. congruence.
  - apply NoDup_singleton.
Qed.

Lemma insert_article_elem db a db' :
  insert_article db a = Some db' ->
  Article.url a ∈ Article.url <$> articles db'.
Proof.
  intros Hins. rewrite (insert_article_urls _ _ _ Hins).
  destruct (article_exists db (Article.url a)) eqn:Ex.
  - apply article_exists_elem, Ex.
  - apply elem_of_app. right. apply list_elem_of_singleton. reflexivity.
Qed.

Lemma insert_article_find db a db' :
  insert_article db a = Some db' ->
  find_one (url_is (Article.url a)) (articles db') = Some a.
Proof.
  intros Hins.
  destruct (article_exists db (Article.url a)) eqn:Hex.
  - apply article_exists_elem, find_one_urls in Hex as [doc Hf].
    rewrite (insert_article_stored _ _ _ Hf) in Hins.
    destruct (Article.id doc =? Article.id a); [|discriminate].
    destruct (update_first _ _ (articles db)) as [l|] eqn:E; [|discriminate].
    injection Hins as <-. cbn [articles]. eapply update_first_find, E.
  - pose proof Hex as Hnew.
    rewrite (insert_article_new _ _ Hex) in Hins. injection Hins as <-.
    cbn [articles]. apply find_one_app_miss.
    + apply find_one_miss.
      destruct (find_one _ (articles db)) as [doc|] eqn:Hf; [|reflexivity].
      exfalso. apply not_true_iff_false in Hnew. apply Hnew.
      apply article_exists_elem, find_one_urls. rewrite Hf.
      eexists; reflexivity.
    + apply url_is_true. reflexivity.
Qed.

Lemma insert_article_length db a db' :
  insert_article db a = Some db' ->
  length (articles db') =
  if article_exists db (Article.url a) then length (articles db)
  else S (length (articles db)).
Proof.
  intros Hins.
  rewrite <- !(length_fmap Article.url), (insert_article_urls _ _ _ Hins).
  destruct (article_exists db (Article.url a)); [reflexivity|].
  rewrite length_app. simpl. lia.
Qed.

Lemma insert_chunks_chunks db cs :
  chunks (insert_chunks db cs) = chunks db ++ cs.
Proof.
  destruct cs; simpl; [rewrite app_nil_r|]; reflexivity.
Qed.

End DatabaseFacts.

(** C7. [insert_article] never leaves two documents with one URL, but it
    does not update a stored record from a new [Article]. In a store
    without repeated URLs that holds a document [doc] with the URL of
    [a], there is exactly one document with that URL; when [a] has
    another [_id] than [doc], as every newly built [Article] has, the
    call raises and the record stays as it was; only when [a] carries the
    [_id] of [doc] does the call return, and then the record is [a],
    no URL is repeated and the number of documents is unchanged. *)
Theorem insert_article_raises_on_stored_url
  (db : DatabaseService.t) (a doc : Article.t) :
  DatabaseService.url_unique db ->
  DatabaseService.find_one (DatabaseService.url_is (Article.url a))
    (DatabaseService.articles db) = Some doc ->
  DatabaseService.count_documents (DatabaseService.url_is (Article.url a))
    (DatabaseService.articles db) = 1 /\
  (Article.id doc <> Article.id a ->
   DatabaseService.insert_article db a = None) /\
  (Article.id doc = Article.id a ->
   exists db',
     DatabaseService.insert_article db a = Some db' /\
     DatabaseService.url_unique db' /\
     DatabaseService.count_documents (DatabaseService.url_is (Article.url a))
       (DatabaseService.articles db') = 1 /\
     DatabaseService.find_one (DatabaseService.url_is (Article.url a))
       (DatabaseService.articles db') = Some a /\
     length (DatabaseService.articles db')
     = length (DatabaseService.articles db)).
Proof.
  intros Hu Hf.
  assert (Hin : Article.url a ∈ Article.url <$> DatabaseService.articles db).
  { apply find_one_urls. rewrite Hf. eexists; reflexivity. }
  split; [apply count_documents_present; assumption|].
  rewrite (insert_article_stored _ _ _ Hf). split.
  - intros Hne. apply Nat.eqb_neq in Hne. rewrite Hne. reflexivity.
  - intros Heq. apply Nat.eqb_eq in Heq.
    assert (Hins : DatabaseService.insert_article db a =
              ((fun l => DatabaseService.mk l (DatabaseService.chunks db))
               <$> DatabaseService.update_first
                     (DatabaseService.url_is (Article.url a)) (fun _ => a)
                     (DatabaseService.articles db))).
    { rewrite (insert_article_stored _ _ _ Hf), Heq. reflexivity. }
    rewrite Heq.
    destruct (DatabaseService.update_first _ _ (DatabaseService.articles db))
      as [l|] eqn:E.
    + cbn [fmap option_fmap option_map] in Hins |- *.
      eexists. split; [reflexivity|].
      assert (Hu' : DatabaseService.url_unique
                      (DatabaseService.mk l (DatabaseService.chunks db)))
        by (eapply insert_article_unique; eassumption).
      split; [exact Hu'|]. split.
      { apply count_documents_present; [exact Hu'|].
        eapply insert_article_elem, Hins. }
      split; [eapply insert_article_find, Hins|].
      rewrite (insert_article_length _ _ _ Hins).
      apply article_exists_elem in Hin. rewrite Hin. reflexivity.
    + exfalso. apply update_first_None in E.
      apply find_one_miss in E. congruence.
Qed.

(** The same URL inserted twice: the second article, built anew, has
    another [_id] than the stored one, and the insert raises. *)
Lemma insert_article_raises_on_stored_url_witness :
  let db1 := DatabaseService.mk [Sample.fraud_v1] [] in
  DatabaseService.insert_article Sample.empty_db Sample.fraud_v1 = Some db1 /\
  DatabaseService.url_unique db1 /\
  DatabaseService.find_one
    (DatabaseService.url_is (Article.url Sample.fraud_v2))
    (DatabaseService.articles db1) = Some Sample.fraud_v1 /\
  Article.id Sample.fraud_v1 <> Article.id Sample.fraud_v2 /\
  DatabaseService.insert_article db1 Sample.fraud_v2 = None.
Proof.
  intros db1.
  assert (Hu : DatabaseService.url_unique db1) by apply NoDup_singleton.
  assert (Hf : DatabaseService.find_one
                 (DatabaseService.url_is (Article.url Sample.fraud_v2))
                 (DatabaseService.articles db1) = Some Sample.fraud_v1)
    by reflexivity.
  assert (Hne : Article.id Sample.fraud_v1 <> Article.id Sample.fraud_v2)
    by discriminate.
  split; [reflexivity|]. split; [exact Hu|]. split; [exact Hf|].
  split; [exact Hne|].
  destruct (insert_article_raises_on_stored_url db1 Sample.fraud_v2
              Sample.fraud_v1 Hu Hf) as (_ & Hraise & _).
  exact (Hraise Hne).
Defined.

(** ** The chunker *)

Section ChunkerFacts.
Import DocumentProcessor.

Lemma ceil_div_step a b :
  0 < b -> 0 < a -> ceil_div a b = S (ceil_div (a - b) b).
Proof.
  intros Hb Ha. unfold ceil_div.
  destruct (le_lt_dec b a) as [Hle|Hlt].
  - replace (a + b - 1) with ((a - b + b - 1) + 1 * b) by lia.
    rewrite Nat.div_add by lia. lia.
  - replace (a - b) with 0 by lia.
    replace (a + b - 1) with ((a - 1) + 1 * b) by lia.
    rewrite Nat.div_add by lia.
    rewrite !Nat.div_small by lia. reflexivity.
Qed.

Lemma ceil_div_zero b : 0 < b -> ceil_div 0 b = 0.
Proof. intros Hb. unfold ceil_div. apply Nat.div_small. lia. Qed.

(** The values of a [range] with a positive step. *)
Lemma range_up_values fuel start stop step :
  0 < step -> stop - start <= fuel ->
  Py.range_up fuel start stop step =
  (fun k => start + k * step) <$> seq 0 (ceil_div (stop - start) step).
Proof.
  intros Hstep. revert start.
  induction fuel as [|fuel IH]; intros start Hfuel; simpl.
  - replace (stop - start) with 0 by lia.
    rewrite ceil_div_zero by assumption. reflexivity.
  - destruct (start <? stop) eqn:Hlt.
    + apply Nat.ltb_lt in Hlt.
      rewrite (ceil_div_step (stop - start) step) by lia.
      rewrite IH by lia. simpl. rewrite Nat.add_0_r. f_equal.
      replace (stop - start - step) with (stop - (start + step)) by lia.
      rewrite <- fmap_S_seq, <- list_fmap_compose.
      apply list_fmap_ext. intros _ k _. simpl. lia.
    + apply Nat.ltb_ge in Hlt.
      replace (stop - start) with 0 by lia.
      rewrite ceil_div_zero by assumption. reflexivity.
Qed.

Lemma fold_append_chunk_length size words starts :
  length (fold_left (append_chunk size words) starts []) = length starts.
Proof.
  induction starts as [|i starts IH] using rev_ind; [reflexivity|].
  rewrite fold_left_app. simpl. unfold append_chunk at 1.
  rewrite !length_app, IH. reflexivity.
Qed.

Lemma fold_append_chunk_lookup size words starts k i :
  starts !! k = Some i ->
  fold_left (append_chunk size words) starts [] !! k =
  Some (mk_chunk_dict (Py.join (Py.slice words i size)) k).
Proof.
  revert k i. induction starts as [|j starts IH] using rev_ind; intros k i Hk.
  - discriminate.
  - rewrite fold_left_app. simpl. unfold append_chunk at 1.
    rewrite fold_append_chunk_length.
    destruct (decide (k < length starts)) as [Hlt|Hge].
    + rewrite lookup_app_l in Hk by assumption.
      rewrite lookup_app_l by (rewrite fold_append_chunk_length; assumption).
      apply IH, Hk.
    + assert (Hlen : k < length (starts ++ [j]))
        by (eapply lookup_lt_Some, Hk).
      rewrite length_app in Hlen. simpl in Hlen.
      assert (k = length starts) as -> by lia.
      rewrite lookup_app_r in Hk by lia.
      rewrite lookup_app_r by (rewrite fold_append_chunk_length; lia).
      rewrite fold_append_chunk_length.
      rewrite Nat.sub_diag in *. simpl in *. congruence.
Qed.

(** A word of the text lies in the window that starts at the multiple of
    the stride just below it. *)
Lemma slice_covers {A} (words : list A) size step j :
  0 < step -> step <= size ->
  Py.slice words (j / step * step) size !! (j - j / step * step) = words !! j.
Proof.
  intros Hstep Hsize. unfold Py.slice.
  pose proof (Nat.div_mod_eq j step) as Hdm.
  pose proof (Nat.mod_upper_bound j step ltac:(lia)) as Hmod.
  rewrite lookup_take_lt by lia.
  rewrite lookup_drop. f_equal. lia.
Qed.

Lemma div_lt_ceil_div j n step :
  0 < step -> j < n -> j / step < ceil_div n step.
Proof.
  intros Hstep Hj. unfold ceil_div.
  apply Nat.lt_le_trans with (S (j / step)); [lia|].
  apply Nat.div_le_lower_bound; [lia|].
  pose proof (Nat.div_mod_eq j step). lia.
Qed.

End ChunkerFacts.

(** C3, as the code has it. With a window of [size] words and an overlap
    of [overlap < size] words, a text of [n] words is cut into
    [ceil(n / (size - overlap))] chunks (none for a text without words);
    the chunk at position [k] has ordinal [k] and holds the words from
    [k * (size - overlap)] on, at most [size] of them; and every word of
    the text lies in one of these windows, the one numbered
    [j / (size - overlap)] for the word at position [j]. *)
Theorem create_chunks_windows (size overlap : nat) (txt : string) :
  overlap < size ->
  let words := Py.split txt in
  let step := size - overlap in
  exists chunks,
    DocumentProcessor.create_chunks size overlap txt = Some chunks /\
    length chunks = DocumentProcessor.ceil_div (length words) step /\
    (forall k, k < length chunks ->
       chunks !! k =
       Some (DocumentProcessor.mk_chunk_dict
               (Py.join (Py.slice words (k * step) size)) k)) /\
    (forall j, j < length words ->
       j / step < length chunks /\
       Py.slice words (j / step * step) size !! (j - j / step * step)
       = words !! j).
Proof.
  intros Hlt words step.
  unfold DocumentProcessor.create_chunks, Py.range0.
  fold words.
  assert (Hz : (Z.of_nat size - Z.of_nat overlap)%Z = Z.of_nat step)
    by (unfold step; lia).
  rewrite Hz.
  replace (Z.of_nat step =? 0)%Z with false by (symmetry; apply Z.eqb_neq; lia).
  replace (Z.of_nat step <? 0)%Z with false by (symmetry; apply Z.ltb_ge; lia).
  rewrite Nat2Z.id.
  rewrite range_up_values by lia. rewrite Nat.sub_0_r.
  eexists. split; [reflexivity|].
  assert (Hlen : length
            (fold_left (DocumentProcessor.append_chunk size words)
               ((fun k => 0 + k * step) <$>
                seq 0 (DocumentProcessor.ceil_div (length words) step)) [])
          = DocumentProcessor.ceil_div (length words) step)
    by (rewrite fold_append_chunk_length, length_fmap, length_seq; reflexivity).
  split; [exact Hlen|]. split.
  - intros k Hk. rewrite Hlen in Hk.
    apply fold_append_chunk_lookup.
    rewrite list_lookup_fmap, lookup_seq_lt by assumption. reflexivity.
  - intros j Hj. split.
    + rewrite Hlen. apply div_lt_ceil_div; lia.
    + apply slice_covers; lia.
Qed.

(** The configured window and overlap on a text of 620 words: three
    chunks, the windows of the design document's scenario. *)
Lemma create_chunks_windows_witness :
  Config.CHUNK_OVERLAP < Config.CHUNK_SIZE /\
  exists chunks,
    DocumentProcessor._create_chunks (Sample.text_of_words 620) = Some chunks /\
    length chunks = 3.
Proof.
  split.
  - unfold Config.CHUNK_OVERLAP, Config.CHUNK_SIZE. lia.
  - destruct (create_chunks_windows Config.CHUNK_SIZE Config.CHUNK_OVERLAP
                (Sample.text_of_words 620))
      as (chunks & Hc & Hlen & _).
    + unfold Config.CHUNK_OVERLAP, Config.CHUNK_SIZE. lia.
    + exists chunks. split; [exact Hc|].
      rewrite Hlen. vm_compute. reflexivity.
Defined.

(** C3, as it is stated, fails: a text of 300 words is cut into two chunks
    (the windows [0:300] and [250:300]) and a text without words into
    none, where [ceil(max(n - o, 1) / (w - o))] is 1 for both. *)
Lemma create_chunks_count_counterexample :
  length (Py.split (Sample.text_of_words 300)) = 300 /\
  length <$> DocumentProcessor._create_chunks (Sample.text_of_words 300)
    = Some 2 /\
  DocumentProcessor.documented_chunk_count
    300 Config.CHUNK_SIZE Config.CHUNK_OVERLAP = 1 /\
  length (Py.split EmptyString) = 0 /\
  length <$> DocumentProcessor._create_chunks EmptyString = Some 0 /\
  DocumentProcessor.documented_chunk_count
    0 Config.CHUNK_SIZE Config.CHUNK_OVERLAP = 1.
Proof. vm_compute. repeat split; reflexivity. Qed.

(** ** The document processor *)

Section ProcessorFacts.
Context `{SentenceTransformer}.
Import DocumentProcessor.

Lemma omap_total_length {A B} (f : A -> option B) (l : list A) :
  Forall (fun x => is_Some (f x)) l -> length (omap f l) = length l.
Proof.
  induction 1 as [|x l [y Hy] _ IH]; simpl; [reflexivity|].
  rewrite Hy. simpl. f_equal. exact IH.
Qed.

Lemma omap_total_lookup {A B} (f : A -> option B) (l : list A) i x :
  Forall (fun x => is_Some (f x)) l -> l !! i = Some x ->
  omap f l !! i = f x.
Proof.
  intros Hall. revert i.
  induction Hall as [|y l [z Hz] _ IH]; intros i Hi; [discriminate|].
  simpl. rewrite Hz. destruct i as [|i]; simpl in *.
  - congruence.
  - apply IH, Hi.
Qed.

Lemma assign_ids_length h pairs : length (assign_ids h pairs) = length h.
Proof.
  revert h. induction pairs as [|[r f] pairs IH]; intros h; simpl;
    [reflexivity|].
  rewrite IH. apply length_alter.
Qed.

(** An object outside the batch is left as it is. *)
Lemma assign_ids_zip_other (chunks : list ref) ids h r :
  r ∉ chunks -> assign_ids h (zip chunks ids) !! r = h !! r.
Proof.
  revert ids h. induction chunks as [|r0 chunks IH]; intros ids h Hr;
    [reflexivity|].
  apply not_elem_of_cons in Hr as [Hne Hr].
  destruct ids as [|f ids]; [reflexivity|]. simpl.
  rewrite IH by assumption. apply list_lookup_alter_ne. congruence.
Qed.

(** The object at position [i] of a batch without repetition gets the
    [i]-th identifier of the range. *)
Lemma assign_ids_zip_lookup (chunks : list ref) h t n i r :
  NoDup chunks -> chunks !! i = Some r -> length chunks <= n ->
  assign_ids h (zip chunks (seq t n)) !! r =
  (fun c => Chunk.set_faiss_id c (Z.of_nat (t + i))) <$> h !! r.
Proof.
  revert h t n i. induction chunks as [|r0 chunks IH]; intros h t n i Hnd Hi Hn;
    [discriminate|].
  apply NoDup_cons in Hnd as [Hr0 Hnd].
  destruct n as [|n]; [simpl in Hn; lia|]. simpl in Hn. simpl.
  destruct i as [|i]; simpl in Hi.
  - injection Hi as <-. rewrite assign_ids_zip_other by assumption.
    rewrite Nat.add_0_r. apply list_lookup_alter_eq.
  - rewrite (IH _ (S t) n i) by (assumption || lia).
    rewrite list_lookup_alter_ne.
    + replace (S t + i) with (t + S i) by lia. reflexivity.
    + intros ->. apply Hr0. eapply list_elem_of_lookup_2, Hi.
Qed.

Lemma new_chunks_spec (s : t) (cs : list chunk_dict) (aid : ObjectId) :
  new_chunks s cs aid =
  (seq (length (heap s)) (length cs),
   mk _ (db s) (faiss_index s) (index_file s)
      (heap s ++
       imap (fun k c => Chunk.mk (next_oid s + k) (text c) (index c) aid None)
         cs)
      (next_oid s + length cs)).
Proof.
  revert s. induction cs as [|c cs IH]; intros s; simpl.
  - rewrite app_nil_r, Nat.add_0_r. destruct s; reflexivity.
  - rewrite IH. simpl. rewrite length_app. simpl.
    rewrite Nat.add_0_r.
    replace (length (heap s) + 1) with (S (length (heap s))) by lia.
    f_equal. f_equal.
    + rewrite <- app_assoc. simpl. f_equal. f_equal.
      apply imap_ext. intros k x _. simpl. f_equal. lia.
    + lia.
Qed.

End ProcessorFacts.

Section IndexChunks.
Context `{SentenceTransformer}.
Import DocumentProcessor.

Lemma index_chunks_nonempty (s : t) (chunks : list ref) :
  chunks <> [] ->
  index_chunks s chunks =
  let texts := omap (fun r => Chunk.text <$> heap s !! r) chunks in
  let embeddings := encode texts in
  let index' := faiss_index s ++ embeddings in
  let heap' := assign_ids (heap s)
                 (zip chunks (seq (ntotal s) (length embeddings))) in
  mk _ (DatabaseService.insert_chunks (db s)
          (omap (fun r => heap' !! r) chunks))
     index' (Some index') heap' (next_oid s).
Proof. destruct chunks; [congruence | reflexivity]. Qed.

(** C1. A batch of [m] distinct [Chunk] objects indexed when the FAISS
    index holds [t] vectors: the index holds [t + m] vectors afterwards;
    the object at position [i] of the batch has FAISS id [t + i] and is
    otherwise unchanged, and is stored with that id in the [chunks]
    collection, in batch order; objects outside the batch are untouched;
    so the ids of the batch, read in batch order, are [t], ..., [t + m - 1],
    each once. *)
Theorem index_chunks_assigns_range (s : t) (chunks : list ref) :
  (forall texts, length (encode texts) = length texts) ->
  NoDup chunks ->
  Forall (fun r => r < length (heap s)) chunks ->
  let t0 := ntotal s in
  let s' := index_chunks s chunks in
  ntotal s' = t0 + length chunks /\
  (forall i r, chunks !! i = Some r ->
     exists c,
       heap s !! r = Some c /\
       heap s' !! r = Some (Chunk.set_faiss_id c (Z.of_nat (t0 + i))) /\
       DatabaseService.chunks (db s')
         !! (length (DatabaseService.chunks (db s)) + i)
       = Some (Chunk.set_faiss_id c (Z.of_nat (t0 + i)))) /\
  (forall r, r ∉ chunks -> heap s' !! r = heap s !! r) /\
  omap (fun r => heap s' !! r ≫= Chunk.faiss_id) chunks
  = Z.of_nat <$> seq t0 (length chunks) /\
  NoDup (Z.of_nat <$> seq t0 (length chunks)).
Proof.
  intros Henc Hnd Hvalid t0 s'.
  destruct (decide (chunks = [])) as [->|Hne].
  { subst s' t0. simpl. rewrite Nat.add_0_r.
    repeat split; try reflexivity; try constructor.
    intros i r Hi. discriminate. }
  assert (Htexts : length (omap (fun r => Chunk.text <$> heap s !! r) chunks)
                   = length chunks).
  { apply omap_total_length. eapply Forall_impl; [exact Hvalid|].
    intros r Hr. cbv beta in Hr. apply lookup_lt_is_Some_2 in Hr as [c Hc].
    cbv beta. rewrite Hc. eexists; reflexivity. }
  assert (Hs' : heap s' = assign_ids (heap s)
                  (zip chunks (seq t0 (length chunks)))).
  { subst s'. rewrite index_chunks_nonempty by assumption. simpl.
    rewrite Henc, Htexts. reflexivity. }
  assert (Hper : forall i r, chunks !! i = Some r ->
            exists c, heap s !! r = Some c /\
              heap s' !! r = Some (Chunk.set_faiss_id c (Z.of_nat (t0 + i)))).
  { intros i r Hi.
    assert (Hr : r < length (heap s)).
    { rewrite Forall_forall in Hvalid. apply Hvalid.
      eapply list_elem_of_lookup_2, Hi. }
    apply lookup_lt_is_Some_2 in Hr as [c Hc]. exists c. split; [exact Hc|].
    rewrite Hs', (assign_ids_zip_lookup _ _ _ _ i) by (assumption || lia).
    rewrite Hc. reflexivity. }
  assert (Hsome : Forall (fun r => is_Some (heap s' !! r)) chunks).
  { apply Forall_forall. intros r Hr.
    apply list_elem_of_lookup_1 in Hr as [i Hi].
    destruct (Hper i r Hi) as (c & _ & Hc). rewrite Hc. eexists; reflexivity. }
  split.
  { subst s'. rewrite index_chunks_nonempty by assumption.
    unfold ntotal. simpl. rewrite length_app, Henc, Htexts. reflexivity. }
  split.
  { intros i r Hi. destruct (Hper i r Hi) as (c & Hc & Hc').
    exists c. split; [exact Hc|]. split; [exact Hc'|].
    assert (Hdb : DatabaseService.chunks (db s') =
                  DatabaseService.chunks (db s)
                  ++ omap (fun r => heap s' !! r) chunks).
    { rewrite <- insert_chunks_chunks. f_equal.
      subst s'. rewrite index_chunks_nonempty by assumption. reflexivity. }
    rewrite Hdb, lookup_app_r by lia.
    replace (length (DatabaseService.chunks (db s)) + i
             - length (DatabaseService.chunks (db s))) with i by lia.
    rewrite (omap_total_lookup _ _ i r) by assumption. exact Hc'. }
  split.
  { intros r Hr. rewrite Hs'. apply assign_ids_zip_other, Hr. }
  split; [|apply (NoDup_fmap_2 _), NoDup_seq].
  apply list_eq. intros i.
  destruct (chunks !! i) as [r|] eqn:Hi.
  - assert (Hlt : i < length chunks) by (eapply lookup_lt_Some, Hi).
    rewrite (omap_total_lookup _ _ i r); [| |exact Hi].
    + destruct (Hper i r Hi) as (c & _ & Hc). rewrite Hc. simpl.
      rewrite list_lookup_fmap, lookup_seq_lt by assumption. reflexivity.
    + apply Forall_forall. intros r' Hr'.
      apply list_elem_of_lookup_1 in Hr' as [i' Hi'].
      destruct (Hper i' r' Hi') as (c & _ & Hc). rewrite Hc. simpl.
      eexists; reflexivity.
  - apply lookup_ge_None in Hi.
    rewrite (lookup_ge_None_2 (omap _ _)).
    + symmetry. apply lookup_ge_None_2.
      rewrite length_fmap, length_seq. exact Hi.
    + rewrite omap_total_length; [exact Hi|].
      apply Forall_forall. intros r' Hr'.
      apply list_elem_of_lookup_1 in Hr' as [i' Hi'].
      destruct (Hper i' r' Hi') as (c & _ & Hc). rewrite Hc. simpl.
      eexists; reflexivity.
Qed.

End IndexChunks.

(** Five chunks indexed into an index of ten vectors: the ids are 10 to
    14 in batch order and the index holds 15 vectors. *)
Lemma index_chunks_assigns_range_witness :
  (forall texts, length (@encode Sample.model texts) = length texts) /\
  NoDup [0; 1; 2; 3; 4] /\
  Forall (fun r => r < length (DocumentProcessor.heap Sample.processor))
    [0; 1; 2; 3; 4] /\
  let s' := DocumentProcessor.index_chunks Sample.processor [0; 1; 2; 3; 4] in
  DocumentProcessor.ntotal s' = 15 /\
  omap (fun r => DocumentProcessor.heap s' !! r ≫= Chunk.faiss_id)
    [0; 1; 2; 3; 4]
  = [10%Z; 11%Z; 12%Z; 13%Z; 14%Z].
Proof.
  assert (Henc : forall texts, length (@encode Sample.model texts) = length texts)
    by (intros texts; apply List.length_map).
  assert (Hnd : NoDup [0; 1; 2; 3; 4]) by apply (NoDup_seq 0 5).
  assert (Hvalid : Forall
            (fun r => r < length (DocumentProcessor.heap Sample.processor))
            [0; 1; 2; 3; 4])
    by (repeat constructor).
  split; [exact Henc|]. split; [exact Hnd|]. split; [exact Hvalid|].
  destruct (index_chunks_assigns_range Sample.processor [0; 1; 2; 3; 4]
              Henc Hnd Hvalid) as (Hn & _ & _ & Hids & _).
  split; [exact Hn | exact Hids].
Defined.

Section ProcessArticles.
Context `{SentenceTransformer}.
Import DocumentProcessor.
Import DatabaseService (known, marked).

Lemma find_one_update_first (i j : ObjectId) (l : list Article.t) :
  DatabaseService.find_one (DatabaseService.oid_is i)
    (default l (DatabaseService.update_first (DatabaseService.oid_is j)
                  (fun a => Article.set_processed a true) l))
  = (fun a => if i =? j then Article.set_processed a true else a)
    <$> DatabaseService.find_one (DatabaseService.oid_is i) l.
Proof.
  destruct (Nat.eqb_spec i j) as [->|Hne].
  - induction l as [|x r IH]; [reflexivity|].
    cbn [DatabaseService.update_first DatabaseService.find_one].
    destruct (DatabaseService.oid_is j x) eqn:Hj.
    + cbn [from_option id DatabaseService.find_one].
      change (DatabaseService.oid_is j (Article.set_processed x true))
        with (DatabaseService.oid_is j x).
      rewrite Hj. reflexivity.
    + destruct (DatabaseService.update_first _ _ r) as [r'|];
        cbn [from_option id DatabaseService.find_one] in *; rewrite Hj; exact IH.
  - induction l as [|x r IH]; [reflexivity|].
    cbn [DatabaseService.update_first DatabaseService.find_one].
    destruct (DatabaseService.oid_is j x) eqn:Hj.
    + cbn [from_option id DatabaseService.find_one].
      change (DatabaseService.oid_is i (Article.set_processed x true))
        with (DatabaseService.oid_is i x).
      assert (Hi : DatabaseService.oid_is i x = false).
      { unfold DatabaseService.oid_is in *. apply Nat.eqb_eq in Hj.
        apply Nat.eqb_neq. lia. }
      rewrite Hi. destruct (DatabaseService.find_one _ r); reflexivity.
    + destruct (DatabaseService.update_first _ _ r) as [r'|];
        cbn [from_option id DatabaseService.find_one] in *;
        destruct (DatabaseService.oid_is i x); try reflexivity; exact IH.
Qed.

Lemma get_article_mark d i j :
  DatabaseService.get_article (DatabaseService.mark_article_processed d j) i
  = (fun a => if i =? j then Article.set_processed a true else a)
    <$> DatabaseService.get_article d i.
Proof.
  unfold DatabaseService.get_article, DatabaseService.mark_article_processed.
  rewrite <- find_one_update_first.
  destruct (DatabaseService.update_first _ _ _); reflexivity.
Qed.

Lemma mark_chunks d j :
  DatabaseService.chunks (DatabaseService.mark_article_processed d j)
  = DatabaseService.chunks d.
Proof.
  unfold DatabaseService.mark_article_processed.
  destruct (DatabaseService.update_first _ _ _); reflexivity.
Qed.

Lemma mark_known d i j :
  known d i -> known (DatabaseService.mark_article_processed d j) i.
Proof.
  unfold known. rewrite get_article_mark. intros [a ->]. eexists; reflexivity.
Qed.

Lemma mark_marked d i : known d i ->
  marked (DatabaseService.mark_article_processed d i) i.
Proof.
  unfold known, marked. rewrite get_article_mark. intros [a ->].
  simpl. rewrite Nat.eqb_refl. eexists; split; reflexivity.
Qed.

Lemma mark_keeps_marked d i j :
  marked d i -> marked (DatabaseService.mark_article_processed d j) i.
Proof.
  unfold marked. rewrite get_article_mark. intros (a & -> & Ha). simpl.
  destruct (i =? j); eexists; split; try reflexivity; assumption.
Qed.

Lemma find_one_Some {A} (p : A -> bool) (l : list A) x :
  DatabaseService.find_one p l = Some x -> x ∈ l /\ p x = true.
Proof.
  induction l as [|y r IH]; simpl; [discriminate|].
  destruct (p y) eqn:Hy.
  - intros [= ->]. split; [apply elem_of_cons; auto | exact Hy].
  - intros Hf. destruct (IH Hf). split; [apply elem_of_cons; auto | assumption].
Qed.

Lemma find_one_elem {A} (p : A -> bool) (l : list A) x :
  x ∈ l -> p x = true -> is_Some (DatabaseService.find_one p l).
Proof.
  induction l as [|y r IH]; simpl; intros Hin Hp.
  - inversion Hin.
  - destruct (p y) eqn:Hy; [eexists; reflexivity|].
    apply elem_of_cons in Hin as [->|Hin]; [congruence | auto].
Qed.

(** Every selected article is known to the database. *)
Lemma select_articles_known (s : t) ids a :
  a ∈ select_articles s ids -> known (db s) (Article.id a).
Proof.
  unfold select_articles, known, DatabaseService.get_article.
  destruct (Py.truthy_list ids).
  - intros Hin. apply list_elem_of_omap in Hin as (i & _ & Hi).
    apply find_one_Some in Hi as [Hin Hp].
    apply (find_one_elem _ _ a); [assumption|].
    unfold DatabaseService.oid_is. apply Nat.eqb_refl.
  - unfold DatabaseService.get_unprocessed_articles. intros Hin.
    apply (sublist_subseteq _ _ (sublist_take _ _)) in Hin.
    apply list_elem_of_In, List.filter_In in Hin as [Hk _].
    apply (find_one_elem _ _ a); [apply list_elem_of_In, Hk|].
    unfold DatabaseService.oid_is. apply Nat.eqb_refl.
Qed.

Lemma create_chunks_total txt : is_Some (_create_chunks txt).
Proof.
  unfold _create_chunks, create_chunks, Py.range0.
  replace (Z.of_nat Config.CHUNK_SIZE - Z.of_nat Config.CHUNK_OVERLAP)%Z
    with 250%Z by (vm_compute; reflexivity).
  cbn [Z.eqb Z.ltb Z.compare]. eexists; reflexivity.
Qed.

Lemma process_loop_spec (arts : list Article.t) (s : t) (acc : list ref) :
  (forall a, a ∈ arts -> known (db s) (Article.id a)) ->
  exists added s',
    process_loop s arts acc
    = Some (acc ++ seq (length (heap s)) (length added), s') /\
    heap s' = heap s ++ added /\
    faiss_index s' = faiss_index s /\
    index_file s' = index_file s /\
    DatabaseService.chunks (db s') = DatabaseService.chunks (db s) /\
    Forall (fun c => Chunk.faiss_id c = None /\
                     exists a, a ∈ arts /\ Chunk.article_id c = Article.id a)
      added /\
    (forall i, marked (db s) i -> marked (db s') i) /\
    (forall a, a ∈ arts -> marked (db s') (Article.id a)).
Proof.
  revert s acc. induction arts as [|article rest IH]; intros s acc Hknown.
  - exists [], s. simpl. rewrite !app_nil_r.
    repeat split; auto. intros a Ha. inversion Ha.
  - cbn [process_loop].
    destruct (create_chunks_total (Article.content article)) as [cs Hcs].
    rewrite Hcs, new_chunks_spec.
    set (made := imap _ cs).
    set (s2 := with_db _ _).
    destruct (IH s2 (acc ++ seq (length (heap s)) (length cs)))
      as (added & s' & Hrun & Hheap & Hix & Hfile & Hch & Hall & Hmk & Hdone).
    { intros a Ha. apply mark_known, Hknown. apply elem_of_cons. auto. }
    assert (Hh2 : heap s2 = heap s ++ made) by reflexivity.
    assert (Hlen : length made = length cs) by apply length_imap.
    exists (made ++ added), s'. split.
    { rewrite Hrun, Hh2, !length_app, Hlen, seq_app, app_assoc. reflexivity. }
    split; [rewrite Hheap, Hh2, app_assoc; reflexivity|].
    split; [rewrite Hix; reflexivity|].
    split; [rewrite Hfile; reflexivity|].
    split; [rewrite Hch; apply mark_chunks|].
    split.
    { apply Forall_app. split.
      - apply Forall_forall. intros c Hc.
        apply elem_of_lookup_imap_1 in Hc as (k & x & -> & _). simpl.
        split; [reflexivity|]. exists article.
        split; [apply elem_of_cons; auto | reflexivity].
      - eapply Forall_impl; [exact Hall|]. intros c (Hf & a & Ha & Hc).
        split; [exact Hf|]. exists a. split; [apply elem_of_cons; auto | exact Hc]. }
    split.
    { intros i Hi. apply Hmk. apply mark_keeps_marked, Hi. }
    intros a Ha. apply elem_of_cons in Ha as [->|Ha].
    + apply Hmk. apply mark_marked, Hknown. apply elem_of_cons. auto.
    + apply Hdone, Ha.
Qed.

End ProcessArticles.

(** C2. [process_articles] always returns. When it does, every selected
    article is stored with its processed flag set; every returned chunk is
    a new object without a FAISS id, owned by a selected article (so its
    article is marked processed); and nothing has been embedded or
    indexed: the FAISS index, the index file and the [chunks] collection
    are what they were. The FAISS ids are assigned by [index_chunks]
    only. *)
Theorem process_articles_marks_before_indexing `{SentenceTransformer}
  (s : DocumentProcessor.t) (article_ids : option (list ObjectId)) :
  exists chunks s',
    DocumentProcessor.process_articles s article_ids = Some (chunks, s') /\
    (forall a, a ∈ DocumentProcessor.select_articles s article_ids ->
       DatabaseService.marked (DocumentProcessor.db s') (Article.id a)) /\
    (forall r, r ∈ chunks ->
       exists c,
         DocumentProcessor.heap s' !! r = Some c /\
         DocumentProcessor.heap s !! r = None /\
         Chunk.faiss_id c = None /\
         (exists a, a ∈ DocumentProcessor.select_articles s article_ids /\
                    Chunk.article_id c = Article.id a) /\
         DatabaseService.marked (DocumentProcessor.db s')
           (Chunk.article_id c)) /\
    DocumentProcessor.faiss_index s' = DocumentProcessor.faiss_index s /\
    DocumentProcessor.index_file s' = DocumentProcessor.index_file s /\
    DatabaseService.chunks (DocumentProcessor.db s')
    = DatabaseService.chunks (DocumentProcessor.db s).
Proof.
  unfold DocumentProcessor.process_articles.
  destruct (process_loop_spec
              (DocumentProcessor.select_articles s article_ids) s [])
    as (added & s' & Hrun & Hheap & Hix & Hfile & Hch & Hall & _ & Hdone).
  { intros a Ha. eapply select_articles_known, Ha. }
  exists (seq (length (DocumentProcessor.heap s)) (length added)), s'.
  split; [exact Hrun|]. split; [exact Hdone|]. split.
  - intros r Hr. apply elem_of_seq in Hr as [Hlo Hhi].
    destruct (added !! (r - length (DocumentProcessor.heap s))) as [c|] eqn:Hc.
    + exists c. split.
      { rewrite Hheap, lookup_app_r by lia. exact Hc. }
      split; [apply lookup_ge_None_2; lia|].
      rewrite Forall_forall in Hall.
      destruct (Hall c) as (Hf & a & Ha & Hca);
        [eapply list_elem_of_lookup_2, Hc|].
      split; [exact Hf|]. split; [exists a; auto|].
      rewrite Hca. apply Hdone, Ha.
    + apply lookup_ge_None in Hc. lia.
  - auto.
Qed.

(** ** The retriever *)

Section ScoreFacts.
Import DocumentRetriever.
Local Open Scope Q_scope.

Lemma score_of_inv d : score_of d == / (1 + d).
Proof. unfold score_of, Qdiv. apply Qmult_1_l. Qed.

Lemma score_of_lt d1 d2 : 0 <= d1 -> d1 < d2 -> score_of d2 < score_of d1.
Proof.
  intros H0 Hlt. rewrite !score_of_inv.
  apply -> (Qinv_lt_contravar (1 + d1) (1 + d2)); lra.
Qed.

Lemma score_of_eq d1 d2 : d1 == d2 -> score_of d1 == score_of d2.
Proof. intros E. unfold score_of. rewrite E. reflexivity. Qed.

Lemma score_of_le d1 d2 : 0 <= d1 -> d1 <= d2 -> score_of d2 <= score_of d1.
Proof.
  intros H0 Hle. apply Qle_lteq in Hle as [Hlt|Heq].
  - apply Qlt_le_weak, score_of_lt; assumption.
  - rewrite (score_of_eq _ _ Heq). apply Qle_refl.
Qed.

Lemma score_of_pos d : 0 <= d -> 0 < score_of d.
Proof. intros H0. rewrite score_of_inv. apply Qinv_lt_0_compat. lra. Qed.

Lemma score_of_le_1 d : 0 <= d -> score_of d <= 1.
Proof. intros H0. unfold score_of. apply Qle_shift_div_r; lra. Qed.

Lemma score_of_0 : score_of 0 = 1.
Proof. reflexivity. Qed.

(** The formula over the rationals. On the distances [d >= 0],
    [score_of d = 1 / (1 + d)] lies in (0, 1], is 1 at [d = 0] and only
    there, and is strictly decreasing: a larger distance has a strictly
    smaller score. The code evaluates the formula on floating-point
    numbers, where [1 + d] is rounded and two distances can share a
    score; the results on [search] use the order of the scores in its
    non-strict form only. *)
Theorem score_of_decreasing_bounded (d : Q) :
  0 <= d ->
  0 < score_of d /\
  score_of d <= 1 /\
  score_of 0 = 1 /\
  (score_of d == 1 <-> d == 0) /\
  (forall d', d < d' -> score_of d' < score_of d).
Proof.
  intros H0.
  split; [apply score_of_pos, H0|].
  split; [apply score_of_le_1, H0|].
  split; [apply score_of_0|].
  split.
  - split.
    + intros E. destruct (Qlt_le_dec 0 d) as [Hpos|Hle]; [|lra].
      pose proof (score_of_lt 0 d ltac:(lra) Hpos) as Hlt.
      rewrite E, score_of_0 in Hlt. lra.
    + intros E. rewrite (score_of_eq _ _ E). reflexivity.
  - intros d' Hlt. apply score_of_lt; assumption.
Qed.

(** At the distance 1/2 the score is 2/3, above the score 1/2 of the
    distance 1. *)
Lemma score_of_decreasing_bounded_witness :
  0 <= 1 # 2 /\
  score_of (1 # 2) == 2 # 3 /\
  score_of 1 < score_of (1 # 2).
Proof.
  split; [unfold Qle; simpl; lia|].
  split; [reflexivity|].
  apply (score_of_decreasing_bounded (1 # 2)).
  - unfold Qle; simpl; lia.
  - unfold Qlt; simpl; lia.
Defined.

End ScoreFacts.

Section RetrieverFacts.
Context `{Faiss} `{DateTime}.
Import DocumentRetriever.

(** What one pass of the loop of [search] does with a hit: it drops the
    hit, or it appends the hit's result, ranked by the position of the
    hit. *)
Lemma search_loop_cons d src i dist fid rest results :
  search_loop d src i ((dist, fid) :: rest) = Some results ->
  search_loop d src (S i) rest = Some results \/
  exists c a date results',
    DatabaseService.get_chunk_by_faiss_id d fid = Some c /\
    DatabaseService.get_article d (Chunk.article_id c) = Some a /\
    filtered_out src a = false /\
    Article.date_published a = Some date /\
    search_loop d src (S i) rest = Some results' /\
    results =
      mk_result
        (mk_chunk_info (Chunk.text c) (Article.title a) (strftime date)
           (Article.url a) (Article.source a))
        (score_of dist) (i + 1) :: results'.
Proof.
  cbn [search_loop].
  destruct (DatabaseService.get_chunk_by_faiss_id d fid) as [c|] eqn:Hc;
    [|auto].
  destruct (DatabaseService.get_article d (Chunk.article_id c)) as [a|] eqn:Ha;
    [|auto].
  destruct (filtered_out src a) eqn:Hf; [auto|].
  destruct (Article.date_published a) as [date|] eqn:Hd; [|discriminate].
  destruct (search_loop d src (S i) rest) as [results'|] eqn:Hr;
    [|discriminate].
  intros [= <-]. right. exists c, a, date, results'.
  repeat split; assumption || reflexivity.
Qed.

(** Every result comes from a hit: its rank is the position of the hit in
    the hit list, counted from 1, and its score is computed from the
    distance of the hit. *)
Lemma search_loop_results d src hits : forall i results,
  search_loop d src i hits = Some results ->
  forall r, r ∈ results ->
  exists pos dist fid c a,
    hits !! pos = Some (dist, fid) /\
    rank r = i + pos + 1 /\
    score r = score_of dist /\
    DatabaseService.get_chunk_by_faiss_id d fid = Some c /\
    DatabaseService.get_article d (Chunk.article_id c) = Some a /\
    filtered_out src a = false /\
    text (chunk r) = Chunk.text c /\
    article_url (chunk r) = Article.url a /\
    source (chunk r) = Article.source a.
Proof.
  induction hits as [|[dist fid] rest IH]; intros i results Hs r Hr.
  - injection Hs as <-. inversion Hr.
  - apply search_loop_cons in Hs
      as [Hs|(c & a & date & results' & Hc & Ha & Hf & Hd & Hs & ->)].
    + destruct (IH _ _ Hs r Hr) as (pos & d' & f' & c & a & Hp & Hk & Hrest).
      exists (S pos), d', f', c, a. split; [exact Hp|].
      split; [lia | exact Hrest].
    + apply elem_of_cons in Hr as [->|Hr].
      * exists 0, dist, fid, c, a. simpl.
        repeat split; try assumption; try reflexivity. lia.
      * destruct (IH _ _ Hs r Hr) as (pos & d' & f' & c' & a' & Hp & Hk & Hrest).
        exists (S pos), d', f', c', a'. split; [exact Hp|].
        split; [lia | exact Hrest].
Qed.

Lemma search_loop_length d src hits : forall i results,
  search_loop d src i hits = Some results -> length results <= length hits.
Proof.
  induction hits as [|[dist fid] rest IH]; intros i results Hs.
  - injection Hs as <-. reflexivity.
  - apply search_loop_cons in Hs as [Hs|(c & a & date & results' & Hs)].
    + apply IH in Hs. simpl. lia.
    + destruct Hs as (_ & _ & _ & _ & Hs & ->). apply IH in Hs. simpl. lia.
Qed.

(** The result at position [j] has a rank of at least [j + 1], and
    exactly [j + 1] when no hit was dropped. *)
Lemma search_loop_rank_position d src hits : forall i results j r,
  search_loop d src i hits = Some results ->
  results !! j = Some r ->
  i + j + 1 <= rank r /\
  (length results = length hits -> rank r = i + j + 1).
Proof.
  induction hits as [|[dist fid] rest IH]; intros i results j r Hs Hj.
  - injection Hs as <-. discriminate.
  - apply search_loop_cons in Hs
      as [Hs|(c & a & date & results' & _ & _ & _ & _ & Hs & ->)].
    + destruct (IH _ _ _ _ Hs Hj) as [Hle _]. split; [lia|].
      intros Hlen. apply search_loop_length in Hs. simpl in Hlen. lia.
    + destruct j as [|j]; simpl in Hj.
      * injection Hj as <-. simpl. split; lia.
      * destruct (IH _ _ _ _ Hs Hj) as [Hle Heq]. split; [lia|].
        intros Hlen. simpl in Hlen. rewrite Heq; lia.
Qed.

(** Ranks grow strictly along the results. *)
Lemma search_loop_ranks_increase d src hits : forall i results,
  search_loop d src i hits = Some results ->
  StronglySorted (fun r1 r2 => rank r1 < rank r2) results.
Proof.
  induction hits as [|[dist fid] rest IH]; intros i results Hs.
  - injection Hs as <-. constructor.
  - apply search_loop_cons in Hs
      as [Hs|(c & a & date & results' & _ & _ & _ & _ & Hs & ->)].
    + eapply IH, Hs.
    + constructor; [eapply IH, Hs|].
      apply Forall_forall. intros r Hr.
      destruct (search_loop_results _ _ _ _ _ Hs r Hr)
        as (pos & ? & ? & ? & ? & _ & Hk & _).
      simpl. lia.
Qed.

(** With the hits in ascending order of distance, the scores never grow
    along the results. *)
Lemma search_loop_scores_sorted d src hits : forall i results,
  Forall (fun h => (0 <= h.1)%Q) hits ->
  StronglySorted (fun h1 h2 => (h1.1 <= h2.1)%Q) hits ->
  search_loop d src i hits = Some results ->
  StronglySorted (fun r1 r2 => (score r2 <= score r1)%Q) results.
Proof.
  induction hits as [|[dist fid] rest IH]; intros i results Hpos Hsort Hs.
  - injection Hs as <-. constructor.
  - apply Forall_cons in Hpos as [Hd Hpos].
    apply StronglySorted_inv in Hsort as [Hsort Hhd].
    apply search_loop_cons in Hs
      as [Hs|(c & a & date & results' & _ & _ & _ & _ & Hs & ->)].
    + eapply IH; eassumption.
    + constructor; [eapply IH; eassumption|].
      apply Forall_forall. intros r Hr.
      destruct (search_loop_results _ _ _ _ _ Hs r Hr)
        as (pos & d' & f' & ? & ? & Hp & _ & Hsc & _).
      simpl. rewrite Hsc. apply score_of_le; [exact Hd|].
      rewrite Forall_forall in Hhd.
      apply (Hhd (d', f')). eapply list_elem_of_lookup_2, Hp.
Qed.

(** One pass of the loop, by what becomes of the hit. *)
Lemma search_loop_kept d src i dist fid rest results :
  search_loop d src i ((dist, fid) :: rest) = Some results ->
  (kept d src fid = false /\ search_loop d src (S i) rest = Some results) \/
  (kept d src fid = true /\
   exists r results',
     rank r = i + 1 /\ results = r :: results' /\
     search_loop d src (S i) rest = Some results').
Proof.
  unfold kept. cbn [search_loop].
  destruct (DatabaseService.get_chunk_by_faiss_id d fid) as [c|]; [|auto].
  destruct (DatabaseService.get_article d (Chunk.article_id c)) as [a|];
    [|auto].
  destruct (filtered_out src a); [auto|].
  destruct (Article.date_published a) as [date|]; [|discriminate].
  destruct (search_loop d src (S i) rest) as [results'|]; [|discriminate].
  intros [= <-]. right. split; [reflexivity|].
  eexists _, results'. split; [|split].
  2: reflexivity. 2: reflexivity. reflexivity.
Qed.

(** The ranks are the numbers from [i + 1] on, without a gap, exactly
    when no hit is dropped before the last result: the [n] results come
    from the first [n] hits. *)
Lemma search_loop_dense d src hits : forall i results,
  search_loop d src i hits = Some results ->
  (rank <$> results = seq (i + 1) (length results) <->
   forall j dist fid,
     j < length results -> hits !! j = Some (dist, fid) ->
     kept d src fid = true).
Proof.
  induction hits as [|[dist fid] rest IH]; intros i results Hs.
  - injection Hs as <-. split; [|reflexivity].
    intros _ j dist fid Hj. cbn in Hj. lia.
  - pose proof Hs as Hs0.
    apply search_loop_kept in Hs
      as [[Hk Hs]|(Hk & r & results' & Hr & -> & Hs)].
    + assert (Hempty : forall r results', results = r :: results' ->
                i + 2 <= rank r).
      { intros r results' ->.
        destruct (search_loop_rank_position _ _ _ _ _ 0 r Hs eq_refl)
          as [Hle _]. lia. }
      destruct results as [|r results'].
      * split; [|reflexivity]. intros _ j d0 f0 Hj. cbn in Hj. lia.
      * specialize (Hempty r results' eq_refl). split.
        -- cbn [fmap list_fmap length seq]. intros [= Hr _]. lia.
        -- intros Hall. specialize (Hall 0 dist fid).
           cbn in Hall. rewrite Hall in Hk by (lia || reflexivity).
           discriminate.
    + cbn [fmap list_fmap length seq]. rewrite Hr.
      change (list_fmap _ _ rank results') with (rank <$> results').
      specialize (IH (S i) results' Hs).
      replace (S i + 1) with (S (i + 1)) in IH by lia.
      split.
      * intros [= Hrest]. pose proof (proj1 IH Hrest) as Hkept.
        intros [|j] d0 f0 Hj Hlook; cbn in Hlook.
        -- injection Hlook as _ <-. exact Hk.
        -- eapply Hkept; [|exact Hlook]. cbn [length] in Hj. lia.
      * intros Hall. f_equal. apply (proj2 IH).
        intros j d0 f0 Hj Hlook. apply (Hall (S j) d0 f0); [lia | exact Hlook].
Qed.

Lemma filtered_out_None a : filtered_out None a = false.
Proof. reflexivity. Qed.

(** When the search without a source filter returns, the search with a
    filter returns too, a sublist of the unfiltered results. *)
Lemma search_loop_filter_sublist d src hits : forall i unfiltered,
  search_loop d None i hits = Some unfiltered ->
  exists filtered,
    search_loop d src i hits = Some filtered /\
    filtered `sublist_of` unfiltered.
Proof.
  induction hits as [|[dist fid] rest IH]; intros i unfiltered Hs.
  - injection Hs as <-. exists []. split; [reflexivity | constructor].
  - cbn [search_loop] in *.
    destruct (DatabaseService.get_chunk_by_faiss_id d fid) as [c|];
      [|apply IH, Hs].
    destruct (DatabaseService.get_article d (Chunk.article_id c)) as [a|];
      [|apply IH, Hs].
    rewrite filtered_out_None in Hs.
    destruct (Article.date_published a) as [date|]; [|discriminate].
    destruct (search_loop d None (S i) rest) as [rest_results|] eqn:Hr;
      [|discriminate].
    injection Hs as <-.
    destruct (IH _ _ Hr) as (filtered & Hf & Hsub).
    destruct (filtered_out src a).
    + exists filtered. split; [exact Hf|]. apply sublist_cons, Hsub.
    + rewrite Hf. eexists. split; [reflexivity|]. apply sublist_skip, Hsub.
Qed.

(** The search returns when every stored article has a publication
    date. *)
Lemma search_loop_returns d src hits : forall i,
  Forall (fun a => is_Some (Article.date_published a))
    (DatabaseService.articles d) ->
  is_Some (search_loop d src i hits).
Proof.
  intros i Hall. revert i.
  induction hits as [|[dist fid] rest IH]; intros i; [eexists; reflexivity|].
  cbn [search_loop].
  destruct (DatabaseService.get_chunk_by_faiss_id d fid) as [c|]; [|apply IH].
  destruct (DatabaseService.get_article d (Chunk.article_id c)) as [a|] eqn:Ha;
    [|apply IH].
  destruct (filtered_out src a); [apply IH|].
  apply find_one_Some in Ha as [Ha _].
  rewrite Forall_forall in Hall. destruct (Hall a Ha) as [date ->].
  destruct (IH (S i)) as [results ->]. eexists; reflexivity.
Qed.

End RetrieverFacts.

(** The search returns when every stored article has a publication
    date. *)
Lemma search_returns `{Faiss} `{DateTime} (s : DocumentRetriever.t)
  (query : string) (k : nat) (sources : option (list string)) :
  Forall (fun a => is_Some (Article.date_published a))
    (DatabaseService.articles (DocumentRetriever.db s)) ->
  is_Some (DocumentRetriever.search s query k sources).
Proof. apply search_loop_returns. Qed.

(** C4, as the code has it. The rank of a result is [i + 1] for the
    position [i] of its hit in the list of hits returned by the index,
    whatever was dropped before it: the hit at position [rank - 1] is
    the one the result was built from. Ranks grow strictly along the
    results; the result at position [j] has a rank of at least [j + 1],
    and of exactly [j + 1] when no hit was dropped. The ranks of the [n]
    results are 1, ..., [n] exactly when the first [n] hits are all
    kept, that is when no hit is dropped before the last result. *)
Theorem search_rank_is_hit_position `{Faiss} `{DateTime}
  (s : DocumentRetriever.t) (query : string) (k : nat)
  (sources : option (list string)) (results : list DocumentRetriever.result) :
  DocumentRetriever.search s query k sources = Some results ->
  (forall r, r ∈ results ->
     1 <= DocumentRetriever.rank r /\
     exists dist fid c a,
       DocumentRetriever.hits_of s query k !! (DocumentRetriever.rank r - 1)
       = Some (dist, fid) /\
       DocumentRetriever.score r = DocumentRetriever.score_of dist /\
       DatabaseService.get_chunk_by_faiss_id (DocumentRetriever.db s) fid
       = Some c /\
       DatabaseService.get_article (DocumentRetriever.db s)
         (Chunk.article_id c) = Some a /\
       DocumentRetriever.filtered_out sources a = false /\
       DocumentRetriever.text (DocumentRetriever.chunk r) = Chunk.text c /\
       DocumentRetriever.source (DocumentRetriever.chunk r)
       = Article.source a) /\
  StronglySorted
    (fun r1 r2 => DocumentRetriever.rank r1 < DocumentRetriever.rank r2)
    results /\
  (forall j r, results !! j = Some r -> j + 1 <= DocumentRetriever.rank r) /\
  (length results = length (DocumentRetriever.hits_of s query k) ->
   forall j r, results !! j = Some r -> DocumentRetriever.rank r = j + 1) /\
  (DocumentRetriever.rank <$> results = seq 1 (length results) <->
   forall j dist fid,
     j < length results ->
     DocumentRetriever.hits_of s query k !! j = Some (dist, fid) ->
     DocumentRetriever.kept (DocumentRetriever.db s) sources fid = true).
Proof.
  unfold DocumentRetriever.search. intros Hs.
  split; [|split; [|split; [|split]]].
  - intros r Hr.
    destruct (search_loop_results _ _ _ _ _ Hs r Hr)
      as (pos & dist & fid & c & a & Hp & Hk & Hsc & Hc & Ha & Hf & Ht & _ & Hsrc).
    split; [lia|]. exists dist, fid, c, a.
    replace (DocumentRetriever.rank r - 1) with pos by lia.
    auto 10.
  - eapply search_loop_ranks_increase, Hs.
  - intros j r Hj.
    destruct (search_loop_rank_position _ _ _ _ _ _ _ Hs Hj) as [Hle _].
    exact Hle.
  - intros Hlen j r Hj.
    destruct (search_loop_rank_position _ _ _ _ _ _ _ Hs Hj) as [_ Heq].
    apply Heq, Hlen.
  - apply (search_loop_dense _ _ _ 0 _ Hs).
Qed.

(** A search filtered to the source [latimes]: the only result is built
    from the second hit and has rank 2. *)
Lemma search_rank_is_hit_position_witness :
  @DocumentRetriever.search Sample.model Sample.faiss Sample.dates
    Sample.retriever "fraud" 3 (Some ["latimes"%string])
  = Some Sample.latimes_results /\
  forall j r, Sample.latimes_results !! j = Some r ->
              j + 1 <= DocumentRetriever.rank r.
Proof.
  assert (Hs : @DocumentRetriever.search Sample.model Sample.faiss Sample.dates
                 Sample.retriever "fraud" 3 (Some ["latimes"%string])
               = Some Sample.latimes_results) by (vm_compute; reflexivity).
  split; [exact Hs|].
  apply (@search_rank_is_hit_position Sample.model Sample.faiss Sample.dates
           _ _ _ _ _ Hs).
Defined.

(** C4, as it is stated, fails: with the filter [["latimes"]] the search
    returns one result, at position 1 of the filtered list, and its rank
    is 2, its position among the three hits of the index. Without the
    filter the same search returns two results (the third hit is an
    orphan), ranked 1 and 2. *)
Lemma search_rank_not_dense_counterexample :
  DocumentRetriever.rank <$> Sample.latimes_results = [2] /\
  @DocumentRetriever.search Sample.model Sample.faiss Sample.dates
    Sample.retriever "fraud" 3 (Some ["latimes"%string])
  = Some Sample.latimes_results /\
  DocumentRetriever.rank <$> Sample.unfiltered_results = [1; 2] /\
  @DocumentRetriever.search Sample.model Sample.faiss Sample.dates
    Sample.retriever "fraud" 3 None
  = Some Sample.unfiltered_results.
Proof. vm_compute. repeat split; reflexivity. Qed.

(** C5. When the index returns its hits in ascending order of distance
    (the distances being non-negative) and the search without a source
    filter returns, its results are in non-increasing order of score and
    in the order of the hits (ranks grow strictly, so results of equal
    score keep the order of their hits); and for every source filter the
    search returns as well, its results are a sublist of the unfiltered
    ones, in the same two orders. *)
Theorem search_sorted_and_filter_sublist `{Faiss} `{DateTime}
  (s : DocumentRetriever.t) (query : string) (k : nat)
  (sources : option (list string))
  (unfiltered : list DocumentRetriever.result) :
  Forall (fun h => (0 <= h.1)%Q) (DocumentRetriever.hits_of s query k) ->
  StronglySorted (fun h1 h2 => (h1.1 <= h2.1)%Q)
    (DocumentRetriever.hits_of s query k) ->
  DocumentRetriever.search s query k None = Some unfiltered ->
  StronglySorted
    (fun r1 r2 => (DocumentRetriever.score r2 <= DocumentRetriever.score r1)%Q)
    unfiltered /\
  StronglySorted
    (fun r1 r2 => DocumentRetriever.rank r1 < DocumentRetriever.rank r2)
    unfiltered /\
  exists filtered,
    DocumentRetriever.search s query k sources = Some filtered /\
    filtered `sublist_of` unfiltered /\
    StronglySorted
      (fun r1 r2 =>
         (DocumentRetriever.score r2 <= DocumentRetriever.score r1)%Q)
      filtered /\
    StronglySorted
      (fun r1 r2 => DocumentRetriever.rank r1 < DocumentRetriever.rank r2)
      filtered.
Proof.
  unfold DocumentRetriever.search. intros Hpos Hsort Hs.
  split; [eapply search_loop_scores_sorted; eassumption|].
  split; [eapply search_loop_ranks_increase; eassumption|].
  destruct (search_loop_filter_sublist _ sources _ _ _ Hs)
    as (filtered & Hf & Hsub).
  exists filtered. split; [exact Hf|]. split; [exact Hsub|].
  split; [eapply search_loop_scores_sorted; eassumption|].
  eapply search_loop_ranks_increase; eassumption.
Qed.

(** The sample search: three hits at the distances 1/10, 2/10 and 3/10;
    the results filtered to [latimes] are a sublist of the unfiltered
    ones. *)
Lemma search_sorted_and_filter_sublist_witness :
  Forall (fun h => (0 <= h.1)%Q)
    (@DocumentRetriever.hits_of Sample.model Sample.faiss
       Sample.retriever "fraud" 3) /\
  StronglySorted (fun h1 h2 => (h1.1 <= h2.1)%Q)
    (@DocumentRetriever.hits_of Sample.model Sample.faiss
       Sample.retriever "fraud" 3) /\
  @DocumentRetriever.search Sample.model Sample.faiss Sample.dates
    Sample.retriever "fraud" 3 None = Some Sample.unfiltered_results /\
  exists filtered,
    @DocumentRetriever.search Sample.model Sample.faiss Sample.dates
      Sample.retriever "fraud" 3 (Some ["latimes"%string]) = Some filtered /\
    filtered `sublist_of` Sample.unfiltered_results.
Proof.
  assert (Hpos : Forall (fun h => (0 <= h.1)%Q)
            (@DocumentRetriever.hits_of Sample.model Sample.faiss
               Sample.retriever "fraud" 3)).
  { repeat constructor; unfold Qle; simpl; lia. }
  assert (Hsort : StronglySorted (fun h1 h2 => (h1.1 <= h2.1)%Q)
            (@DocumentRetriever.hits_of Sample.model Sample.faiss
               Sample.retriever "fraud" 3)).
  { repeat constructor; unfold Qle; simpl; lia. }
  assert (Hs : @DocumentRetriever.search Sample.model Sample.faiss Sample.dates
                 Sample.retriever "fraud" 3 None
               = Some Sample.unfiltered_results) by (vm_compute; reflexivity).
  split; [exact Hpos|]. split; [exact Hsort|]. split; [exact Hs|].
  destruct (@search_sorted_and_filter_sublist Sample.model Sample.faiss
              Sample.dates Sample.retriever "fraud" 3
              (Some ["latimes"%string]) Sample.unfiltered_results
              Hpos Hsort Hs) as (_ & _ & filtered & Hf & Hsub & _).
  exists filtered. split; [exact Hf | exact Hsub].
Defined.

(** ** The scraper *)

Section FetchFacts.
Context `{Web}.
Import BaseScraper.

(** [fetch_page] by the outcomes of the three requests it can make. *)
Lemma fetch_page_cases (s : t) (u : string) :
  fetch_page s u =
  match http_get (requests s) u with
  | HttpResponse st body =>
      (if st =? 200 then Some body else None, tick s)
  | ClientError =>
      match http_get (S (requests s)) u with
      | HttpResponse st body =>
          (if st =? 200 then Some body else None, tick (sleep 1 (tick s)))
      | ClientError =>
          match http_get (S (S (requests s))) u with
          | HttpResponse st body =>
              (if st =? 200 then Some body else None,
               tick (sleep 1 (tick (sleep 1 (tick s)))))
          | ClientError =>
              (None, tick (sleep 1 (tick (sleep 1 (tick s)))))
          end
      end
  end.
Proof.
  unfold fetch_page, max_retries. cbn [seq fetch_loop].
  destruct (http_get (requests s) u) as [st body|].
  { destruct (st =? 200); reflexivity. }
  cbn. destruct (http_get (S (requests s)) u) as [st body|].
  { destruct (st =? 200); reflexivity. }
  cbn. destruct (http_get (S (S (requests s))) u) as [st body|].
  { destruct (st =? 200); reflexivity. }
  reflexivity.
Qed.

Lemma fetch_page_saved (s : t) (u : string) :
  saved s (fetch_page s u).2 0 /\ db (fetch_page s u).2 = db s.
Proof.
  rewrite fetch_page_cases.
  destruct (http_get (requests s) u) as [st body|];
    [|destruct (http_get (S (requests s)) u) as [st body|];
      [|destruct (http_get (S (S (requests s))) u) as [st body|]]];
    try destruct (st =? 200); unfold saved; cbn;
    rewrite !Nat.add_0_r; auto 10.
Qed.

End FetchFacts.

Section FetchPage.
Context `{Web} `{DateTime} `{BaseScraper.Methods}.
Import BaseScraper.

Lemma iteration_no_page (l : locals) (s : t) :
  cap_reached s = false ->
  no_page (fetch_page s (get_page_url s (page l))).1 = true ->
  iteration l s = (Break, l, (fetch_page s (get_page_url s (page l))).2).
Proof.
  intros Hcap Hno. unfold iteration. rewrite Hcap.
  destruct (fetch_page s (get_page_url s (page l))) as [html s1].
  simpl in *. rewrite Hno. reflexivity.
Qed.

(** C8, as the code has it. [fetch_page] makes between one and three
    requests and sleeps one second between two of them. It makes another
    request only after an exception: every request before the last one
    raised, and the last one decides. A response ends the loop at once,
    with its body when the status is 200 and with no page for any other
    status, which is not retried; a third exception ends it with no page.
    The database and the counter of new articles are not touched. In
    [scrape_all_articles] a fetch that yields no page (or an empty one)
    ends the session. *)
Theorem fetch_page_retries_exceptions_only (s : t) (u : string) :
  let html := (fetch_page s u).1 in
  let s' := (fetch_page s u).2 in
  let attempts := requests s' - requests s in
  1 <= attempts <= max_retries /\
  requests s <= requests s' /\
  slept s' = slept s + (attempts - 1) /\
  (forall i, i < attempts - 1 -> http_get (requests s + i) u = ClientError) /\
  match http_get (requests s + (attempts - 1)) u with
  | HttpResponse st body => html = if st =? 200 then Some body else None
  | ClientError => attempts = max_retries /\ html = None
  end /\
  (forall st body,
     http_get (requests s) u = HttpResponse st body -> st <> 200 ->
     html = None /\ attempts = 1) /\
  db s' = db s /\
  new_articles_found s' = new_articles_found s /\
  (forall l, u = get_page_url s (page l) -> cap_reached s = false ->
     no_page html = true -> iteration l s = (Break, l, s')).
Proof.
  intros html s' attempts.
  assert (Hstop : forall l, u = get_page_url s (page l) ->
            cap_reached s = false -> no_page html = true ->
            iteration l s = (Break, l, s')).
  { intros l -> Hcap Hno. apply iteration_no_page; assumption. }
  revert Hstop. subst html s' attempts. rewrite fetch_page_cases.
  destruct (http_get (requests s) u) as [st0 body0|] eqn:E0;
    [|destruct (http_get (S (requests s)) u) as [st1 body1|] eqn:E1;
      [|destruct (http_get (S (S (requests s))) u) as [st2 body2|] eqn:E2]];
    cbn; intros Hstop.
  - replace (S (requests s) - requests s) with 1 by lia. cbn.
    rewrite !Nat.add_0_r, E0. unfold max_retries.
    split; [lia|]. split; [lia|]. split; [reflexivity|].
    split; [intros i Hi; lia|]. split; [reflexivity|].
    split; [|auto].
    intros st body [= <- <-] Hne. apply Nat.eqb_neq in Hne.
    rewrite Hne. auto.
  - replace (S (S (requests s)) - requests s) with 2 by lia. cbn.
    rewrite !Nat.add_1_r, E1. unfold max_retries.
    split; [lia|]. split; [lia|]. split; [lia|].
    split.
    { intros i Hi. assert (i = 0) as -> by lia. rewrite Nat.add_0_r. exact E0. }
    split; [reflexivity|]. split; [|auto].
    intros st body Hr. discriminate.
  - replace (S (S (S (requests s))) - requests s) with 3 by lia. cbn.
    replace (requests s + 2) with (S (S (requests s))) by lia.
    rewrite E2. unfold max_retries.
    split; [lia|]. split; [lia|]. split; [lia|].
    split.
    { intros i Hi. assert (i = 0 \/ i = 1) as [-> | ->] by lia.
      - rewrite Nat.add_0_r. exact E0.
      - rewrite Nat.add_1_r. exact E1. }
    split; [reflexivity|]. split; [|auto].
    intros st body Hr. discriminate.
  - replace (S (S (S (requests s))) - requests s) with 3 by lia. cbn.
    replace (requests s + 2) with (S (S (requests s))) by lia.
    rewrite E2. unfold max_retries.
    split; [lia|]. split; [lia|]. split; [lia|].
    split.
    { intros i Hi. assert (i = 0 \/ i = 1) as [-> | ->] by lia.
      - rewrite Nat.add_0_r. exact E0.
      - rewrite Nat.add_1_r. exact E1. }
    split; [auto|]. split; [|auto].
    intros st body Hr. discriminate.
Qed.
End FetchPage.

(** C8, as it is stated, fails: a server answers the first request with
    the status 503 and the next with the page. [fetch_page] returns no
    page after one request and no sleep; the second request, which would
    have fetched the page, is never made. *)
Lemma fetch_page_no_retry_on_status_counterexample :
  @http_get Sample.flaky_web 0 Sample.site = HttpResponse 503 "" /\
  @http_get Sample.flaky_web 1 Sample.site = HttpResponse 200 "<html>" /\
  (@BaseScraper.fetch_page Sample.flaky_web (Sample.scraper None)
     Sample.site).1 = None /\
  BaseScraper.requests
    (@BaseScraper.fetch_page Sample.flaky_web (Sample.scraper None)
       Sample.site).2 = 1 /\
  BaseScraper.slept
    (@BaseScraper.fetch_page Sample.flaky_web (Sample.scraper None)
       Sample.site).2 = 0.
Proof. vm_compute. repeat split; reflexivity. Qed.

Section SessionFacts.
Context `{Web} `{DateTime} `{BaseScraper.Methods}.
Import BaseScraper.

Lemma saved_refl (s : t) : saved s s 0.
Proof. unfold saved. rewrite !Nat.add_0_r. auto 10. Qed.

Lemma saved_trans (s s' s'' : t) k k' :
  saved s s' k -> saved s' s'' k' -> saved s s'' (k + k').
Proof.
  intros (Hb & Hm & Hx & Hp & Hf & Hl & Hc) (Hb' & Hm' & Hx' & Hp' & Hf' & Hl' & Hc').
  unfold saved.
  split; [congruence|]. split; [congruence|]. split; [congruence|].
  split; [congruence|]. split; [lia|]. split; [lia|].
  intros m Hmax Hpos Hle. apply Hc'; [congruence | assumption |].
  apply Hc; assumption.
Qed.

Lemma saved_with_net (s : t) reqs secs : saved s (with_net s reqs secs) 0.
Proof. unfold saved. cbn. rewrite !Nat.add_0_r. auto 10. Qed.

Lemma saved_sleep (s s' : t) n k : saved s s' k -> saved s (sleep n s') k.
Proof.
  intros Hs. replace k with (k + 0) by lia.
  eapply saved_trans; [exact Hs | apply saved_with_net].
Qed.

Lemma cap_reached_false (s : t) m :
  max_articles s = Some m -> (0 < m)%Z -> cap_reached s = false ->
  (Z.of_nat (new_articles_found s) < m)%Z.
Proof.
  unfold cap_reached. intros -> Hpos. cbn.
  replace (m =? 0)%Z with false by (symmetry; apply Z.eqb_neq; lia).
  cbn. intros Hle. apply Z.leb_gt in Hle. exact Hle.
Qed.

(** What [_save_article] does: it answers [True] and stores one more
    article, or answers [False] and changes nothing. It answers [True]
    exactly when the cap is not reached, the URL is not stored yet and
    the date parses. *)
Lemma save_article_saved (s : t) (a : article_data) :
  saved s (_save_article s a).2 (if (_save_article s a).1 then 1 else 0) /\
  (_save_article s a).1 =
    negb (cap_reached s)
    && negb (DatabaseService.article_exists (db s) (url a))
    && bool_decide (is_Some (strptime (date a))) /\
  ((_save_article s a).1 = false -> (_save_article s a).2 = s).
Proof.
  unfold _save_article.
  destruct (cap_reached s) eqn:Hcap; cbn [fst snd negb andb];
    [split; [apply saved_refl | auto]|].
  destruct (DatabaseService.article_exists (db s) (url a)) eqn:Hex;
    cbn [fst snd negb andb]; [split; [apply saved_refl | auto]|].
  destruct (strptime (date a)) as [published|] eqn:Hd; cbn [fst snd];
    [|split; [apply saved_refl | auto]].
  set (article := Article.mk _ _ _ _ _ _ _ _ _ _).
  rewrite (insert_article_new (db s) article) by exact Hex.
  subst article. cbn [fst snd].
  split; [|split; [reflexivity | discriminate]].
  unfold saved, with_db.
  cbn [base_url max_articles max_pages_without_new pages_without_new
       new_articles_found db].
  split; [reflexivity|]. split; [reflexivity|]. split; [reflexivity|].
  split; [reflexivity|]. split; [reflexivity|]. split.
  - cbn [DatabaseService.articles]. rewrite length_app. cbn [length]. lia.
  - intros m Hm Hpos _. pose proof (cap_reached_false s m Hm Hpos Hcap). lia.
Qed.

Lemma do_scrape_article_saved (s : t) (u : string) :
  saved s (do_scrape_article s u).2 0.
Proof.
  unfold do_scrape_article.
  destruct (scrape_article (db s) (requests s) u) as [[a reqs] secs].
  apply saved_with_net.
Qed.

(** The loop over the links of a page saves [k] articles and counts each
    of them in [new_articles] and in [page_new_articles]. *)
Lemma process_links_saved (links : list string) : forall (s : t) new page_new,
  exists k,
    saved s (process_links links s new page_new).2 k /\
    (process_links links s new page_new).1.1 = new + k /\
    (process_links links s new page_new).1.2 = page_new + k.
Proof.
  induction links as [|u rest IH]; intros s new page_new; cbn [process_links].
  - exists 0. cbn. rewrite !Nat.add_0_r. split; [apply saved_refl | auto].
  - destruct (cap_reached s).
    { exists 0. cbn. rewrite !Nat.add_0_r. split; [apply saved_refl | auto]. }
    destruct (_article_exists s u); [apply IH|].
    pose proof (do_scrape_article_saved s u) as Hscrape.
    destruct (do_scrape_article s u) as [[a|] s1]; cbn [snd] in Hscrape.
    + pose proof (save_article_saved s1 a) as (Hsave & _).
      destruct (_save_article s1 a) as [[|] s2]; cbn [fst snd] in Hsave.
      * destruct (IH (sleep Config.SCRAPE_DELAY s2) (new + 1) (page_new + 1))
          as (k & Hk & Hn & Hp).
        exists (1 + k). split; [|lia].
        replace (1 + k) with (0 + 1 + k) by lia.
        eapply saved_trans; [|exact Hk].
        apply saved_sleep. eapply saved_trans; eassumption.
      * destruct (IH (sleep Config.SCRAPE_DELAY s2) new page_new)
          as (k & Hk & Hn & Hp).
        exists k. split; [|lia].
        replace k with (0 + 0 + k) by lia.
        eapply saved_trans; [|exact Hk].
        apply saved_sleep. eapply saved_trans; eassumption.
    + destruct (IH (sleep Config.SCRAPE_DELAY s1) new page_new)
        as (k & Hk & Hn & Hp).
      exists k. split; [|lia].
      replace k with (0 + k) by lia.
      eapply saved_trans; [|exact Hk]. apply saved_sleep, Hscrape.
Qed.

(** One pass of the loop saves [k] articles and adds them to
    [new_articles]. *)
Lemma iteration_saved (l : locals) (s : t) :
  exists k,
    saved s (iteration l s).2 k /\
    new_articles (iteration l s).1.2 = new_articles l + k.
Proof.
  unfold iteration.
  destruct (cap_reached s).
  { exists 0. cbn. split; [apply saved_refl | lia]. }
  pose proof (fetch_page_saved s (get_page_url s (page l))) as [Hfetch _].
  destruct (fetch_page s (get_page_url s (page l))) as [html s1].
  cbn [snd] in Hfetch.
  destruct (no_page html).
  { exists 0. cbn. split; [exact Hfetch | lia]. }
  set (links := parse_article_links _).
  set (c1 := if match links with [] => true | _ => false end then _ else _).
  destruct (match links with [] => true | _ => false end && _).
  { exists 0. cbn. split; [exact Hfetch | lia]. }
  destruct (process_links_saved links s1 (new_articles l) 0)
    as (k & Hk & Hn & Hp).
  destruct (process_links links s1 (new_articles l) 0) as [[new page_new] s2].
  cbn [fst snd] in *.
  exists k. replace k with (0 + k) by lia.
  destruct (0 <? page_new); [|destruct (max_empty_pages <=? c1 + 1)];
    cbn [fst snd new_articles];
    (split; [|lia]);
    try apply saved_sleep; eapply saved_trans; eassumption.
Qed.

Lemma scrape_loop_saved (fuel : nat) : forall (l : locals) (s : t),
  exists k,
    saved s (scrape_loop fuel l s).2 k /\
    new_articles (scrape_loop fuel l s).1.2 = new_articles l + k.
Proof.
  induction fuel as [|fuel IH]; intros l s; cbn [scrape_loop].
  - exists 0. cbn. split; [apply saved_refl | lia].
  - destruct (iteration_saved l s) as (k & Hk & Hn).
    destruct (iteration l s) as [[[|] l'] s']; cbn [fst snd] in *.
    + destruct (IH l' s') as (k' & Hk' & Hn').
      exists (k + k'). split; [eapply saved_trans; eassumption | lia].
    + exists k. auto.
Qed.

End SessionFacts.

Section CapFacts.
Context `{Web} `{DateTime} `{BaseScraper.Methods}.
Import BaseScraper.

Lemma cap_reached_uncapped (s : t) :
  uncapped (max_articles s) -> cap_reached s = false.
Proof. unfold cap_reached. intros [-> | ->]; reflexivity. Qed.

Lemma with_cap_id (s : t) c : max_articles s = c -> with_cap c s = s.
Proof. destruct s. cbn. intros ->. reflexivity. Qed.

Lemma save_article_cap (s : t) c a :
  uncapped c -> uncapped (max_articles s) ->
  _save_article (with_cap c s) a =
  ((_save_article s a).1, with_cap c (_save_article s a).2).
Proof.
  intros Hc Hs. unfold _save_article.
  rewrite (cap_reached_uncapped s Hs).
  rewrite (cap_reached_uncapped (with_cap c s)) by exact Hc.
  cbn [db with_cap].
  destruct (DatabaseService.article_exists (db s) (url a)); [reflexivity|].
  destruct (strptime (date a)); [|reflexivity].
  cbn [next_oid requests]. destruct (DatabaseService.insert_article _ _);
    reflexivity.
Qed.

Lemma do_scrape_article_cap (s : t) c u :
  do_scrape_article (with_cap c s) u =
  ((do_scrape_article s u).1, with_cap c (do_scrape_article s u).2).
Proof.
  unfold do_scrape_article. cbn [db requests with_cap].
  destruct (scrape_article (db s) (requests s) u) as [[a reqs] secs].
  reflexivity.
Qed.

Lemma fetch_page_cap (s : t) c u :
  fetch_page (with_cap c s) u =
  ((fetch_page s u).1, with_cap c (fetch_page s u).2).
Proof.
  rewrite !fetch_page_cases. cbn [requests with_cap].
  destruct (http_get (requests s) u) as [st body|];
    [|destruct (http_get (S (requests s)) u) as [st body|];
      [|destruct (http_get (S (S (requests s))) u) as [st body|]]];
    reflexivity.
Qed.

Lemma process_links_cap c (links : list string) : forall (s : t) new page_new,
  uncapped c -> uncapped (max_articles s) ->
  process_links links (with_cap c s) new page_new =
  ((process_links links s new page_new).1,
   with_cap c (process_links links s new page_new).2).
Proof.
  induction links as [|u rest IH]; intros s new page_new Hc Hs;
    cbn [process_links]; [reflexivity|].
  rewrite (cap_reached_uncapped s Hs).
  rewrite (cap_reached_uncapped (with_cap c s)) by exact Hc.
  change (_article_exists (with_cap c s) u) with (_article_exists s u).
  destruct (_article_exists s u); [apply IH; assumption|].
  rewrite do_scrape_article_cap.
  pose proof (do_scrape_article_saved s u) as (_ & Hm1 & _).
  destruct (do_scrape_article s u) as [[a|] s1]; cbn [fst snd] in *.
  - rewrite save_article_cap by (assumption || (rewrite Hm1; assumption)).
    pose proof (save_article_saved s1 a) as ((_ & Hm2 & _) & _).
    destruct (_save_article s1 a) as [[|] s2]; cbn [fst snd] in *;
      apply (IH (sleep Config.SCRAPE_DELAY s2)); try assumption;
      cbn; rewrite Hm2, Hm1; assumption.
  - apply (IH (sleep Config.SCRAPE_DELAY s1)); try assumption.
    cbn. rewrite Hm1. assumption.
Qed.

Lemma iteration_cap c (l : locals) (s : t) :
  uncapped c -> uncapped (max_articles s) ->
  iteration l (with_cap c s) =
  ((iteration l s).1, with_cap c (iteration l s).2).
Proof.
  intros Hc Hs. unfold iteration.
  rewrite (cap_reached_uncapped s Hs).
  rewrite (cap_reached_uncapped (with_cap c s)) by exact Hc.
  change (get_page_url (with_cap c s) (page l)) with (get_page_url s (page l)).
  rewrite fetch_page_cap.
  pose proof (fetch_page_saved s (get_page_url s (page l)))
    as [(_ & Hm1 & _) _].
  destruct (fetch_page s (get_page_url s (page l))) as [html s1].
  cbn [fst snd] in *.
  destruct (no_page html); [reflexivity|].
  destruct (match parse_article_links (default EmptyString html) with
            | [] => true
            | _ => false
            end && _); [reflexivity|].
  rewrite process_links_cap by (assumption || (rewrite Hm1; assumption)).
  destruct (process_links _ s1 (new_articles l) 0) as [[new page_new] s2].
  cbn [fst snd].
  destruct (0 <? page_new); [reflexivity|].
  destruct (max_empty_pages <=? _); reflexivity.
Qed.

Lemma scrape_loop_cap c (fuel : nat) : forall (l : locals) (s : t),
  uncapped c -> uncapped (max_articles s) ->
  scrape_loop fuel l (with_cap c s) =
  ((scrape_loop fuel l s).1, with_cap c (scrape_loop fuel l s).2).
Proof.
  induction fuel as [|fuel IH]; intros l s Hc Hs; cbn [scrape_loop];
    [reflexivity|].
  rewrite iteration_cap by assumption.
  destruct (iteration_saved l s) as (k & (_ & Hm & _) & _).
  destruct (iteration l s) as [[[|] l'] s']; cbn [fst snd] in *.
  - apply IH; [assumption | rewrite Hm; assumption].
  - reflexivity.
Qed.

End CapFacts.

(** C10. A session of [scrape_all_articles], run for any number of
    passes, stores as many new documents as it counts in [new_articles];
    under a positive cap [m] a new scraper stores at most [m] of them.
    With [max_articles = 0] the session runs exactly as it does with
    [max_articles = None]: no budget check ever fires, and
    [_save_article] saves every article whose URL is not stored yet and
    whose date parses, however many were saved before. *)
Theorem max_articles_zero_disables_cap
  `{Web} `{DateTime} `{BaseScraper.Methods} (s : BaseScraper.t) (fuel : nat) :
  let s' := (BaseScraper.scrape_all_articles fuel s).2 in
  let new :=
    BaseScraper.new_articles (BaseScraper.scrape_all_articles fuel s).1.2 in
  length (DatabaseService.articles (BaseScraper.db s'))
  = length (DatabaseService.articles (BaseScraper.db s)) + new /\
  BaseScraper.new_articles_found s' = BaseScraper.new_articles_found s + new /\
  BaseScraper.max_articles s' = BaseScraper.max_articles s /\
  (forall m,
     BaseScraper.max_articles s = Some m -> (0 < m)%Z ->
     BaseScraper.new_articles_found s = 0 ->
     (Z.of_nat new <= m)%Z) /\
  (BaseScraper.max_articles s = Some 0%Z ->
   BaseScraper.scrape_all_articles fuel s =
   ((BaseScraper.scrape_all_articles fuel
       (BaseScraper.with_cap None s)).1,
    BaseScraper.with_cap (Some 0%Z)
      (BaseScraper.scrape_all_articles fuel
         (BaseScraper.with_cap None s)).2)) /\
  (forall st a,
     BaseScraper.uncapped (BaseScraper.max_articles st) ->
     BaseScraper.cap_reached st = false /\
     (BaseScraper._save_article st a).1 =
       negb (DatabaseService.article_exists (BaseScraper.db st)
               (BaseScraper.url a))
       && bool_decide (is_Some (strptime (BaseScraper.date a)))).
Proof.
  intros s' new. subst s' new. unfold BaseScraper.scrape_all_articles.
  destruct (scrape_loop_saved fuel (BaseScraper.mk_locals 0 0 0) s)
    as (k & (_ & Hm & _ & _ & Hf & Hl & Hc) & Hn).
  cbn [BaseScraper.new_articles] in Hn. rewrite Hn. cbn [Nat.add].
  split; [exact Hl|]. split; [exact Hf|]. split; [exact Hm|]. split.
  { intros m Hmax Hpos Hzero. specialize (Hc m Hmax Hpos).
    rewrite Hf, Hzero in Hc. cbn [Nat.add] in Hc. apply Hc. lia. }
  split.
  { intros Hzero.
    rewrite <- (with_cap_id s (Some 0%Z) Hzero) at 1.
    replace (BaseScraper.with_cap (Some 0%Z) s)
      with (BaseScraper.with_cap (Some 0%Z) (BaseScraper.with_cap None s))
      by reflexivity.
    apply scrape_loop_cap; [right | left]; reflexivity. }
  intros st a Hst.
  pose proof (cap_reached_uncapped st Hst) as Hcap.
  split; [exact Hcap|].
  destruct (save_article_saved st a) as (_ & Hb & _).
  rewrite Hb, Hcap. reflexivity.
Qed.

(** Three articles are on offer. Without a cap, and with the cap 0, the
    session saves all three; with the cap 2 it saves two. *)
Lemma max_articles_zero_disables_cap_witness :
  BaseScraper.new_articles
    (@BaseScraper.scrape_all_articles Sample.one_listing_web Sample.dates
       Sample.three_articles 10 (Sample.scraper (Some 0%Z))).1.2 = 3 /\
  BaseScraper.new_articles
    (@BaseScraper.scrape_all_articles Sample.one_listing_web Sample.dates
       Sample.three_articles 10 (Sample.scraper None)).1.2 = 3 /\
  BaseScraper.new_articles
    (@BaseScraper.scrape_all_articles Sample.one_listing_web Sample.dates
       Sample.three_articles 10 (Sample.scraper (Some 2%Z))).1.2 = 2 /\
  (Z.of_nat
     (BaseScraper.new_articles
        (@BaseScraper.scrape_all_articles Sample.one_listing_web Sample.dates
           Sample.three_articles 10 (Sample.scraper (Some 2%Z))).1.2)
   <= 2)%Z.
Proof.
  split; [vm_compute; reflexivity|].
  split; [vm_compute; reflexivity|].
  split; [vm_compute; reflexivity|].
  destruct (@max_articles_zero_disables_cap Sample.one_listing_web
              Sample.dates Sample.three_articles
              (Sample.scraper (Some 2%Z)) 10) as (_ & _ & _ & Hcap & _).
  apply (Hcap 2%Z); [reflexivity | lia | reflexivity].
Defined.

Section EmptyPages.
Context `{Web} `{DateTime} `{BaseScraper.Methods}.
Import BaseScraper.

Lemma iteration_continue_counter (l : locals) (s : t) :
  (iteration l s).1.1 = Continue ->
  consecutive_empty_pages (iteration l s).1.2 < max_empty_pages.
Proof.
  unfold iteration.
  destruct (cap_reached s); [discriminate|].
  destruct (fetch_page s (get_page_url s (page l))) as [html s1].
  destruct (no_page html); [discriminate|].
  destruct (match parse_article_links (default EmptyString html) with
            | [] => true
            | _ => false
            end && _); [discriminate|].
  destruct (process_links _ s1 (new_articles l) 0) as [[new page_new] s2].
  destruct (0 <? page_new); [intros _; cbn; unfold max_empty_pages; lia|].
  destruct (max_empty_pages <=? _) eqn:Hmax; [discriminate|].
  intros _. cbn. apply Nat.leb_gt in Hmax. exact Hmax.
Qed.

Lemma scrape_loop_continue_counter (fuel : nat) : forall (l : locals) (s : t),
  consecutive_empty_pages l < max_empty_pages ->
  (scrape_loop fuel l s).1.1 = Continue ->
  consecutive_empty_pages (scrape_loop fuel l s).1.2 < max_empty_pages.
Proof.
  induction fuel as [|fuel IH]; intros l s Hl; cbn [scrape_loop].
  - intros _. exact Hl.
  - pose proof (iteration_continue_counter l s) as Hit.
    destruct (iteration l s) as [[[|] l'] s']; cbn [fst snd] in *.
    + apply IH, Hit. reflexivity.
    + discriminate.
Qed.

(** C9, as the code has it. [scrape_all_articles] keeps one counter of
    consecutive pages without new articles. In a pass that fetches a
    page: when at least one new article is saved the counter is reset
    to 0 and the loop goes on; when the page has links and no new article
    is saved the counter grows by exactly one, and the loop ends at once
    if it has reached [max_empty_pages], and goes on otherwise; when the
    page has no links the same counter grows, once where the links are
    found missing and once more where the page is found to have brought
    nothing new, and the loop ends as soon as the counter has reached
    [max_empty_pages]. So no pass starts with the counter at the
    threshold. The attribute [pages_without_new] of the scraper is never
    changed. *)
Theorem iteration_counts_pages_without_new
  (l : locals) (s s1 s2 : t) (html : string) (new page_new : nat) :
  cap_reached s = false ->
  fetch_page s (get_page_url s (page l)) = (Some html, s1) ->
  html <> EmptyString ->
  process_links (parse_article_links html) s1 (new_articles l) 0
  = (new, page_new, s2) ->
  (0 < page_new ->
   iteration l s =
   (Continue, mk_locals (page l + 1) new 0, sleep Config.SCRAPE_DELAY s2)) /\
  (parse_article_links html <> [] -> page_new = 0 ->
   iteration l s =
   if max_empty_pages <=? consecutive_empty_pages l + 1
   then (Break, mk_locals (page l) new (consecutive_empty_pages l + 1), s2)
   else (Continue, mk_locals (page l + 1) new (consecutive_empty_pages l + 1),
         sleep Config.SCRAPE_DELAY s2)) /\
  (parse_article_links html = [] ->
   iteration l s =
   if max_empty_pages <=? consecutive_empty_pages l + 1
   then (Break,
         mk_locals (page l) (new_articles l) (consecutive_empty_pages l + 1),
         s1)
   else if max_empty_pages <=? consecutive_empty_pages l + 2
   then (Break,
         mk_locals (page l) (new_articles l) (consecutive_empty_pages l + 2),
         s1)
   else (Continue,
         mk_locals (page l + 1) (new_articles l)
           (consecutive_empty_pages l + 2),
         sleep Config.SCRAPE_DELAY s1)) /\
  (forall fuel,
     consecutive_empty_pages l < max_empty_pages ->
     (scrape_loop fuel l s).1.1 = Continue ->
     consecutive_empty_pages (scrape_loop fuel l s).1.2 < max_empty_pages) /\
  (forall fuel,
     pages_without_new (scrape_loop fuel l s).2 = pages_without_new s /\
     max_pages_without_new (scrape_loop fuel l s).2 = max_pages_without_new s).
Proof.
  intros Hcap Hfetch Hhtml Hproc.
  assert (Hno : no_page (Some html) = false)
    by (destruct html; [congruence | reflexivity]).
  split; [|split; [|split; [|split]]].
  - intros Hpos. unfold iteration. rewrite Hcap, Hfetch, Hno.
    cbn [default from_option id].
    destruct (parse_article_links html) as [|u links] eqn:Hlinks.
    + cbn in Hproc. injection Hproc as _ <- _. lia.
    + cbn [andb]. rewrite Hproc.
      replace (0 <? page_new) with true by (symmetry; apply Nat.ltb_lt, Hpos).
      reflexivity.
  - intros Hlinks ->. unfold iteration. rewrite Hcap, Hfetch, Hno.
    cbn [default from_option id].
    destruct (parse_article_links html) as [|u links]; [congruence|].
    cbn [andb]. rewrite Hproc. reflexivity.
  - intros Hlinks. unfold iteration. rewrite Hcap, Hfetch, Hno.
    cbn [default from_option id]. rewrite Hlinks. cbn [andb process_links].
    destruct (max_empty_pages <=? consecutive_empty_pages l + 1);
      [reflexivity|].
    cbn [Nat.ltb Nat.leb].
    replace (consecutive_empty_pages l + 1 + 1)
      with (consecutive_empty_pages l + 2) by lia.
    reflexivity.
  - intros fuel. apply scrape_loop_continue_counter.
  - intros fuel.
    destruct (scrape_loop_saved fuel l s) as (k & (_ & _ & Hx & Hp & _) & _).
    auto.
Qed.

End EmptyPages.

(** A front page with one link whose article cannot be parsed: the pass
    raises the counter from 0 to 1 and the loop goes on. *)
Lemma iteration_counts_pages_without_new_witness :
  let s := Sample.scraper None in
  let l := BaseScraper.mk_locals 0 0 0 in
  let s1 := (@BaseScraper.fetch_page Sample.one_listing_web s Sample.site).2 in
  BaseScraper.cap_reached s = false /\
  @BaseScraper.fetch_page Sample.one_listing_web s
    (BaseScraper.get_page_url s (BaseScraper.page l))
  = (Some "listing"%string, s1) /\
  "listing"%string <> EmptyString /\
  @BaseScraper.process_links Sample.dates Sample.unparsable
    (@BaseScraper.parse_article_links Sample.unparsable "listing") s1 0 0
  = (0, 0, BaseScraper.sleep 1 s1) /\
  @BaseScraper.iteration Sample.one_listing_web Sample.dates Sample.unparsable
    l s
  = (BaseScraper.Continue, BaseScraper.mk_locals 1 0 1,
     BaseScraper.sleep 1 (BaseScraper.sleep 1 s1)).
Proof.
  intros s l s1.
  assert (Hcap : BaseScraper.cap_reached s = false) by reflexivity.
  assert (Hfetch : @BaseScraper.fetch_page Sample.one_listing_web s
                     (BaseScraper.get_page_url s (BaseScraper.page l))
                   = (Some "listing"%string, s1)) by reflexivity.
  assert (Hhtml : "listing"%string <> EmptyString) by discriminate.
  assert (Hproc : @BaseScraper.process_links Sample.dates Sample.unparsable
                    (@BaseScraper.parse_article_links Sample.unparsable
                       "listing") s1 (BaseScraper.new_articles l) 0
                  = (0, 0, BaseScraper.sleep 1 s1)) by reflexivity.
  split; [exact Hcap|]. split; [exact Hfetch|]. split; [exact Hhtml|].
  split; [exact Hproc|].
  destruct (@iteration_counts_pages_without_new Sample.one_listing_web
              Sample.dates Sample.unparsable l s s1 (BaseScraper.sleep 1 s1)
              "listing" 0 0 Hcap Hfetch Hhtml Hproc) as (_ & Hone & _).
  apply Hone; [discriminate | reflexivity].
Defined.

(** C9, as it is stated, fails. On a site whose pages have no links, one
    pass raises the counter from 0 to 2, and the session ends after three
    pages with the counter at 5. On a site with two pages without links
    followed by pages whose links yield nothing new, the counter stands
    at 4 after two passes, and the session ends on the third page, the
    first one of its kind: the two kinds of pages share one counter. *)
Lemma empty_pages_counter_counterexample :
  (@BaseScraper.scrape_all_articles Sample.steady_web Sample.dates
     Sample.no_links 1 (Sample.scraper None)).1
  = (BaseScraper.Continue, BaseScraper.mk_locals 1 0 2) /\
  (@BaseScraper.scrape_all_articles Sample.steady_web Sample.dates
     Sample.no_links 3 (Sample.scraper None)).1
  = (BaseScraper.Break, BaseScraper.mk_locals 2 0 5) /\
  (@BaseScraper.scrape_all_articles Sample.late_listing_web Sample.dates
     Sample.unparsable 2 (Sample.scraper None)).1
  = (BaseScraper.Continue, BaseScraper.mk_locals 2 0 4) /\
  (@BaseScraper.scrape_all_articles Sample.late_listing_web Sample.dates
     Sample.unparsable 3 (Sample.scraper None)).1
  = (BaseScraper.Break, BaseScraper.mk_locals 2 0 5) /\
  BaseScraper.max_empty_pages = 5.
Proof. vm_compute. repeat split; reflexivity. Qed.

(** * Further properties of the code *)

(** ** The retriever: what the source filter keeps *)

Section FilterFacts.
Context `{Faiss} `{DateTime}.
Import DocumentRetriever.

Lemma search_loop_filter_exact d srcs hits : forall i unfiltered,
  srcs <> [] ->
  search_loop d None i hits = Some unfiltered ->
  search_loop d (Some srcs) i hits =
  Some (List.filter (fun r => Py.str_in (source (chunk r)) srcs) unfiltered).
Proof.
  intros i unfiltered Hne. revert i unfiltered.
  induction hits as [|[dist fid] rest IH]; intros i unfiltered Hs.
  - injection Hs as <-. reflexivity.
  - cbn [search_loop] in *.
    destruct (DatabaseService.get_chunk_by_faiss_id d fid) as [c|];
      [|apply IH, Hs].
    destruct (DatabaseService.get_article d (Chunk.article_id c)) as [a|];
      [|apply IH, Hs].
    rewrite filtered_out_None in Hs.
    destruct (Article.date_published a) as [date|]; [|discriminate].
    destruct (search_loop d None (S i) rest) as [rest_results|] eqn:Hr;
      [|discriminate].
    injection Hs as <-. rewrite (IH _ _ Hr).
    unfold filtered_out. destruct srcs as [|s0 srcs]; [congruence|].
    cbn [Py.truthy_list andb default from_option id List.filter chunk source].
    destruct (Py.str_in (Article.source a) (s0 :: srcs)); reflexivity.
Qed.

Lemma search_loop_empty_filter d hits i :
  search_loop d (Some []) i hits = search_loop d None i hits.
Proof.
  revert i. induction hits as [|[dist fid] rest IH]; intros i; [reflexivity|].
  cbn [search_loop].
  destruct (DatabaseService.get_chunk_by_faiss_id d fid) as [c|]; [|apply IH].
  destruct (DatabaseService.get_article d (Chunk.article_id c)) as [a|];
    [|apply IH].
  change (filtered_out (Some []) a) with false.
  change (filtered_out None a) with false.
  cbn iota. rewrite IH. reflexivity.
Qed.

End FilterFacts.

(** X1. When the search without a filter returns, the search with a
    non-empty list of sources returns exactly those of its results whose
    source is in the list, in the same order and with the same ranks and
    scores; and a search with the empty list of sources is the search
    without a filter. *)
Theorem search_filter_keeps_listed_sources `{Faiss} `{DateTime}
  (s : DocumentRetriever.t) (query : string) (k : nat)
  (srcs : list string) (unfiltered : list DocumentRetriever.result) :
  DocumentRetriever.search s query k None = Some unfiltered ->
  DocumentRetriever.search s query k (Some srcs) =
  Some (match srcs with
        | [] => unfiltered
        | _ =>
            List.filter
              (fun r =>
                 Py.str_in
                   (DocumentRetriever.source (DocumentRetriever.chunk r)) srcs)
              unfiltered
        end).
Proof.
  unfold DocumentRetriever.search. intros Hs.
  destruct srcs as [|s0 srcs].
  - rewrite search_loop_empty_filter. exact Hs.
  - apply search_loop_filter_exact; [discriminate | exact Hs].
Qed.

Lemma search_filter_keeps_listed_sources_witness :
  @DocumentRetriever.search Sample.model Sample.faiss Sample.dates
    Sample.retriever "fraud" 3 None = Some Sample.unfiltered_results /\
  @DocumentRetriever.search Sample.model Sample.faiss Sample.dates
    Sample.retriever "fraud" 3 (Some ["latimes"%string])
  = Some (List.filter
            (fun r =>
               Py.str_in
                 (DocumentRetriever.source (DocumentRetriever.chunk r))
                 ["latimes"%string])
            Sample.unfiltered_results).
Proof.
  assert (Hs : @DocumentRetriever.search Sample.model Sample.faiss Sample.dates
                 Sample.retriever "fraud" 3 None
               = Some Sample.unfiltered_results) by (vm_compute; reflexivity).
  split; [exact Hs|].
  exact (@search_filter_keeps_listed_sources Sample.model Sample.faiss
           Sample.dates Sample.retriever "fraud" 3 ["latimes"%string]
           Sample.unfiltered_results Hs).
Defined.

(** ** The scraper: the duplicate gate of [_save_article] *)

(** X2. [_save_article] never stores a URL twice: an article whose URL
    is stored already is refused with the state unchanged, and after a
    successful save the URL is stored, so that saving any article with
    the same URL again is refused and changes nothing. *)
Theorem save_article_refuses_stored_url `{DateTime}
  (s : BaseScraper.t) (a a' : BaseScraper.article_data) :
  BaseScraper.url a' = BaseScraper.url a ->
  (DatabaseService.article_exists (BaseScraper.db s) (BaseScraper.url a) = true ->
   BaseScraper._save_article s a = (false, s)) /\
  ((BaseScraper._save_article s a).1 = true ->
   let s1 := (BaseScraper._save_article s a).2 in
   DatabaseService.article_exists (BaseScraper.db s1) (BaseScraper.url a)
   = true /\
   BaseScraper._save_article s1 a' = (false, s1)).
Proof.
  intros Hurl.
  assert (Hstored : forall st b,
            DatabaseService.article_exists (BaseScraper.db st)
              (BaseScraper.url b) = true ->
            BaseScraper._save_article st b = (false, st)).
  { intros st b Hex. unfold BaseScraper._save_article.
    destruct (BaseScraper.cap_reached st); [reflexivity|].
    rewrite Hex. reflexivity. }
  split; [apply Hstored|].
  intros Hsaved s1.
  assert (Hex : DatabaseService.article_exists (BaseScraper.db s1)
                  (BaseScraper.url a) = true).
  { subst s1. revert Hsaved. unfold BaseScraper._save_article.
    destruct (BaseScraper.cap_reached s); [discriminate|].
    destruct (DatabaseService.article_exists _ _) eqn:Hnew; [discriminate|].
    destruct (strptime (BaseScraper.date a)) as [published|]; [|discriminate].
    set (article := Article.mk _ _ _ _ _ _ _ _ _ _).
    rewrite (insert_article_new (BaseScraper.db s) article) by exact Hnew.
    intros _. cbn [snd BaseScraper.db BaseScraper.with_db].
    apply article_exists_elem. cbn [DatabaseService.articles].
    rewrite fmap_app. apply elem_of_app. right.
    apply list_elem_of_singleton. reflexivity. }
  split; [exact Hex|]. apply Hstored. rewrite Hurl. exact Hex.
Qed.

Lemma save_article_refuses_stored_url_witness :
  let a := BaseScraper.mk_article_data Sample.site "Press release"
             "2025-02-05" "A man pleaded guilty" "2025-02-06T10:00:00" "usao" in
  BaseScraper.url a = BaseScraper.url a /\
  (@BaseScraper._save_article Sample.dates (Sample.scraper None) a).1 = true /\
  @BaseScraper._save_article Sample.dates
    (@BaseScraper._save_article Sample.dates (Sample.scraper None) a).2 a
  = (false, (@BaseScraper._save_article Sample.dates (Sample.scraper None) a).2).
Proof.
  intros a.
  assert (Hsaved : (@BaseScraper._save_article Sample.dates
                      (Sample.scraper None) a).1 = true) by reflexivity.
  split; [reflexivity|]. split; [exact Hsaved|].
  destruct (@save_article_refuses_stored_url Sample.dates
              (Sample.scraper None) a a eq_refl) as [_ Hagain].
  apply Hagain, Hsaved.
Defined.

(** ** The scraper of the LA Times *)

Lemma fetch_page_requests `{Web} (s : BaseScraper.t) (u : string) :
  BaseScraper.requests s < BaseScraper.requests (BaseScraper.fetch_page s u).2
  <= BaseScraper.requests s + 3 /\
  BaseScraper.db (BaseScraper.fetch_page s u).2 = BaseScraper.db s /\
  BaseScraper.new_articles_found (BaseScraper.fetch_page s u).2
  = BaseScraper.new_articles_found s.
Proof.
  rewrite fetch_page_cases.
  destruct (http_get (BaseScraper.requests s) u) as [st body|];
    [|destruct (http_get (S (BaseScraper.requests s)) u) as [st body|];
      [|destruct (http_get (S (S (BaseScraper.requests s))) u) as [st body|]]];
    cbn; repeat split; lia.
Qed.

(** X3. The LA Times scraper never saves an article: its
    [parse_article_links] finds no link on any page, so on every network
    the session ends in its first pass after at most one page fetch (at
    most three requests), returns 0, and leaves the database and the
    counter of new articles as they were. *)
Theorem latimes_session_saves_nothing `{Web} `{DateTime}
  (s : BaseScraper.t) (fuel : nat) :
  let r := LATimesScraper.scrape_all_articles (S fuel) s in
  r.1.1.1 = BaseScraper.Break /\
  r.1.1.2 = 0 /\
  r.1.2 = 0 /\
  BaseScraper.db r.2 = BaseScraper.db s /\
  BaseScraper.new_articles_found r.2 = BaseScraper.new_articles_found s /\
  BaseScraper.requests s <= BaseScraper.requests r.2 <= BaseScraper.requests s + 3.
Proof.
  intros r. subst r.
  unfold LATimesScraper.scrape_all_articles.
  cbn [LATimesScraper.scrape_loop]. unfold LATimesScraper.iteration.
  destruct (BaseScraper.cap_reached s).
  { cbn. repeat split; lia. }
  pose proof (fetch_page_requests s (BaseScraper.get_page_url s 0))
    as (Hle & Hdb & Hfound).
  destruct (BaseScraper.fetch_page s (BaseScraper.get_page_url s 0))
    as [html s1].
  cbn [fst snd] in *.
  destruct (BaseScraper.no_page html); cbn; repeat split; auto; lia.
Qed.

(** ** The base session ends when the cap is positive *)

Section Termination.
Context `{Web} `{DateTime} `{BaseScraper.Methods}.
Import BaseScraper.

(** A pass after which the loop goes on has saved an article and reset
    the counter, or has saved none and raised the counter, which stays
    below the threshold. *)
Lemma iteration_progress (l : locals) (s : t) :
  (iteration l s).1.1 = Continue ->
  exists k,
    saved s (iteration l s).2 k /\
    ((0 < k /\ consecutive_empty_pages (iteration l s).1.2 = 0) \/
     (k = 0 /\
      consecutive_empty_pages l
      < consecutive_empty_pages (iteration l s).1.2 < max_empty_pages)).
Proof.
  unfold iteration.
  destruct (cap_reached s); [discriminate|].
  pose proof (fetch_page_saved s (get_page_url s (page l))) as [Hfetch _].
  destruct (fetch_page s (get_page_url s (page l))) as [html s1].
  cbn [snd] in Hfetch.
  destruct (no_page html); [discriminate|].
  set (links := parse_article_links _).
  set (empty := match links with [] => true | _ => false end).
  assert (Hc1 : consecutive_empty_pages l
                <= (if empty then consecutive_empty_pages l + 1
                    else consecutive_empty_pages l))
    by (destruct empty; lia).
  set (c1 := if empty then _ else _) in *.
  destruct (empty && _); [discriminate|].
  destruct (process_links_saved links s1 (new_articles l) 0)
    as (k & Hk & Hn & Hp).
  destruct (process_links links s1 (new_articles l) 0) as [[new page_new] s2].
  cbn [fst snd] in *. cbn [Nat.add] in Hp. subst page_new.
  destruct (0 <? k) eqn:Hpos.
  - intros _. exists k. cbn [fst snd consecutive_empty_pages]. split.
    + replace k with (0 + k) by lia. apply saved_sleep.
      eapply saved_trans; eassumption.
    + left. apply Nat.ltb_lt in Hpos. auto.
  - destruct (max_empty_pages <=? c1 + 1) eqn:Hmax; [discriminate|].
    intros _. exists k. cbn [fst snd consecutive_empty_pages]. split.
    + replace k with (0 + k) by lia. apply saved_sleep.
      eapply saved_trans; eassumption.
    + right. apply Nat.ltb_ge in Hpos. apply Nat.leb_gt in Hmax. lia.
Qed.

Lemma scrape_loop_ends (cap : nat) (fuel : nat) : forall (l : locals) (s : t),
  max_articles s = Some (Z.of_nat cap) -> 0 < cap ->
  new_articles_found s <= cap ->
  consecutive_empty_pages l < max_empty_pages ->
  5 * (cap - new_articles_found s) + (5 - consecutive_empty_pages l) <= fuel ->
  (scrape_loop fuel l s).1.1 = Break.
Proof.
  unfold max_empty_pages.
  induction fuel as [|fuel IH]; intros l s Hmax Hpos Hfound Hc Hfuel; [lia|].
  cbn [scrape_loop].
  pose proof (iteration_progress l s) as Hprog.
  destruct (iteration l s) as [[[|] l'] s']; cbn [fst snd] in *; [|reflexivity].
  destruct (Hprog eq_refl) as (k & (_ & Hm & _ & _ & Hf & _ & Hcap) & Hcase).
  assert (Hle : new_articles_found s' <= cap).
  { specialize (Hcap (Z.of_nat cap) Hmax). lia. }
  unfold max_empty_pages in Hcase.
  apply IH; try assumption; [congruence | lia | lia].
Qed.

End Termination.

(** X4. Under a positive cap [m] the session of
    [BaseScraper.scrape_all_articles] always ends: a scraper that has
    saved [n <= m] articles leaves the loop within [5 * (m - n) + 5]
    passes, whatever the site serves, so a new scraper fetches at most
    [5 * m + 5] pages. *)
Theorem capped_session_ends `{Web} `{DateTime} `{BaseScraper.Methods}
  (s : BaseScraper.t) (cap fuel : nat) :
  BaseScraper.max_articles s = Some (Z.of_nat cap) ->
  0 < cap ->
  BaseScraper.new_articles_found s <= cap ->
  5 * (cap - BaseScraper.new_articles_found s) + 5 <= fuel ->
  (BaseScraper.scrape_all_articles fuel s).1.1 = BaseScraper.Break.
Proof.
  intros Hmax Hpos Hfound Hfuel. unfold BaseScraper.scrape_all_articles.
  apply (scrape_loop_ends cap); try assumption;
    unfold BaseScraper.max_empty_pages; cbn; lia.
Qed.

Lemma capped_session_ends_witness :
  BaseScraper.max_articles (Sample.scraper (Some 2%Z)) = Some (Z.of_nat 2) /\
  0 < 2 /\
  BaseScraper.new_articles_found (Sample.scraper (Some 2%Z)) <= 2 /\
  5 * (2 - BaseScraper.new_articles_found (Sample.scraper (Some 2%Z))) + 5
  <= 15 /\
  (@BaseScraper.scrape_all_articles Sample.one_listing_web Sample.dates
     Sample.three_articles 15 (Sample.scraper (Some 2%Z))).1.1
  = BaseScraper.Break.
Proof.
  assert (H1 : BaseScraper.max_articles (Sample.scraper (Some 2%Z))
               = Some (Z.of_nat 2)) by reflexivity.
  assert (H2 : 0 < 2) by lia.
  assert (H3 : BaseScraper.new_articles_found (Sample.scraper (Some 2%Z)) <= 2)
    by (cbn; lia).
  assert (H4 : 5 * (2 - BaseScraper.new_articles_found
                          (Sample.scraper (Some 2%Z))) + 5 <= 15)
    by (cbn; lia).
  split; [exact H1|]. split; [exact H2|]. split; [exact H3|].
  split; [exact H4|].
  exact (@capped_session_ends Sample.one_listing_web Sample.dates
           Sample.three_articles (Sample.scraper (Some 2%Z)) 2 15
           H1 H2 H3 H4).
Defined.

(** ** The scraper of the U.S. Attorney's Office *)

Section USAOFacts.
Context `{Web} `{DateTime} `{BaseScraper.Methods}.
Import BaseScraper.

Lemma usao_process_links_saved (links : list string) : forall (s : t) n,
  exists k,
    saved s (USAOScraper.process_links links s n).2 k /\
    (USAOScraper.process_links links s n).1 = n + k.
Proof.
  induction links as [|u rest IH]; intros s n;
    cbn [USAOScraper.process_links].
  - exists 0. cbn. split; [apply saved_refl | lia].
  - destruct (cap_reached s).
    { exists 0. cbn. split; [apply saved_refl | lia]. }
    destruct (_article_exists s u); [apply IH|].
    pose proof (do_scrape_article_saved s u) as Hscrape.
    destruct (do_scrape_article s u) as [[a|] s1]; cbn [snd] in Hscrape.
    + pose proof (save_article_saved s1 a) as (Hsave & _).
      destruct (_save_article s1 a) as [[|] s2]; cbn [fst snd] in Hsave.
      * destruct (IH s2 (n + 1)) as (k & Hk & Hn).
        exists (1 + k). split; [|lia].
        replace (1 + k) with (0 + 1 + k) by lia.
        eapply saved_trans; [|exact Hk]. eapply saved_trans; eassumption.
      * destruct (IH s2 n) as (k & Hk & Hn).
        exists k. split; [|lia].
        replace k with (0 + 0 + k) by lia.
        eapply saved_trans; [|exact Hk]. eapply saved_trans; eassumption.
    + destruct (IH s1 n) as (k & Hk & Hn).
      exists k. split; [|lia].
      replace k with (0 + k) by lia.
      eapply saved_trans; eassumption.
Qed.

Lemma saved_progressed (s s' : t) k :
  saved s s' k -> USAOScraper.progressed s s'.
Proof.
  intros (Hb & Hm & Hx & Hp & Hf & Hl & Hc). unfold USAOScraper.progressed.
  repeat split; try assumption; lia.
Qed.

Lemma progressed_trans (s s' s'' : t) :
  USAOScraper.progressed s s' -> USAOScraper.progressed s' s'' ->
  USAOScraper.progressed s s''.
Proof.
  intros (Hb & Hm & Hx & Hf & Hl & Hc & Hp)
         (Hb' & Hm' & Hx' & Hf' & Hl' & Hc' & Hp').
  unfold USAOScraper.progressed.
  split; [congruence|]. split; [congruence|]. split; [congruence|].
  split; [lia|]. split; [lia|]. split.
  - intros m Hmax Hpos Hle. apply Hc'; [congruence | assumption |].
    apply Hc; assumption.
  - rewrite Hx in Hp'. lia.
Qed.

Lemma usao_iteration_progressed (page : nat) (s : t) :
  USAOScraper.progressed s (USAOScraper.iteration page s).2.
Proof.
  unfold USAOScraper.iteration.
  destruct (cap_reached s);
    [cbn; eapply saved_progressed, saved_refl|].
  destruct (max_pages_without_new s <=? pages_without_new s) eqn:Hmax;
    [cbn; eapply saved_progressed, saved_refl|].
  apply Nat.leb_gt in Hmax.
  pose proof (fetch_page_saved s (USAOScraper.page_url s page)) as [Hfetch _].
  destruct (fetch_page s (USAOScraper.page_url s page)) as [html s1].
  cbn [snd] in Hfetch.
  destruct (no_page html); [cbn; eapply saved_progressed, Hfetch|].
  destruct (parse_article_links (default EmptyString html)) as [|u links];
    [cbn; eapply saved_progressed, Hfetch|].
  destruct (usao_process_links_saved (u :: links) s1 0) as (k & Hk & _).
  destruct (USAOScraper.process_links (u :: links) s1 0) as [n s2].
  cbn [fst snd] in *.
  pose proof (saved_trans _ _ _ _ _ Hfetch Hk)
    as (Hb & Hm & Hx & Hp & Hf & Hl & Hc).
  unfold USAOScraper.progressed.
  destruct (n =? 0); cbn; repeat split; try assumption; try lia.
Qed.

Lemma usao_loop_progressed (fuel : nat) : forall (page : nat) (s : t),
  USAOScraper.progressed s (USAOScraper.scrape_loop fuel page s).2.
Proof.
  induction fuel as [|fuel IH]; intros page s; cbn [USAOScraper.scrape_loop].
  - cbn. eapply saved_progressed, saved_refl.
  - pose proof (usao_iteration_progressed page s) as Hit.
    destruct (USAOScraper.iteration page s) as [[[|] page'] s'];
      cbn [fst snd] in *; [|exact Hit].
    eapply progressed_trans; [exact Hit | apply IH].
Qed.

End USAOFacts.

(** X5. A session of [USAOScraper.scrape_all_articles], run for any number
    of passes: the database grows by exactly the articles counted in
    [new_articles_found], a positive cap is respected, and the attribute
    [pages_without_new] never passes its threshold (10 for a new
    scraper). The attribute is never reset between sessions: once it has
    reached the threshold, every later session on the same scraper ends
    in its first pass, without a request and with the state unchanged. *)
Theorem usao_session_counts_pages_without_new
  `{Web} `{DateTime} `{BaseScraper.Methods} (s : BaseScraper.t) (fuel : nat) :
  let s' := (USAOScraper.scrape_all_articles fuel s).2 in
  length (DatabaseService.articles (BaseScraper.db s'))
  = length (DatabaseService.articles (BaseScraper.db s))
    + (BaseScraper.new_articles_found s' - BaseScraper.new_articles_found s) /\
  BaseScraper.new_articles_found s <= BaseScraper.new_articles_found s' /\
  (forall m, BaseScraper.max_articles s = Some m -> (0 < m)%Z ->
     (Z.of_nat (BaseScraper.new_articles_found s) <= m)%Z ->
     (Z.of_nat (BaseScraper.new_articles_found s') <= m)%Z) /\
  BaseScraper.pages_without_new s'
  <= Nat.max (BaseScraper.pages_without_new s)
       (BaseScraper.max_pages_without_new s) /\
  (BaseScraper.max_pages_without_new s <= BaseScraper.pages_without_new s' ->
   forall fuel',
     USAOScraper.scrape_all_articles (S fuel') s'
     = (BaseScraper.Break, 0, s')).
Proof.
  intros s'. subst s'. unfold USAOScraper.scrape_all_articles.
  destruct (usao_loop_progressed fuel 0 s) as (_ & _ & Hx & Hf & Hl & Hc & Hp).
  split; [exact Hl|]. split; [exact Hf|]. split; [exact Hc|].
  split; [exact Hp|].
  intros Hreached fuel'.
  set (s' := (USAOScraper.scrape_loop fuel 0 s).2) in *.
  cbn [USAOScraper.scrape_loop]. unfold USAOScraper.iteration.
  destruct (BaseScraper.cap_reached _); [reflexivity|].
  rewrite Hx.
  replace (BaseScraper.max_pages_without_new s <=? _) with true
    by (symmetry; apply Nat.leb_le; exact Hreached).
  reflexivity.
Qed.

(** A site whose pages always list the same unparsable article: the
    session ends after ten pages with the counter at 10, and a second
    session on the same scraper ends at once. *)
Lemma usao_session_counts_pages_without_new_witness :
  let s' := (@USAOScraper.scrape_all_articles Sample.steady_web Sample.dates
               Sample.stale_listing 20
               (USAOScraper.init Sample.empty_db None 1)).2 in
  BaseScraper.pages_without_new s' = 10 /\
  BaseScraper.requests s' = 10 /\
  @USAOScraper.scrape_all_articles Sample.steady_web Sample.dates
    Sample.stale_listing 1 s' = (BaseScraper.Break, 0, s').
Proof.
  intros s'.
  split; [vm_compute; reflexivity|]. split; [vm_compute; reflexivity|].
  destruct (@usao_session_counts_pages_without_new Sample.steady_web
              Sample.dates Sample.stale_listing
              (USAOScraper.init Sample.empty_db None 1) 20)
    as (_ & _ & _ & _ & Hstuck).
  apply Hstuck. vm_compute. repeat constructor.
Defined.

(** ** The processor: indexed chunks can be looked up *)

Section IndexLookup.
Context `{SentenceTransformer}.
Import DocumentProcessor.

(** The effect of [index_chunks] on the heap, the index and the [chunks]
    collection. *)
Lemma index_chunks_effect (s : t) (chunks : list ref) :
  (forall texts, length (encode texts) = length texts) ->
  NoDup chunks ->
  Forall (fun r => r < length (heap s)) chunks ->
  let t0 := ntotal s in
  let s' := index_chunks s chunks in
  ntotal s' = t0 + length chunks /\
  (forall i r, chunks !! i = Some r ->
     exists c,
       heap s !! r = Some c /\
       heap s' !! r = Some (Chunk.set_faiss_id c (Z.of_nat (t0 + i))) /\
       DatabaseService.chunks (db s')
         !! (length (DatabaseService.chunks (db s)) + i)
       = Some (Chunk.set_faiss_id c (Z.of_nat (t0 + i)))) /\
  (forall r, r ∉ chunks -> heap s' !! r = heap s !! r) /\
  omap (fun r => heap s' !! r ≫= Chunk.faiss_id) chunks
  = Z.of_nat <$> seq t0 (length chunks) /\
  NoDup (Z.of_nat <$> seq t0 (length chunks)).
Proof.
  intros Henc Hnd Hvalid t0 s'.
  destruct (decide (chunks = [])) as [->|Hne].
  { subst s' t0. simpl. rewrite Nat.add_0_r.
    repeat split; try reflexivity; try constructor.
    intros i r Hi. discriminate. }
  assert (Htexts : length (omap (fun r => Chunk.text <$> heap s !! r) chunks)
                   = length chunks).
  { apply omap_total_length. eapply Forall_impl; [exact Hvalid|].
    intros r Hr. cbv beta in Hr. apply lookup_lt_is_Some_2 in Hr as [c Hc].
    cbv beta. rewrite Hc. eexists; reflexivity. }
  assert (Hs' : heap s' = assign_ids (heap s)
                  (zip chunks (seq t0 (length chunks)))).
  { subst s'. rewrite index_chunks_nonempty by assumption. simpl.
    rewrite Henc, Htexts. reflexivity. }
  assert (Hper : forall i r, chunks !! i = Some r ->
            exists c, heap s !! r = Some c /\
              heap s' !! r = Some (Chunk.set_faiss_id c (Z.of_nat (t0 + i)))).
  { intros i r Hi.
    assert (Hr : r < length (heap s)).
    { rewrite Forall_forall in Hvalid. apply Hvalid.
      eapply list_elem_of_lookup_2, Hi. }
    apply lookup_lt_is_Some_2 in Hr as [c Hc]. exists c. split; [exact Hc|].
    rewrite Hs', (assign_ids_zip_lookup _ _ _ _ i) by (assumption || lia).
    rewrite Hc. reflexivity. }
  assert (Hsome : Forall (fun r => is_Some (heap s' !! r)) chunks).
  { apply Forall_forall. intros r Hr.
    apply list_elem_of_lookup_1 in Hr as [i Hi].
    destruct (Hper i r Hi) as (c & _ & Hc). rewrite Hc. eexists; reflexivity. }
  split.
  { subst s'. rewrite index_chunks_nonempty by assumption.
    unfold ntotal. simpl. rewrite length_app, Henc, Htexts. reflexivity. }
  split.
  { intros i r Hi. destruct (Hper i r Hi) as (c & Hc & Hc').
    exists c. split; [exact Hc|]. split; [exact Hc'|].
    assert (Hdb : DatabaseService.chunks (db s') =
                  DatabaseService.chunks (db s)
                  ++ omap (fun r => heap s' !! r) chunks).
    { rewrite <- insert_chunks_chunks. f_equal.
      subst s'. rewrite index_chunks_nonempty by assumption. reflexivity. }
    rewrite Hdb, lookup_app_r by lia.
    replace (length (DatabaseService.chunks (db s)) + i
             - length (DatabaseService.chunks (db s))) with i by lia.
    rewrite (omap_total_lookup _ _ i r) by assumption. exact Hc'. }
  split.
  { intros r Hr. rewrite Hs'. apply assign_ids_zip_other, Hr. }
  split; [|apply (NoDup_fmap_2 _), NoDup_seq].
  apply list_eq. intros i.
  destruct (chunks !! i) as [r|] eqn:Hi.
  - assert (Hlt : i < length chunks) by (eapply lookup_lt_Some, Hi).
    rewrite (omap_total_lookup _ _ i r); [| |exact Hi].
    + destruct (Hper i r Hi) as (c & _ & Hc). rewrite Hc. simpl.
      rewrite list_lookup_fmap, lookup_seq_lt by assumption. reflexivity.
    + apply Forall_forall. intros r' Hr'.
      apply list_elem_of_lookup_1 in Hr' as [i' Hi'].
      destruct (Hper i' r' Hi') as (c & _ & Hc). rewrite Hc. simpl.
      eexists; reflexivity.
  - apply lookup_ge_None in Hi.
    rewrite (lookup_ge_None_2 (omap _ _)).
    + symmetry. apply lookup_ge_None_2.
      rewrite length_fmap, length_seq. exact Hi.
    + rewrite omap_total_length; [exact Hi|].
      apply Forall_forall. intros r' Hr'.
      apply list_elem_of_lookup_1 in Hr' as [i' Hi'].
      destruct (Hper i' r' Hi') as (c & _ & Hc). rewrite Hc. simpl.
      eexists; reflexivity.
Qed.


Lemma find_one_skip {A} (p : A -> bool) (l1 l2 : list A) :
  Forall (fun x => p x = false) l1 ->
  DatabaseService.find_one p (l1 ++ l2) = DatabaseService.find_one p l2.
Proof.
  induction 1 as [|x l1 Hx _ IH]; [reflexivity|].
  cbn [app DatabaseService.find_one]. rewrite Hx. exact IH.
Qed.

Lemma find_one_at {A} (p : A -> bool) (l : list A) i x :
  l !! i = Some x -> p x = true ->
  (forall j y, j < i -> l !! j = Some y -> p y = false) ->
  DatabaseService.find_one p l = Some x.
Proof.
  revert i. induction l as [|y l IH]; intros i Hi Hx Hbefore; [discriminate|].
  cbn [DatabaseService.find_one]. destruct i as [|i]; cbn in Hi.
  - injection Hi as ->. rewrite Hx. reflexivity.
  - rewrite (Hbefore 0 y) by (lia || reflexivity).
    apply (IH i Hi Hx). intros j z Hj Hz. apply (Hbefore (S j) z); [lia | exact Hz].
Qed.

End IndexLookup.

Section IndexRoundTrip.
Context `{SentenceTransformer}.
Import DocumentProcessor.

Lemma find_one_app {A} (p : A -> bool) (l1 l2 : list A) :
  DatabaseService.find_one p (l1 ++ l2) =
  match DatabaseService.find_one p l1 with
  | Some x => Some x
  | None => DatabaseService.find_one p l2
  end.
Proof.
  induction l1 as [|x l1 IH]; [reflexivity|].
  cbn [app DatabaseService.find_one]. destruct (p x); [reflexivity | exact IH].
Qed.

Lemma find_one_none {A} (p : A -> bool) (l : list A) :
  Forall (fun x => p x = false) l -> DatabaseService.find_one p l = None.
Proof.
  induction 1 as [|x l Hx _ IH]; [reflexivity|].
  cbn [DatabaseService.find_one]. rewrite Hx. exact IH.
Qed.

(** What [index_chunks] appends to the [chunks] collection: one document
    per object of the batch, the one at position [i] with the FAISS id
    [ntotal + i]. *)
Lemma index_chunks_stored (s : t) (chunks : list ref) :
  (forall texts, length (encode texts) = length texts) ->
  NoDup chunks ->
  Forall (fun r => r < length (heap s)) chunks ->
  exists stored,
    DatabaseService.chunks (db (index_chunks s chunks))
    = DatabaseService.chunks (db s) ++ stored /\
    length stored = length chunks /\
    ntotal (index_chunks s chunks) = ntotal s + length chunks /\
    forall i r, chunks !! i = Some r ->
      exists c, stored !! i = Some c /\
                heap (index_chunks s chunks) !! r = Some c /\
                Chunk.faiss_id c = Some (Z.of_nat (ntotal s + i)).
Proof.
  intros Henc Hnd Hvalid.
  destruct (index_chunks_effect s chunks Henc Hnd Hvalid)
    as (Hn & Hper & _).
  destruct (decide (chunks = [])) as [->|Hne].
  { exists []. cbn. rewrite app_nil_r, Nat.add_0_r.
    repeat split; try reflexivity. intros i r Hi. discriminate. }
  set (s' := index_chunks s chunks) in *.
  assert (Hsome : Forall (fun r => is_Some (heap s' !! r)) chunks).
  { apply Forall_forall. intros r Hr.
    apply list_elem_of_lookup_1 in Hr as [i Hi].
    destruct (Hper i r Hi) as (c & _ & Hc & _). rewrite Hc.
    eexists; reflexivity. }
  exists (omap (fun r => heap s' !! r) chunks).
  split.
  { rewrite <- insert_chunks_chunks. f_equal.
    subst s'. rewrite index_chunks_nonempty by assumption. reflexivity. }
  split; [apply omap_total_length, Hsome|].
  split; [exact Hn|].
  intros i r Hi. destruct (Hper i r Hi) as (c & _ & Hc & _).
  exists (Chunk.set_faiss_id c (Z.of_nat (ntotal s + i))).
  split; [|split; [exact Hc | reflexivity]].
  rewrite (omap_total_lookup _ _ i r) by assumption. exact Hc.
Qed.

(** X6. Indexing a batch of distinct chunks keeps the two stores aligned
    and makes the batch retrievable: if every stored FAISS id was below
    the size of the index, it still is afterwards; the chunk at position
    [i] of the batch is what [get_chunk_by_faiss_id] returns for the id
    [ntotal + i]; and the lookups of the older ids return what they
    returned before. *)
Theorem index_chunks_then_lookup (s : t) (chunks : list ref) :
  (forall texts, length (encode texts) = length texts) ->
  NoDup chunks ->
  Forall (fun r => r < length (heap s)) chunks ->
  stored_ids_below (db s) (ntotal s) ->
  let s' := index_chunks s chunks in
  stored_ids_below (db s') (ntotal s') /\
  (forall i r, chunks !! i = Some r ->
     exists c,
       heap s' !! r = Some c /\
       DatabaseService.get_chunk_by_faiss_id (db s')
         (Z.of_nat (ntotal s + i)) = Some c) /\
  (forall f, (f < Z.of_nat (ntotal s))%Z ->
     DatabaseService.get_chunk_by_faiss_id (db s') f
     = DatabaseService.get_chunk_by_faiss_id (db s) f).
Proof.
  intros Henc Hnd Hvalid Hold s'.
  destruct (index_chunks_stored s chunks Henc Hnd Hvalid)
    as (stored & Hdb & Hlen & Hn & Hat).
  fold s' in Hdb, Hn, Hat.
  assert (Hnew : forall j y, stored !! j = Some y ->
            Chunk.faiss_id y = Some (Z.of_nat (ntotal s + j))).
  { intros j y Hj.
    assert (Hlt : j < length chunks)
      by (rewrite <- Hlen; eapply lookup_lt_Some, Hj).
    apply lookup_lt_is_Some_2 in Hlt as [r Hr].
    destruct (Hat j r Hr) as (c & Hc & _ & Hf). congruence. }
  unfold stored_ids_below in *. unfold DatabaseService.get_chunk_by_faiss_id.
  rewrite Hdb, Hn. split; [|split].
  - apply Forall_app. split.
    + eapply Forall_impl; [exact Hold|]. intros c Hc f Hf.
      specialize (Hc f Hf). lia.
    + apply Forall_forall. intros y Hy.
      apply list_elem_of_lookup_1 in Hy as [j Hj].
      intros f Hf. rewrite (Hnew j y Hj) in Hf. injection Hf as <-.
      assert (j < length stored) by (eapply lookup_lt_Some, Hj). lia.
  - intros i r Hi. destruct (Hat i r Hi) as (c & Hc & Hheap & Hf).
    exists c. split; [exact Hheap|].
    rewrite find_one_skip.
    + apply (find_one_at _ _ i); [exact Hc | |].
      * rewrite Hf. apply Z.eqb_refl.
      * intros j y Hj Hy. rewrite (Hnew j y Hy). apply Z.eqb_neq. lia.
    + eapply Forall_impl; [exact Hold|]. intros c0 Hc0. cbv beta in *.
      destruct (Chunk.faiss_id c0) as [g|] eqn:Hg; [|reflexivity].
      specialize (Hc0 g eq_refl). apply Z.eqb_neq. lia.
  - intros f Hf. rewrite find_one_app.
    rewrite (find_one_none _ stored); [destruct (DatabaseService.find_one _ _); reflexivity|].
    apply Forall_forall. intros y Hy.
    apply list_elem_of_lookup_1 in Hy as [j Hj].
    rewrite (Hnew j y Hj). apply Z.eqb_neq. lia.
Qed.

End IndexRoundTrip.

Lemma index_chunks_then_lookup_witness :
  (forall texts, length (@encode Sample.model texts) = length texts) /\
  NoDup [0; 1; 2; 3; 4] /\
  Forall (fun r => r < length (DocumentProcessor.heap Sample.processor))
    [0; 1; 2; 3; 4] /\
  stored_ids_below (DocumentProcessor.db Sample.processor)
    (DocumentProcessor.ntotal Sample.processor) /\
  exists c,
    DocumentProcessor.heap
      (DocumentProcessor.index_chunks Sample.processor [0; 1; 2; 3; 4]) !! 2
    = Some c /\
    DatabaseService.get_chunk_by_faiss_id
      (DocumentProcessor.db
         (DocumentProcessor.index_chunks Sample.processor [0; 1; 2; 3; 4]))
      12%Z = Some c.
Proof.
  assert (Henc : forall texts, length (@encode Sample.model texts) = length texts)
    by (intros texts; apply List.length_map).
  assert (Hnd : NoDup [0; 1; 2; 3; 4]) by apply (NoDup_seq 0 5).
  assert (Hvalid : Forall
            (fun r => r < length (DocumentProcessor.heap Sample.processor))
            [0; 1; 2; 3; 4])
    by (repeat constructor).
  assert (Hold : stored_ids_below (DocumentProcessor.db Sample.processor)
                   (DocumentProcessor.ntotal Sample.processor))
    by constructor.
  split; [exact Henc|]. split; [exact Hnd|]. split; [exact Hvalid|].
  split; [exact Hold|].
  destruct (index_chunks_then_lookup Sample.processor [0; 1; 2; 3; 4]
              Henc Hnd Hvalid Hold) as (_ & Hat & _).
  exact (Hat 2 2 eq_refl).
Defined.

(** ** The processor: batches of unprocessed articles *)

Section Batches.
Context `{SentenceTransformer}.
Import DocumentProcessor.

Lemma update_first_unique (i : ObjectId) (l : list Article.t) :
  NoDup (Article.id <$> l) ->
  default l (DatabaseService.update_first (DatabaseService.oid_is i)
               (fun a => Article.set_processed a true) l)
  = (fun a => if DatabaseService.oid_is i a
              then Article.set_processed a true else a) <$> l.
Proof.
  induction l as [|x r IH]; intros Hnd; [reflexivity|].
  cbn [fmap list_fmap] in Hnd. apply NoDup_cons in Hnd as [Hx Hnd].
  cbn [DatabaseService.update_first fmap list_fmap].
  destruct (DatabaseService.oid_is i x) eqn:Hi.
  - cbn [from_option id]. f_equal.
    transitivity (id <$> r); [symmetry; apply list_fmap_id|].
    apply list_fmap_ext. intros j y Hy.
    apply list_elem_of_lookup_2 in Hy.
    destruct (DatabaseService.oid_is i y) eqn:Hiy; [|reflexivity].
    exfalso. apply Hx. apply list_elem_of_fmap. exists y. split; [|exact Hy].
    unfold DatabaseService.oid_is in *.
    apply Nat.eqb_eq in Hi, Hiy. congruence.
  - specialize (IH Hnd).
    destruct (DatabaseService.update_first _ _ r) as [r'|];
      cbn [from_option id] in *; f_equal; exact IH.
Qed.

Lemma mark_articles_unique d i :
  NoDup (Article.id <$> DatabaseService.articles d) ->
  DatabaseService.articles (DatabaseService.mark_article_processed d i)
  = (fun a => if DatabaseService.oid_is i a
              then Article.set_processed a true else a)
    <$> DatabaseService.articles d.
Proof.
  intros Hnd. rewrite <- (update_first_unique i _ Hnd).
  unfold DatabaseService.mark_article_processed.
  destruct (DatabaseService.update_first _ _ _); reflexivity.
Qed.

Lemma mark_ids d i :
  NoDup (Article.id <$> DatabaseService.articles d) ->
  Article.id <$> DatabaseService.articles
                   (DatabaseService.mark_article_processed d i)
  = Article.id <$> DatabaseService.articles d.
Proof.
  intros Hnd. rewrite mark_articles_unique by assumption.
  rewrite <- list_fmap_compose. apply list_fmap_ext. intros _ a _. cbn.
  destruct (DatabaseService.oid_is i a); reflexivity.
Qed.

Lemma mark_unprocessed d i :
  NoDup (Article.id <$> DatabaseService.articles d) ->
  List.filter DatabaseService.unprocessed
    (DatabaseService.articles (DatabaseService.mark_article_processed d i))
  = List.filter (fun a => DatabaseService.unprocessed a
                          && negb (DatabaseService.oid_is i a))
      (DatabaseService.articles d).
Proof.
  intros Hnd. rewrite mark_articles_unique by assumption. clear Hnd.
  induction (DatabaseService.articles d) as [|x r IH]; [reflexivity|].
  cbn [fmap list_fmap List.filter].
  change (list_fmap _ _ ?f r) with (f <$> r). rewrite IH.
  destruct (DatabaseService.oid_is i x); cbn [negb].
  - change (DatabaseService.unprocessed (Article.set_processed x true))
      with false.
    rewrite andb_false_r. reflexivity.
  - rewrite andb_true_r. reflexivity.
Qed.

Lemma mark_all_unprocessed (arts : list Article.t) : forall d,
  NoDup (Article.id <$> DatabaseService.articles d) ->
  List.filter DatabaseService.unprocessed
    (DatabaseService.articles (mark_all d arts))
  = List.filter
      (fun a => DatabaseService.unprocessed a
                && negb (existsb (fun b => Article.id a =? Article.id b) arts))
      (DatabaseService.articles d).
Proof.
  unfold mark_all.
  induction arts as [|b arts IH]; intros d Hnd; cbn [fold_left existsb].
  - apply List.filter_ext. intros a. cbn. rewrite andb_true_r. reflexivity.
  - rewrite IH by (rewrite mark_ids; assumption).
    rewrite mark_articles_unique by assumption. clear Hnd IH.
    induction (DatabaseService.articles d) as [|x r IHr]; [reflexivity|].
    cbn [fmap list_fmap List.filter].
    change (list_fmap _ _ ?f r) with (f <$> r). rewrite IHr.
    unfold DatabaseService.oid_is. cbv beta.
    destruct (Article.id x =? Article.id b) eqn:Hxb; cbv iota; cbn [orb negb].
    + change (DatabaseService.unprocessed (Article.set_processed x true))
        with false.
      rewrite andb_false_r. reflexivity.
    + reflexivity.
Qed.

Lemma process_loop_db (arts : list Article.t) : forall (s : t) acc chunks s',
  process_loop s arts acc = Some (chunks, s') ->
  db s' = mark_all (db s) arts.
Proof.
  induction arts as [|article rest IH]; intros s acc chunks s' Hrun.
  - injection Hrun as _ <-. reflexivity.
  - cbn [process_loop] in Hrun.
    destruct (_create_chunks (Article.content article)) as [cs|];
      [|discriminate].
    rewrite new_chunks_spec in Hrun.
    apply IH in Hrun. rewrite Hrun. reflexivity.
Qed.

Lemma filter_all_false {A} (f : A -> bool) (l : list A) :
  (forall a, In a l -> f a = false) -> List.filter f l = [].
Proof.
  induction l as [|x l IH]; intros Hall; [reflexivity|].
  cbn [List.filter]. rewrite (Hall x) by (left; reflexivity).
  apply IH. intros a Ha. apply Hall. right. exact Ha.
Qed.

Lemma filter_all_true {A} (f : A -> bool) (l : list A) :
  (forall a, In a l -> f a = true) -> List.filter f l = l.
Proof.
  induction l as [|x l IH]; intros Hall; [reflexivity|].
  cbn [List.filter]. rewrite (Hall x) by (left; reflexivity).
  f_equal. apply IH. intros a Ha. apply Hall. right. exact Ha.
Qed.

(** In a list without repeated keys, dropping the elements whose key is
    among the keys of a prefix drops that prefix. *)
Lemma filter_not_in_prefix (pre post : list Article.t) :
  NoDup (Article.id <$> (pre ++ post)) ->
  List.filter
    (fun a => negb (existsb (fun b => Article.id a =? Article.id b) pre))
    (pre ++ post)
  = post.
Proof.
  intros Hnd. rewrite fmap_app in Hnd.
  apply NoDup_app in Hnd as (_ & Hdisj & _).
  rewrite List.filter_app.
  assert (Hpre : List.filter
            (fun a => negb (existsb (fun b => Article.id a =? Article.id b) pre))
            pre = []).
  { apply filter_all_false. intros a Ha. apply negb_false_iff.
    apply existsb_exists. exists a. split; [exact Ha | apply Nat.eqb_refl]. }
  assert (Hpost : List.filter
            (fun a => negb (existsb (fun b => Article.id a =? Article.id b) pre))
            post = post).
  { apply filter_all_true. intros a Ha.
    apply negb_true_iff. apply not_true_iff_false. intros Hex.
    apply existsb_exists in Hex as (b & Hb & Hab). apply Nat.eqb_eq in Hab.
    apply (Hdisj (Article.id b)).
    - apply list_elem_of_fmap. exists b. split; [reflexivity|].
      apply list_elem_of_In, Hb.
    - apply list_elem_of_fmap. exists a. split; [congruence|].
      apply list_elem_of_In, Ha. }
  rewrite Hpre, Hpost. reflexivity.
Qed.

End Batches.

Section BatchWalk.
Context `{SentenceTransformer}.
Import DocumentProcessor.

Lemma NoDup_fmap_filter {A B} (f : A -> B) (p : A -> bool) (l : list A) :
  NoDup (f <$> l) -> NoDup (f <$> List.filter p l).
Proof.
  induction l as [|x l IH]; intros Hnd; [constructor|].
  cbn [fmap list_fmap] in Hnd. apply NoDup_cons in Hnd as [Hx Hnd].
  cbn [List.filter]. destruct (p x); [|apply IH, Hnd].
  cbn [fmap list_fmap]. apply NoDup_cons. split; [|apply IH, Hnd].
  intros Hin. apply Hx. apply list_elem_of_fmap in Hin as (y & Hy & Hin).
  apply list_elem_of_fmap. exists y. split; [exact Hy|].
  apply list_elem_of_In. apply list_elem_of_In, List.filter_In in Hin.
  apply Hin.
Qed.

Lemma filter_andb {A} (f g : A -> bool) (l : list A) :
  List.filter (fun a => f a && g a) l = List.filter g (List.filter f l).
Proof.
  induction l as [|x l IH]; [reflexivity|].
  cbn [List.filter]. destruct (f x); cbn [andb List.filter];
    [destruct (g x)|]; rewrite IH; reflexivity.
Qed.

Lemma mark_all_ids (arts : list Article.t) : forall d,
  NoDup (Article.id <$> DatabaseService.articles d) ->
  Article.id <$> DatabaseService.articles (mark_all d arts)
  = Article.id <$> DatabaseService.articles d.
Proof.
  unfold mark_all.
  induction arts as [|b arts IH]; intros d Hnd; [reflexivity|].
  cbn [fold_left]. rewrite IH by (rewrite mark_ids; assumption).
  apply mark_ids, Hnd.
Qed.

(** X7. With article identifiers that are unique, a call of
    [process_articles] without identifiers processes the first 100
    unprocessed articles and leaves exactly the others unprocessed, in
    their order: a later call continues with the next batch and never
    selects an article twice. When at most 100 articles were unprocessed,
    the next call selects nothing, returns no chunk and changes
    nothing. *)
Theorem process_articles_walks_batches (s : t) :
  NoDup (Article.id <$> DatabaseService.articles (db s)) ->
  let pending :=
    List.filter DatabaseService.unprocessed (DatabaseService.articles (db s)) in
  exists chunks s1,
    process_articles s None = Some (chunks, s1) /\
    NoDup (Article.id <$> DatabaseService.articles (db s1)) /\
    List.filter DatabaseService.unprocessed (DatabaseService.articles (db s1))
    = drop 100 pending /\
    (forall n, DatabaseService.get_unprocessed_articles (db s1) n
               = take n (drop 100 pending)) /\
    (length pending <= 100 -> process_articles s1 None = Some ([], s1)).
Proof.
  intros Hnd pending.
  assert (Hsel : select_articles s None = take 100 pending) by reflexivity.
  destruct (process_loop_spec (select_articles s None) s [])
    as (added & s1 & Hrun & _).
  { intros a Ha. eapply select_articles_known, Ha. }
  pose proof (process_loop_db _ _ _ _ _ Hrun) as Hdb.
  eexists _, s1. split; [exact Hrun|].
  assert (Hnd1 : NoDup (Article.id <$> DatabaseService.articles (db s1))).
  { rewrite Hdb, mark_all_ids; assumption. }
  assert (Hleft : List.filter DatabaseService.unprocessed
                    (DatabaseService.articles (db s1)) = drop 100 pending).
  { rewrite Hdb, mark_all_unprocessed by assumption.
    rewrite filter_andb. fold pending. rewrite Hsel.
    pose proof (filter_not_in_prefix (take 100 pending) (drop 100 pending))
      as Hpre.
    rewrite take_drop in Hpre. apply Hpre.
    apply NoDup_fmap_filter, Hnd. }
  split; [exact Hnd1|]. split; [exact Hleft|]. split.
  - intros n. unfold DatabaseService.get_unprocessed_articles.
    rewrite Hleft. reflexivity.
  - intros Hle. unfold process_articles, select_articles.
    cbn [Py.truthy_list].
    unfold DatabaseService.get_unprocessed_articles. rewrite Hleft.
    rewrite drop_ge by exact Hle. reflexivity.
Qed.

End BatchWalk.

Lemma process_articles_walks_batches_witness :
  let s := @DocumentProcessor.mk Sample.model Sample.library_db [] None [] 20 in
  NoDup (Article.id <$> DatabaseService.articles (DocumentProcessor.db s)) /\
  exists chunks s1,
    @DocumentProcessor.process_articles Sample.model s None
    = Some (chunks, s1) /\
    @DocumentProcessor.process_articles Sample.model s1 None = Some ([], s1).
Proof.
  intros s.
  assert (Hnd : NoDup (Article.id <$>
                       DatabaseService.articles (DocumentProcessor.db s))).
  { apply NoDup_cons. split; [|apply NoDup_singleton].
    intros Hin. apply list_elem_of_singleton in Hin. discriminate. }
  split; [exact Hnd|].
  destruct (@process_articles_walks_batches Sample.model s Hnd)
    as (chunks & s1 & Hrun & _ & _ & _ & Hnext).
  exists chunks, s1. split; [exact Hrun|].
  apply Hnext. cbn. lia.
Defined.
(** * More properties of the processor *)

(** ** Explicit article identifiers *)

Section ExplicitIds.
Context `{SentenceTransformer}.
Import DocumentProcessor.

Lemma process_loop_exact (arts : list Article.t) : forall (s : t) acc,
  process_loop s arts acc =
  Some (acc ++ seq (length (heap s)) (length (chunk_objects (next_oid s) arts)),
        mk _ (mark_all (db s) arts) (faiss_index s) (index_file s)
           (heap s ++ chunk_objects (next_oid s) arts)
           (next_oid s + length (chunk_objects (next_oid s) arts))).
Proof.
  induction arts as [|a rest IH]; intros s acc.
  - cbn. rewrite !app_nil_r, Nat.add_0_r. destruct s; reflexivity.
  - cbn [process_loop chunk_objects].
    destruct (create_chunks_total (Article.content a)) as [cs Hcs].
    rewrite Hcs, new_chunks_spec. cbn [from_option id].
    rewrite IH. cbn [with_db heap next_oid db faiss_index index_file].
    rewrite !length_app, length_imap, seq_app, <- !app_assoc.
    f_equal. f_equal. f_equal. lia.
Qed.

Lemma get_article_mark_all (arts : list Article.t) : forall d i,
  read_of <$> DatabaseService.get_article (mark_all d arts) i
  = read_of <$> DatabaseService.get_article d i.
Proof.
  unfold mark_all.
  induction arts as [|b arts IH]; intros d i; [reflexivity|].
  cbn [fold_left]. rewrite IH, get_article_mark.
  destruct (DatabaseService.get_article d i) as [a|]; [|reflexivity].
  cbn. destruct (i =? Article.id b); reflexivity.
Qed.

Lemma omap_read_of (d d' : DatabaseService.t) (ids : list ObjectId) :
  (forall i, read_of <$> DatabaseService.get_article d' i
             = read_of <$> DatabaseService.get_article d i) ->
  read_of <$> omap (DatabaseService.get_article d') ids
  = read_of <$> omap (DatabaseService.get_article d) ids.
Proof.
  intros Hsame. induction ids as [|i ids IH]; [reflexivity|].
  cbn [omap list_omap]. fold (@omap list _ _ _ (DatabaseService.get_article d') ids).
  fold (@omap list _ _ _ (DatabaseService.get_article d) ids).
  specialize (Hsame i).
  destruct (DatabaseService.get_article d' i),
           (DatabaseService.get_article d i); cbn in Hsame; try discriminate.
  - cbn [fmap list_fmap]. f_equal; [congruence | exact IH].
  - exact IH.
Qed.

Lemma chunk_objects_body (arts : list Article.t) : forall arts' oid oid',
  read_of <$> arts = read_of <$> arts' ->
  body_of <$> chunk_objects oid arts = body_of <$> chunk_objects oid' arts'.
Proof.
  induction arts as [|a arts IH]; intros [|a' arts'] oid oid' Hsame;
    try discriminate; [reflexivity|].
  rewrite !fmap_cons in Hsame. injection Hsame as Hid Hcontent Hrest.
  cbn [chunk_objects]. rewrite Hcontent, Hid, !fmap_app.
  f_equal; [|apply IH, Hrest].
  rewrite !fmap_imap. apply imap_ext. reflexivity.
Qed.

Lemma chunk_objects_unindexed (arts : list Article.t) : forall oid c,
  c ∈ chunk_objects oid arts -> Chunk.faiss_id c = None.
Proof.
  induction arts as [|a arts IH]; intros oid c Hc; [inversion Hc|].
  cbn [chunk_objects] in Hc. apply elem_of_app in Hc as [Hc|Hc].
  - apply elem_of_lookup_imap_1 in Hc as (k & x & -> & _). reflexivity.
  - eapply IH, Hc.
Qed.

Lemma chunk_objects_ids (arts : list Article.t) : forall oid k c,
  chunk_objects oid arts !! k = Some c -> Chunk.id c = oid + k.
Proof.
  induction arts as [|a arts IH]; intros oid k c Hc; [discriminate|].
  cbn [chunk_objects] in Hc.
  apply lookup_app_Some in Hc as [Hc|[Hlen Hc]].
  - apply list_lookup_imap_Some in Hc as (x & _ & ->). reflexivity.
  - rewrite length_imap in Hlen, Hc. apply IH in Hc. lia.
Qed.

(** X8. [process_articles] called with a non-empty list of identifiers
    does not look at the processed flag. It always returns; the
    identifiers that the database does not know are skipped, and when
    none is known nothing changes. Every known article of the list is
    marked as processed, and all the same a second call with the same
    list builds the chunks again: as many new [Chunk] objects, with new
    identifiers, the same texts, ordinals and owners, and no FAISS id. *)
Theorem process_articles_ids_ignore_processed (s : t) (ids : list ObjectId) :
  ids <> [] ->
  exists refs s1 refs' s2,
    process_articles s (Some ids) = Some (refs, s1) /\
    process_articles s1 (Some ids) = Some (refs', s2) /\
    ((forall i, i ∈ ids -> DatabaseService.get_article (db s) i = None) ->
     refs = [] /\ s1 = s) /\
    (forall i, i ∈ ids -> DatabaseService.known (db s) i ->
               DatabaseService.marked (db s1) i) /\
    length refs' = length refs /\
    (forall r, r ∈ refs -> r ∉ refs') /\
    (forall k r r', refs !! k = Some r -> refs' !! k = Some r' ->
       exists c c',
         heap s2 !! r = Some c /\ heap s2 !! r' = Some c' /\
         Chunk.id c' <> Chunk.id c /\
         Chunk.text c' = Chunk.text c /\
         Chunk.chunk_index c' = Chunk.chunk_index c /\
         Chunk.article_id c' = Chunk.article_id c /\
         Chunk.faiss_id c = None /\ Chunk.faiss_id c' = None).
Proof.
  intros Hne.
  assert (Htruthy : Py.truthy_list (Some ids) = true)
    by (destruct ids; [contradiction | reflexivity]).
  assert (Hrun : forall s0 : t,
            process_articles s0 (Some ids)
            = process_loop s0 (omap (DatabaseService.get_article (db s0)) ids) []).
  { intros s0. unfold process_articles, select_articles. rewrite Htruthy.
    reflexivity. }
  set (arts := omap (DatabaseService.get_article (db s)) ids).
  set (made := chunk_objects (next_oid s) arts).
  set (s1 := mk _ (mark_all (db s) arts) (faiss_index s) (index_file s)
               (heap s ++ made) (next_oid s + length made)).
  set (arts' := omap (DatabaseService.get_article (db s1)) ids).
  set (made' := chunk_objects (next_oid s1) arts').
  set (s2 := mk _ (mark_all (db s1) arts') (faiss_index s1) (index_file s1)
               (heap s1 ++ made') (next_oid s1 + length made')).
  assert (Hread : read_of <$> arts' = read_of <$> arts).
  { apply omap_read_of. intros i. apply get_article_mark_all. }
  assert (Hbody : body_of <$> made' = body_of <$> made)
    by (apply chunk_objects_body, Hread).
  assert (Hlen : length made' = length made).
  { rewrite <- (length_fmap body_of made'), Hbody. apply length_fmap. }
  exists (seq (length (heap s)) (length made)), s1,
         (seq (length (heap s1)) (length made')), s2.
  assert (Hh1 : length (heap s1) = length (heap s) + length made)
    by (subst s1; cbn [heap]; apply length_app).
  split; [rewrite Hrun; apply (process_loop_exact arts s [])|].
  split; [rewrite Hrun; apply (process_loop_exact arts' s1 [])|].
  split.
  { intros Hnone.
    assert (Harts : arts = []).
    { subst arts. clear -Hnone. induction ids as [|i ids IH]; [reflexivity|].
      cbn [omap list_omap]. rewrite (Hnone i) by (apply elem_of_cons; auto).
      apply IH. intros j Hj. apply Hnone. apply elem_of_cons. auto. }
    subst made s1 arts'. rewrite Harts. cbn [chunk_objects length seq mark_all fold_left].
    rewrite app_nil_r, Nat.add_0_r. split; [reflexivity|].
    destruct s; reflexivity. }
  split.
  { intros i Hi [a Ha].
    destruct (process_loop_spec arts s []) as (added & s' & Hrun1 & _ & _ & _ & _ & _ & _ & Hdone).
    { intros b Hb. eapply (select_articles_known s (Some ids)).
      unfold select_articles. rewrite Htruthy. exact Hb. }
    rewrite (process_loop_exact arts s []) in Hrun1.
    injection Hrun1 as _ Hs'.
    assert (Hin : a ∈ arts).
    { apply list_elem_of_omap. exists i. split; assumption. }
    apply find_one_Some in Ha as [_ Hid].
    unfold DatabaseService.oid_is in Hid. apply Nat.eqb_eq in Hid.
    specialize (Hdone a Hin). rewrite Hid, <- Hs' in Hdone. exact Hdone. }
  split; [rewrite !length_seq; exact Hlen|].
  split.
  { intros r Hr Hr'. apply elem_of_seq in Hr, Hr'. lia. }
  intros k r r' Hk Hk'.
  apply lookup_seq in Hk as [-> Hk], Hk' as [-> Hk'].
  destruct (lookup_lt_is_Some_2 made k Hk) as [c Hc].
  destruct (lookup_lt_is_Some_2 made' k Hk') as [c' Hc'].
  exists c, c'.
  assert (Hs2 : heap s2 = heap s ++ made ++ made')
    by (subst s2 s1; cbn [heap]; rewrite <- app_assoc; reflexivity).
  split.
  { rewrite Hs2, lookup_app_r by lia.
    replace (length (heap s) + k - length (heap s)) with k by lia.
    rewrite lookup_app_l by lia. exact Hc. }
  split.
  { rewrite Hs2, Hh1, lookup_app_r by lia.
    replace (length (heap s) + length made + k - length (heap s))
      with (length made + k) by lia.
    rewrite lookup_app_r by lia.
    replace (length made + k - length made) with k by lia. exact Hc'. }
  assert (Hb : body_of c' = body_of c).
  { assert (Hk1 : (body_of <$> made') !! k = Some (body_of c'))
      by (rewrite list_lookup_fmap, Hc'; reflexivity).
    rewrite Hbody, list_lookup_fmap, Hc in Hk1. cbn in Hk1. congruence. }
  unfold body_of in Hb. injection Hb as Htext Hindex Hart Hfaiss.
  split.
  { apply chunk_objects_ids in Hc, Hc'.
    rewrite Hc, Hc'. subst s1. cbn [next_oid]. fold made. lia. }
  split; [exact Htext|]. split; [exact Hindex|]. split; [exact Hart|].
  assert (Hnone : Chunk.faiss_id c = None).
  { eapply chunk_objects_unindexed, list_elem_of_lookup_2, Hc. }
  split; [exact Hnone | congruence].
Qed.

End ExplicitIds.

Lemma process_articles_ids_ignore_processed_witness :
  let s := @DocumentProcessor.mk Sample.model Sample.library_db [] None [] 20 in
  [1; 7] <> [] /\
  exists refs s1 refs' s2,
    @DocumentProcessor.process_articles Sample.model s (Some [1; 7])
    = Some (refs, s1) /\
    @DocumentProcessor.process_articles Sample.model s1 (Some [1; 7])
    = Some (refs', s2) /\
    DatabaseService.marked (DocumentProcessor.db s1) 1 /\
    length refs' = length refs.
Proof.
  intros s.
  assert (Hne : [1; 7] <> []) by discriminate.
  split; [exact Hne|].
  destruct (@process_articles_ids_ignore_processed Sample.model s [1; 7] Hne)
    as (refs & s1 & refs' & s2 & Hrun & Hrun' & _ & Hmark & Hlen & _).
  exists refs, s1, refs', s2.
  split; [exact Hrun|]. split; [exact Hrun'|]. split; [|exact Hlen].
  apply Hmark; [apply elem_of_cons; auto|].
  eexists. reflexivity.
Defined.

(** ** From an article to its stored chunks *)

Section Pipeline.
Context `{SentenceTransformer}.
Import DocumentProcessor.

Lemma index_chunks_articles (s : t) (chunks : list ref) :
  DatabaseService.articles (db (index_chunks s chunks))
  = DatabaseService.articles (db s).
Proof.
  destruct chunks as [|r chunks]; [reflexivity|].
  cbn [index_chunks db]. unfold DatabaseService.insert_chunks.
  destruct (omap _ _); reflexivity.
Qed.

Lemma filter_article_id_all (i : ObjectId) (l : list Chunk.t) :
  Forall (fun c => Chunk.article_id c = i) l ->
  List.filter (fun c => Chunk.article_id c =? i) l = l.
Proof.
  induction 1 as [|c l Hc _ IH]; [reflexivity|].
  cbn [List.filter]. rewrite Hc, Nat.eqb_refl, IH. reflexivity.
Qed.

(** X9. Processing one stored article by its identifier and indexing the
    chunks that come back stores exactly the windows of its content: the
    chunks the database then returns for the article are, in order, one
    document per window, with the window's text and ordinal, the
    article's identifier and the FAISS ids [ntotal], [ntotal + 1], ...;
    the index has grown by the number of windows and the article is
    marked as processed. *)
Theorem processed_article_chunks_are_stored (s : t) (i : ObjectId)
  (a : Article.t) (cs : list chunk_dict) :
  (forall texts, length (encode texts) = length texts) ->
  DatabaseService.get_article (db s) i = Some a ->
  DatabaseService.get_chunks_by_article (db s) i = [] ->
  _create_chunks (Article.content a) = Some cs ->
  exists refs s1,
    process_articles s (Some [i]) = Some (refs, s1) /\
    DatabaseService.get_chunks_by_article (db (index_chunks s1 refs)) i
    = imap (fun k c => Chunk.mk (next_oid s + k) (text c) (index c) i
                         (Some (Z.of_nat (ntotal s + k)))) cs /\
    ntotal (index_chunks s1 refs) = ntotal s + length cs /\
    DatabaseService.marked (db (index_chunks s1 refs)) i.
Proof.
  intros Henc Ha Hnone Hcs.
  assert (Hid : Article.id a = i).
  { apply find_one_Some in Ha as [_ Hid].
    unfold DatabaseService.oid_is in Hid. apply Nat.eqb_eq, Hid. }
  unfold process_articles, select_articles.
  cbn [Py.truthy_list from_option id omap list_omap]. rewrite Ha.
  rewrite (process_loop_exact [a] s []).
  cbn [chunk_objects app]. rewrite Hcs. cbn [from_option id].
  rewrite app_nil_r, Hid.
  set (made := imap _ cs).
  set (s1 := mk _ _ _ _ _ _).
  set (refs := seq (length (heap s)) (length made)).
  exists refs, s1. split; [reflexivity|].
  assert (Hmade : length made = length cs) by apply length_imap.
  assert (Hnd : NoDup refs) by apply NoDup_seq.
  assert (Hvalid : Forall (fun r => r < length (heap s1)) refs).
  { apply Forall_forall. intros r Hr. apply elem_of_seq in Hr.
    subst s1. cbn [heap]. rewrite length_app. lia. }
  destruct (index_chunks_effect s1 refs Henc Hnd Hvalid)
    as (Hn & Hper & _).
  destruct (index_chunks_stored s1 refs Henc Hnd Hvalid)
    as (stored & Hdb & Hlen & _ & _).
  set (s2 := index_chunks s1 refs) in *.
  assert (Hrefs : length refs = length cs)
    by (subst refs; rewrite length_seq; exact Hmade).
  assert (Hch1 : DatabaseService.chunks (db s1) = DatabaseService.chunks (db s)).
  { subst s1. cbn [db mark_all fold_left]. apply mark_chunks. }
  assert (Hstored : stored =
            imap (fun k c => Chunk.mk (next_oid s + k) (text c) (index c) i
                               (Some (Z.of_nat (ntotal s + k)))) cs).
  { apply list_eq. intros k.
    destruct (decide (k < length cs)) as [Hk|Hk].
    - assert (Hr : refs !! k = Some (length (heap s) + k))
        by (apply lookup_seq; split; [reflexivity | lia]).
      destruct (Hper k _ Hr) as (c & Hc & _ & Hat).
      assert (Hs : stored !! k
                   = Some (Chunk.set_faiss_id c (Z.of_nat (ntotal s1 + k)))).
      { rewrite <- Hat, Hdb, lookup_app_r by lia. f_equal. lia. }
      rewrite Hs. clear Hs Hat.
      subst s1. cbn [heap] in Hc. rewrite lookup_app_r in Hc by lia.
      replace (length (heap s) + k - length (heap s)) with k in Hc by lia.
      subst made. rewrite list_lookup_imap in Hc |- *.
      destruct (cs !! k) as [x|]; [|discriminate].
      cbn in Hc |- *. injection Hc as <-. reflexivity.
    - rewrite !lookup_ge_None_2; [reflexivity | rewrite length_imap; lia | lia]. }
  split; [|split].
  - unfold DatabaseService.get_chunks_by_article in *.
    rewrite Hdb, Hch1, List.filter_app, Hnone. cbn [app].
    rewrite Hstored. apply filter_article_id_all.
    apply Forall_forall. intros c Hc.
    apply elem_of_lookup_imap_1 in Hc as (k & x & -> & _). reflexivity.
  - rewrite Hn, Hrefs. reflexivity.
  - unfold DatabaseService.marked, DatabaseService.get_article.
    subst s2. rewrite index_chunks_articles.
    subst s1. cbn [db mark_all fold_left]. rewrite Hid.
    apply mark_marked. unfold DatabaseService.known. rewrite Ha.
    eexists; reflexivity.
Qed.

End Pipeline.

Lemma processed_article_chunks_are_stored_witness :
  let s := @DocumentProcessor.mk Sample.model
             (DatabaseService.mk [Sample.fraud_v1; Sample.homicide] [])
             (repeat 0 10) None [] 20 in
  (forall texts, length (@encode Sample.model texts) = length texts) /\
  DatabaseService.get_article (DocumentProcessor.db s) 1
  = Some Sample.fraud_v1 /\
  DatabaseService.get_chunks_by_article (DocumentProcessor.db s) 1 = [] /\
  DocumentProcessor._create_chunks (Article.content Sample.fraud_v1)
  = Some [DocumentProcessor.mk_chunk_dict "A man pleaded guilty" 0] /\
  exists refs s1,
    @DocumentProcessor.process_articles Sample.model s (Some [1])
    = Some (refs, s1) /\
    DatabaseService.get_chunks_by_article
      (DocumentProcessor.db (DocumentProcessor.index_chunks s1 refs)) 1
    = [Chunk.mk 20 "A man pleaded guilty" 0 1 (Some 10%Z)].
Proof.
  intros s.
  assert (Henc : forall texts, length (@encode Sample.model texts) = length texts)
    by (intros texts; apply List.length_map).
  assert (Ha : DatabaseService.get_article (DocumentProcessor.db s) 1
               = Some Sample.fraud_v1) by reflexivity.
  assert (Hnone : DatabaseService.get_chunks_by_article
                    (DocumentProcessor.db s) 1 = []) by reflexivity.
  assert (Hcs : DocumentProcessor._create_chunks
                  (Article.content Sample.fraud_v1)
                = Some [DocumentProcessor.mk_chunk_dict "A man pleaded guilty" 0])
    by (vm_compute; reflexivity).
  split; [exact Henc|]. split; [exact Ha|]. split; [exact Hnone|].
  split; [exact Hcs|].
  destruct (@processed_article_chunks_are_stored Sample.model s 1
              Sample.fraud_v1 _ Henc Ha Hnone Hcs)
    as (refs & s1 & Hrun & Hstored & _).
  exists refs, s1. split; [exact Hrun | exact Hstored].
Defined.

(** ** The database: statistics per source *)

Section SourceStats.
Import DatabaseService.

Lemma distinct_elem (keys : list string) : forall seen k,
  k ∈ distinct seen keys <-> k ∈ keys /\ k ∉ seen.
Proof.
  induction keys as [|x keys IH]; intros seen k; cbn [distinct].
  - split; [intros Hk; inversion Hk | intros [Hk _]; inversion Hk].
  - destruct (existsb (String.eqb x) seen) eqn:Hx.
    + rewrite IH, elem_of_cons. split; [tauto|].
      intros [[->|Hk] Hs]; [|tauto]. exfalso. apply Hs.
      apply existsb_exists in Hx as (y & Hy & Hxy).
      apply String.eqb_eq in Hxy as ->. apply list_elem_of_In, Hy.
    + rewrite !elem_of_cons, IH, elem_of_cons.
      assert (Hnot : x ∉ seen).
      { intros Hin. apply not_true_iff_false in Hx. apply Hx.
        apply existsb_exists. exists x.
        split; [apply list_elem_of_In, Hin | apply String.eqb_refl]. }
      split.
      * intros [->|[Hk Hs]]; [tauto|]. split; [tauto|]. tauto.
      * intros [[->|Hk] Hs]; [tauto|].
        destruct (String.string_dec k x) as [->|Hne]; [tauto|]. right. tauto.
Qed.

Lemma distinct_NoDup (keys : list string) : forall seen,
  NoDup (distinct seen keys).
Proof.
  induction keys as [|x keys IH]; intros seen; cbn [distinct];
    [constructor|].
  destruct (existsb (String.eqb x) seen); [apply IH|].
  apply NoDup_cons. split; [|apply IH].
  rewrite distinct_elem. intros [_ Hx]. apply Hx. apply elem_of_cons. auto.
Qed.

Lemma fold_count {A} (l : list A) : forall n,
  fold_left (fun n _ => n + 1) l n = n + length l.
Proof.
  induction l as [|x l IH]; intros n; cbn [fold_left length]; [lia|].
  rewrite IH. lia.
Qed.

Lemma fold_indexed (src : string) (l : list Article.t) : forall n,
  fold_left (fun n a => n + indexed_flag a)
    (List.filter (fun a => String.eqb (Article.source a) src) l) n
  = n + count_documents
          (fun a => String.eqb (Article.source a) src
                    && match Article.processed a with
                       | Some true => true
                       | _ => false
                       end) l.
Proof.
  induction l as [|x l IH]; intros n; cbn [List.filter count_documents fold_left];
    [lia|].
  destruct (String.eqb (Article.source x) src); cbn [andb fold_left];
    [|apply IH].
  rewrite IH. unfold indexed_flag.
  destruct (Article.processed x) as [[|]|]; lia.
Qed.

Lemma fold_indexed_le (l : list Article.t) : forall n,
  fold_left (fun n a => n + indexed_flag a) l n <= n + length l.
Proof.
  induction l as [|x l IH]; intros n; cbn [fold_left length]; [lia|].
  specialize (IH (n + indexed_flag x)). unfold indexed_flag in *.
  destruct (Article.processed x) as [[|]|]; lia.
Qed.

Lemma fold_max_date_ge (l : list Article.t) : forall acc x,
  acc = Some x ->
  exists y, fold_left max_date l acc = Some y /\ (x <= y)%Z.
Proof.
  induction l as [|a l IH]; intros acc x ->; cbn [fold_left].
  - exists x. split; [reflexivity | lia].
  - destruct (Article.date_published a) as [z|] eqn:Hd.
    + destruct (IH (max_date (Some x) a) (Z.max x z)) as (y & Hy & Hle).
      { unfold max_date. rewrite Hd. reflexivity. }
      exists y. split; [exact Hy | lia].
    + apply IH. unfold max_date. rewrite Hd. reflexivity.
Qed.

Lemma fold_max_date_bound (l : list Article.t) : forall acc a x,
  a ∈ l -> Article.date_published a = Some x ->
  exists y, fold_left max_date l acc = Some y /\ (x <= y)%Z.
Proof.
  induction l as [|b l IH]; intros acc a x Ha Hx; [inversion Ha|].
  cbn [fold_left]. apply elem_of_cons in Ha as [<-|Ha].
  - destruct acc as [z|].
    + destruct (fold_max_date_ge l (max_date (Some z) a) (Z.max z x))
        as (y & Hy & Hle).
      { unfold max_date. rewrite Hx. reflexivity. }
      exists y. split; [exact Hy | lia].
    + apply fold_max_date_ge. unfold max_date. rewrite Hx. reflexivity.
  - eapply IH; eassumption.
Qed.

Lemma fold_max_date_from (l : list Article.t) : forall acc y,
  fold_left max_date l acc = Some y ->
  acc = Some y \/ exists a, a ∈ l /\ Article.date_published a = Some y.
Proof.
  induction l as [|b l IH]; intros acc y Hy; cbn [fold_left] in Hy; [auto|].
  apply IH in Hy as [Hy|(a & Ha & Hd)].
  - unfold max_date in Hy.
    destruct acc as [z|], (Article.date_published b) as [w|] eqn:Hb;
      try discriminate; auto.
    + injection Hy as <-.
      destruct (Z.max_spec z w) as [[_ ->]|[_ ->]].
      * right. exists b. split; [apply elem_of_cons; auto | exact Hb].
      * auto.
    + right. exists b. split; [apply elem_of_cons; auto | congruence].
  - right. exists a. split; [apply elem_of_cons; auto | exact Hd].
Qed.

(** The members of the groups of a list of distinct keys that cover the
    list add up to the list. *)
Lemma group_sizes_sum (l : list Article.t) : forall keys : list string,
  NoDup keys ->
  (forall a, a ∈ l -> Article.source a ∈ keys) ->
  sum_list ((fun k => length (List.filter
                       (fun a => String.eqb (Article.source a) k) l)) <$> keys)
  = length l.
Proof.
  induction l as [|x l IH]; intros keys Hnd Hcover.
  - clear Hnd Hcover. induction keys as [|k keys IHk]; [reflexivity|].
    rewrite fmap_cons. cbn [sum_list sum_list_with List.filter length].
    exact IHk.
  - cbn [length]. rewrite <- (IH keys Hnd)
      by (intros a Ha; apply Hcover, elem_of_cons; auto).
    assert (Hx : Article.source x ∈ keys)
      by (apply Hcover, elem_of_cons; auto).
    clear IH Hcover. revert Hnd Hx.
    induction keys as [|k keys IHk]; intros Hnd Hx; [inversion Hx|].
    apply NoDup_cons in Hnd as [Hk Hnd].
    cbn [fmap list_fmap sum_list sum_list_with List.filter].
    destruct (String.eqb_spec (Article.source x) k) as [Heq|Hne].
    + cbn [length].
      assert (Hrest : forall ks : list string, Article.source x ∉ ks ->
                (fun k0 => length (List.filter
                   (fun a => String.eqb (Article.source a) k0) (x :: l))) <$> ks
                = (fun k0 => length (List.filter
                   (fun a => String.eqb (Article.source a) k0) l)) <$> ks).
      { intros ks Hout. apply list_fmap_ext. intros j k0 Hk0.
        apply list_elem_of_lookup_2 in Hk0. cbn [List.filter].
        destruct (String.eqb_spec (Article.source x) k0) as [Hxk|_];
          [|reflexivity].
        exfalso. apply Hout. rewrite Hxk. exact Hk0. }
      change (list_fmap _ _ ?f keys) with (f <$> keys).
      rewrite Hrest by (rewrite Heq; exact Hk). cbn. reflexivity.
    + apply elem_of_cons in Hx as [Hx|Hx]; [contradiction|].
      change (list_fmap _ _ ?f keys) with (f <$> keys).
      specialize (IHk Hnd Hx). cbn in IHk |- *. lia.
Qed.

(** X10. [get_source_stats] returns one document per source that occurs in
    the collection and none for any other; its [total_articles] is the
    number of articles [get_articles_by_source] returns, which is positive;
    its [indexed_articles] is the count that [get_indexed_articles_count]
    returns and never exceeds the total; the totals add up to the size of
    the collection; and [latest_date] is the latest publication date of the
    source: the date of one of its articles, not before that of any of
    them. *)
Theorem source_stats_agree_with_counts (d : DatabaseService.t) :
  NoDup (_id <$> get_source_stats d) /\
  (forall src, src ∈ (_id <$> get_source_stats d)
               <-> src ∈ (Article.source <$> articles d)) /\
  (forall st, st ∈ get_source_stats d ->
     total_articles st = length (get_articles_by_source d (_id st)) /\
     0 < total_articles st /\
     indexed_articles st = get_indexed_articles_count d (_id st) /\
     indexed_articles st <= total_articles st /\
     (forall a x, a ∈ get_articles_by_source d (_id st) ->
        Article.date_published a = Some x ->
        exists y, latest_date st = Some y /\ (x <= y)%Z) /\
     (forall y, latest_date st = Some y ->
        exists a, a ∈ get_articles_by_source d (_id st) /\
                  Article.date_published a = Some y)) /\
  sum_list (total_articles <$> get_source_stats d) = length (articles d).
Proof.
  unfold get_source_stats.
  change (List.map Article.source (articles d))
    with (Article.source <$> articles d).
  change (List.map (group_stat (articles d)) ?l)
    with (group_stat (articles d) <$> l).
  set (keys := distinct [] (Article.source <$> articles d)).
  assert (Hids : _id <$> (group_stat (articles d) <$> keys) = keys).
  { rewrite <- list_fmap_compose. apply list_fmap_id. }
  assert (Hnd : NoDup keys) by apply distinct_NoDup.
  assert (Hkeys : forall k, k ∈ keys <-> k ∈ (Article.source <$> articles d)).
  { intros k. subst keys. rewrite distinct_elem. split; [tauto|].
    intros Hk. split; [exact Hk|]. intros Hin. inversion Hin. }
  split; [rewrite Hids; exact Hnd|].
  split; [intros src; rewrite Hids; apply Hkeys|].
  split.
  - intros st Hst. apply list_elem_of_fmap in Hst as (k & -> & Hk).
    unfold group_stat, get_articles_by_source, get_indexed_articles_count.
    cbn [_id total_articles indexed_articles latest_date].
    set (members := List.filter _ (articles d)).
    rewrite fold_count. cbn [Nat.add].
    split; [reflexivity|]. split.
    { apply Hkeys, list_elem_of_fmap in Hk as (a & -> & Ha).
      assert (Hin : a ∈ members).
      { apply list_elem_of_In, List.filter_In.
        split; [apply list_elem_of_In, Ha | apply String.eqb_refl]. }
      destruct members; [inversion Hin | cbn; lia]. }
    split; [subst members; rewrite fold_indexed; reflexivity|].
    split; [apply (fold_indexed_le members 0)|].
    split.
    + intros a x Ha Hx. eapply fold_max_date_bound; eassumption.
    + intros y Hy. apply fold_max_date_from in Hy as [Hy|Hy];
        [discriminate | exact Hy].
  - rewrite <- list_fmap_compose.
    rewrite <- (group_sizes_sum (articles d) keys Hnd).
    + f_equal. apply list_fmap_ext. intros _ k _.
      unfold group_stat. cbn [compose total_articles].
      rewrite fold_count. reflexivity.
    + intros a Ha. apply Hkeys, list_elem_of_fmap. exists a. auto.
Qed.

End SourceStats.

(** ** The chunker: from a chunk back to its words *)

Section SplitJoin.
Import DocumentProcessor.

Lemma split_go_words (s : string) : forall acc,
  Forall (fun c => Py.isspace c = false) acc ->
  Forall is_word (Py.split_go s acc).
Proof.
  assert (Hword : forall c acc,
            Forall (fun c => Py.isspace c = false) (c :: acc) ->
            is_word (string_of_list_ascii (rev (c :: acc)))).
  { intros c acc Hacc. split.
    - intros Hnil.
      apply (f_equal list_ascii_of_string) in Hnil.
      rewrite list_ascii_of_string_of_list_ascii in Hnil.
      apply (f_equal (@length ascii)) in Hnil.
      rewrite length_rev in Hnil. discriminate.
    - rewrite list_ascii_of_string_of_list_ascii.
      apply Forall_forall. intros x Hx.
      apply list_elem_of_In, in_rev, list_elem_of_In in Hx.
      revert x Hx. apply Forall_forall. exact Hacc. }
  induction s as [|c s IH]; intros acc Hacc; cbn [Py.split_go].
  - destruct acc as [|a acc]; [constructor|].
    constructor; [apply Hword, Hacc | constructor].
  - destruct (Py.isspace c) eqn:Hc.
    + destruct acc as [|a acc]; [apply IH; constructor|].
      constructor; [apply Hword, Hacc | apply IH; constructor].
    + apply IH. constructor; assumption.
Qed.

Lemma split_go_word (w : string) : forall rest acc,
  Forall (fun c => Py.isspace c = false) (list_ascii_of_string w) ->
  Py.split_go (w ++ rest) acc
  = Py.split_go rest (rev (list_ascii_of_string w) ++ acc).
Proof.
  induction w as [|c w IH]; intros rest acc Hw; [reflexivity|].
  cbn [list_ascii_of_string] in Hw. apply Forall_cons in Hw as [Hc Hw].
  cbn [String.append Py.split_go list_ascii_of_string rev]. rewrite Hc.
  rewrite IH by assumption. rewrite <- app_assoc. reflexivity.
Qed.

Lemma string_app_nil_r (w : string) : (w ++ "")%string = w.
Proof. induction w as [|c w IH]; [reflexivity|]. cbn. rewrite IH. reflexivity. Qed.

Lemma rev_chars_word (w : string) :
  string_of_list_ascii (rev (rev (list_ascii_of_string w))) = w.
Proof. rewrite rev_involutive. apply string_of_list_ascii_of_string. Qed.

(** Splitting the words joined by single spaces gives the words back. *)
Lemma split_join (ws : list string) :
  Forall is_word ws -> Py.split (Py.join ws) = ws.
Proof.
  unfold Py.split, Py.join.
  induction 1 as [|w ws [Hne Hw] Hws IH]; [reflexivity|].
  assert (Hrev : rev (list_ascii_of_string w) <> []).
  { intros Hnil. apply Hne.
    rewrite <- (rev_chars_word w), Hnil. reflexivity. }
  destruct ws as [|v ws].
  - cbn [String.concat].
    rewrite <- (string_app_nil_r w) at 1.
    rewrite split_go_word, app_nil_r by assumption.
    cbn [Py.split_go].
    destruct (rev (list_ascii_of_string w)) as [|a acc] eqn:Hacc;
      [contradiction|].
    rewrite <- Hacc, rev_chars_word. reflexivity.
  - cbn [String.concat] in *.
    rewrite split_go_word, app_nil_r by assumption.
    cbn [String.append Py.split_go].
    change (Py.isspace " ") with true. cbv iota.
    destruct (rev (list_ascii_of_string w)) as [|a acc] eqn:Hacc;
      [contradiction|].
    rewrite <- Hacc, rev_chars_word. f_equal. exact IH.
Qed.

Lemma split_words (s : string) : Forall is_word (Py.split s).
Proof. apply split_go_words. constructor. Qed.

(** The chunk at position [k]: its window starts inside the text. *)
Lemma create_chunks_lookup (size overlap : nat) (txt : string) chunks k c :
  overlap < size ->
  create_chunks size overlap txt = Some chunks ->
  chunks !! k = Some c ->
  k * (size - overlap) < length (Py.split txt) /\
  c = mk_chunk_dict
        (Py.join (Py.slice (Py.split txt) (k * (size - overlap)) size)) k.
Proof.
  intros Hlt Hrun Hk.
  unfold create_chunks, Py.range0 in Hrun.
  set (words := Py.split txt) in *. set (step := size - overlap).
  assert (Hz : (Z.of_nat size - Z.of_nat overlap)%Z = Z.of_nat step)
    by (unfold step; lia).
  rewrite Hz in Hrun.
  replace (Z.of_nat step =? 0)%Z with false in Hrun
    by (symmetry; apply Z.eqb_neq; lia).
  replace (Z.of_nat step <? 0)%Z with false in Hrun
    by (symmetry; apply Z.ltb_ge; lia).
  rewrite Nat2Z.id, range_up_values, Nat.sub_0_r in Hrun by lia.
  injection Hrun as <-.
  assert (Hlen : k < ceil_div (length words) step).
  { apply lookup_lt_Some in Hk.
    rewrite fold_append_chunk_length, length_fmap, length_seq in Hk.
    exact Hk. }
  rewrite (fold_append_chunk_lookup _ _ _ k (k * step)) in Hk
    by (rewrite list_lookup_fmap, lookup_seq_lt by assumption; reflexivity).
  injection Hk as <-. split; [|reflexivity].
  unfold ceil_div in Hlen.
  pose proof (Nat.Div0.mul_div_le (length words + step - 1) step) as Hm.
  nia.
Qed.

(** X11. The text of a chunk splits back into its window of words: for a
    window of [size] words and an overlap below it, the chunk at position
    [k] of [_create_chunks] has ordinal [k], and [split] on its text
    returns exactly the words [k * (size - overlap)], ... of the text, at
    least one and at most [size] of them; the words of a chunk after its
    first [size - overlap] are the first words of the next chunk. *)
Theorem chunk_text_splits_back (size overlap : nat) (txt : string)
  (chunks : list chunk_dict) (k : nat) (c : chunk_dict) :
  overlap < size ->
  create_chunks size overlap txt = Some chunks ->
  chunks !! k = Some c ->
  index c = k /\
  Py.split (text c)
  = Py.slice (Py.split txt) (k * (size - overlap)) size /\
  1 <= length (Py.split (text c)) <= size /\
  (forall c', chunks !! S k = Some c' ->
     drop (size - overlap) (Py.split (text c))
     = take overlap (Py.split (text c'))).
Proof.
  intros Hlt Hrun Hk.
  assert (Hwin : forall j x, chunks !! j = Some x ->
            j * (size - overlap) < length (Py.split txt) /\
            index x = j /\
            Py.split (text x)
            = Py.slice (Py.split txt) (j * (size - overlap)) size).
  { intros j x Hj.
    destruct (create_chunks_lookup size overlap txt chunks j x Hlt Hrun Hj)
      as [Hstart ->].
    split; [exact Hstart|]. split; [reflexivity|]. cbn [text].
    apply split_join. unfold Py.slice.
    apply Forall_take, Forall_drop, split_words. }
  destruct (Hwin k c Hk) as (Hstart & Hindex & Hsplit).
  split; [exact Hindex|]. split; [exact Hsplit|]. split.
  - rewrite Hsplit. unfold Py.slice.
    rewrite length_take, length_drop. lia.
  - intros c' Hk'. destruct (Hwin (S k) c' Hk') as (_ & _ & Hsplit').
    rewrite Hsplit, Hsplit'. unfold Py.slice.
    set (words := Py.split txt).
    rewrite take_take, Nat.min_l by lia.
    replace (S k * (size - overlap))
      with (k * (size - overlap) + (size - overlap)) by lia.
    rewrite <- drop_drop.
    set (l := drop (k * (size - overlap)) words).
    rewrite take_drop_commute. f_equal. f_equal. lia.
Qed.

End SplitJoin.

Lemma chunk_text_splits_back_witness :
  Config.CHUNK_OVERLAP < Config.CHUNK_SIZE /\
  exists chunks,
    DocumentProcessor.create_chunks Config.CHUNK_SIZE Config.CHUNK_OVERLAP
      (Sample.text_of_words 260) = Some chunks /\
    chunks !! 1
    = Some (DocumentProcessor.mk_chunk_dict "w w w w w w w w w w" 1) /\
    Py.split "w w w w w w w w w w"
    = Py.slice (Py.split (Sample.text_of_words 260))
        (1 * (Config.CHUNK_SIZE - Config.CHUNK_OVERLAP)) Config.CHUNK_SIZE.
Proof.
  assert (Hlt : Config.CHUNK_OVERLAP < Config.CHUNK_SIZE)
    by (unfold Config.CHUNK_OVERLAP, Config.CHUNK_SIZE; lia).
  split; [exact Hlt|].
  set (chunks := default [] (DocumentProcessor._create_chunks
                               (Sample.text_of_words 260))).
  assert (Hrun : DocumentProcessor.create_chunks Config.CHUNK_SIZE
                   Config.CHUNK_OVERLAP (Sample.text_of_words 260)
                 = Some chunks) by (vm_compute; reflexivity).
  assert (Hk : chunks !! 1
               = Some (DocumentProcessor.mk_chunk_dict "w w w w w w w w w w" 1))
    by (vm_compute; reflexivity).
  exists chunks. split; [exact Hrun|]. split; [exact Hk|].
  apply (chunk_text_splits_back Config.CHUNK_SIZE Config.CHUNK_OVERLAP
           (Sample.text_of_words 260) chunks 1 _ Hlt Hrun Hk).
Defined.

(** ** The retriever: when a search fails *)

Section SearchFailure.
Context `{Faiss} `{DateTime}.
Import DocumentRetriever.

Lemma search_loop_fails d srcs hits : forall i,
  search_loop d srcs i hits = None <->
  exists dist fid c a,
    (dist, fid) ∈ hits /\
    DatabaseService.get_chunk_by_faiss_id d fid = Some c /\
    DatabaseService.get_article d (Chunk.article_id c) = Some a /\
    filtered_out srcs a = false /\
    Article.date_published a = None.
Proof.
  induction hits as [|[dist fid] rest IH]; intros i.
  - cbn. split; [discriminate|]. intros (? & ? & ? & ? & Hin & _).
    inversion Hin.
  - assert (Hlater :
      (exists dist0 fid0 c a,
         (dist0, fid0) ∈ rest /\
         DatabaseService.get_chunk_by_faiss_id d fid0 = Some c /\
         DatabaseService.get_article d (Chunk.article_id c) = Some a /\
         filtered_out srcs a = false /\
         Article.date_published a = None) ->
      exists dist0 fid0 c a,
         (dist0, fid0) ∈ (dist, fid) :: rest /\
         DatabaseService.get_chunk_by_faiss_id d fid0 = Some c /\
         DatabaseService.get_article d (Chunk.article_id c) = Some a /\
         filtered_out srcs a = false /\
         Article.date_published a = None).
    { intros (d0 & f0 & c & a & Hin & Hrest).
      exists d0, f0, c, a. split; [apply elem_of_cons; auto | exact Hrest]. }
    cbn [search_loop].
    destruct (DatabaseService.get_chunk_by_faiss_id d fid) as [c|] eqn:Hc.
    2:{ rewrite IH. split; [exact Hlater|].
        intros (d0 & f0 & c0 & a0 & Hin & Hc0 & Hrest).
        apply elem_of_cons in Hin as [[= -> ->]|Hin]; [congruence|].
        exists d0, f0, c0, a0. auto. }
    destruct (DatabaseService.get_article d (Chunk.article_id c))
      as [a|] eqn:Ha.
    2:{ rewrite IH. split; [exact Hlater|].
        intros (d0 & f0 & c0 & a0 & Hin & Hc0 & Ha0 & Hrest).
        apply elem_of_cons in Hin as [[= -> ->]|Hin]; [congruence|].
        exists d0, f0, c0, a0. auto. }
    destruct (filtered_out srcs a) eqn:Hf.
    { rewrite IH. split; [exact Hlater|].
      intros (d0 & f0 & c0 & a0 & Hin & Hc0 & Ha0 & Hf0 & Hrest).
      apply elem_of_cons in Hin as [[= -> ->]|Hin]; [congruence|].
      exists d0, f0, c0, a0. auto. }
    destruct (Article.date_published a) as [date|] eqn:Hd.
    + destruct (search_loop d srcs (S i) rest) as [results|] eqn:Hrest.
      * split; [discriminate|].
        intros (d0 & f0 & c0 & a0 & Hin & Hc0 & Ha0 & Hf0 & Hd0).
        apply elem_of_cons in Hin as [[= -> ->]|Hin]; [congruence|].
        assert (Hnone : search_loop d srcs (S i) rest = None).
        { apply IH. exists d0, f0, c0, a0. auto. }
        congruence.
      * split; [|reflexivity]. intros _. apply Hlater, (IH (S i)), Hrest.
    + split; [|reflexivity]. intros _.
      exists dist, fid, c, a. split; [apply elem_of_cons; auto | auto].
Qed.

End SearchFailure.

(** X12. [search] fails (the [AttributeError] of [strftime] on a missing
    date) exactly when one of the hits resolves to a chunk and an article
    that pass the source filter and the article has no publication date;
    hits that are dropped, by a missing chunk, a missing article or the
    filter, never make it fail. *)
Theorem search_fails_on_undated_article `{Faiss} `{DateTime}
  (s : DocumentRetriever.t) (query : string) (k : nat)
  (sources : option (list string)) :
  DocumentRetriever.search s query k sources = None <->
  exists dist fid c a,
    (dist, fid) ∈ DocumentRetriever.hits_of s query k /\
    DatabaseService.get_chunk_by_faiss_id (DocumentRetriever.db s) fid
    = Some c /\
    DatabaseService.get_article (DocumentRetriever.db s) (Chunk.article_id c)
    = Some a /\
    DocumentRetriever.filtered_out sources a = false /\
    Article.date_published a = None.
Proof. apply search_loop_fails. Qed.

(** ** The registry of sources *)

Section DataSourceFacts.
Import DataSources.

Lemma prefix_app (p rest : string) : String.prefix p (p ++ rest) = true.
Proof.
  induction p as [|c p IH]; cbn; [destruct rest; reflexivity|].
  destruct (ascii_dec c c); [exact IH | contradiction].
Qed.

Lemma contains_app (needle pre post : string) :
  contains needle (pre ++ needle ++ post) = true.
Proof.
  induction pre as [|c pre IH]; cbn [String.append].
  - destruct (needle ++ post)%string eqn:Heq; cbn [contains];
      rewrite <- Heq, prefix_app; reflexivity.
  - cbn [contains]. rewrite IH. apply orb_true_r.
Qed.

Lemma string_app_assoc (a b c : string) :
  ((a ++ b) ++ c = a ++ (b ++ c))%string.
Proof. induction a as [|x a IH]; cbn; [reflexivity | rewrite IH; reflexivity]. Qed.

Lemma contains_absent (c : ascii) (needle hay : string) :
  Forall (fun x => x <> c) (list_ascii_of_string hay) ->
  contains (String c needle) hay = false.
Proof.
  induction hay as [|x hay IH]; intros Hall; [reflexivity|].
  cbn [list_ascii_of_string] in Hall. apply Forall_cons in Hall as [Hx Hall].
  cbn [contains String.prefix].
  destruct (ascii_dec c x) as [->|_]; [contradiction|].
  cbn [orb]. apply IH, Hall.
Qed.

Lemma chars_app (a b : string) :
  list_ascii_of_string (a ++ b)
  = list_ascii_of_string a ++ list_ascii_of_string b.
Proof. induction a as [|x a IH]; cbn; [reflexivity | rewrite IH; reflexivity]. Qed.

(** The decimal numeral of a page number has no letter. *)
Lemma str_of_nat_no_j (n : nat) :
  Forall (fun x => x <> "j"%char)
    (list_ascii_of_string (BaseScraper.str_of_nat n)).
Proof.
  unfold BaseScraper.str_of_nat, NilZero.string_of_uint.
  assert (Hd : forall d, Forall (fun x => x <> "j"%char)
                 (list_ascii_of_string (DecimalString.NilEmpty.string_of_uint d))).
  { induction d; cbn; try constructor; try discriminate; assumption. }
  destruct (Nat.to_uint n) eqn:Hn; try apply Hd.
  cbn. constructor; [discriminate | constructor].
Qed.

End DataSourceFacts.

(** X13. [get_source_for_url] returns the first source of the registry
    that matches, in the order usao, latimes, local. So the listing pages
    the two scrapers fetch are attributed to their own source, whatever
    the page number; and the URL [file://...] of a local file is
    attributed to the local source only if its path contains neither
    [justice.gov/usao-cdca] nor [homicide.latimes.com]: a path that
    contains one of them is attributed to that site. A URL that matches no
    source gets [None]. *)
Theorem source_for_url_first_match (url : string) :
  (forall d cap oid page,
     DataSources.get_source_for_url
       (USAOScraper.page_url (USAOScraper.init d cap oid) page)
     = Some "usao"%string) /\
  (forall d cap oid page,
     DataSources.get_source_for_url
       (BaseScraper.get_page_url (LATimesScraper.init d cap oid) page)
     = Some "latimes"%string) /\
  (DataSources.get_source_for_url url = Some "usao"%string
   <-> DataSources.contains "justice.gov/usao-cdca" url = true) /\
  (DataSources.get_source_for_url url = Some "latimes"%string
   <-> DataSources.contains "justice.gov/usao-cdca" url = false /\
       DataSources.contains "homicide.latimes.com" url = true) /\
  (DataSources.get_source_for_url url = Some "local"%string
   <-> DataSources.contains "justice.gov/usao-cdca" url = false /\
       DataSources.contains "homicide.latimes.com" url = false /\
       DataSources.startswith "file://" url = true) /\
  (DataSources.get_source_for_url url = None
   <-> DataSources.contains "justice.gov/usao-cdca" url = false /\
       DataSources.contains "homicide.latimes.com" url = false /\
       DataSources.startswith "file://" url = false).
Proof.
  split; [|split].
  - intros d cap oid page.
    unfold DataSources.get_source_for_url, DataSources.SOURCES.
    cbn [List.map DataSources.first_match DataSources.source_id
         DataSources.matches_url DataSources.USAOSource].
    unfold USAOScraper.page_url, USAOScraper.init, USAOScraper.section_path.
    cbn [BaseScraper.init BaseScraper.base_url].
    change ("https://www.justice.gov" ++ "/usao-cdca/pr" ++ "?page="
            ++ BaseScraper.str_of_nat page)%string
      with ("https://www." ++ "justice.gov/usao-cdca"
            ++ ("/pr?page=" ++ BaseScraper.str_of_nat page))%string.
    rewrite contains_app. reflexivity.
  - intros d cap oid page.
    unfold DataSources.get_source_for_url, DataSources.SOURCES.
    cbn [List.map DataSources.first_match DataSources.source_id
         DataSources.matches_url DataSources.USAOSource
         DataSources.LATimesSource].
    unfold BaseScraper.get_page_url, LATimesScraper.init.
    cbn [BaseScraper.init BaseScraper.base_url].
    destruct (page =? 0); [vm_compute; reflexivity|].
    set (tail := ("?page=" ++ BaseScraper.str_of_nat page)%string).
    assert (Hlat : DataSources.contains "homicide.latimes.com"
                     ("https://homicide.latimes.com" ++ tail) = true).
    { change ("https://homicide.latimes.com" ++ tail)%string
        with ("https://" ++ "homicide.latimes.com" ++ tail)%string.
      apply contains_app. }
    assert (Husao : DataSources.contains "justice.gov/usao-cdca"
                      ("https://homicide.latimes.com" ++ tail) = false).
    { apply contains_absent. subst tail. rewrite !chars_app.
      apply Forall_app. split; [|apply Forall_app; split].
      - cbn. repeat (constructor; [discriminate|]). constructor.
      - cbn. repeat (constructor; [discriminate|]). constructor.
      - apply str_of_nat_no_j. }
    rewrite Husao, Hlat. reflexivity.
  - unfold DataSources.get_source_for_url, DataSources.SOURCES.
    cbn [List.map DataSources.first_match DataSources.source_id
         DataSources.matches_url DataSources.USAOSource
         DataSources.LATimesSource DataSources.LocalFileSource].
    destruct (DataSources.contains "justice.gov/usao-cdca" url);
      destruct (DataSources.contains "homicide.latimes.com" url);
      destruct (DataSources.startswith "file://" url);
      repeat split; intros; try discriminate; try reflexivity;
      try (destruct_and?; discriminate).
Qed.

(** ** The listing URLs of a crawl *)

Section PageUrls.
Import BaseScraper.

Lemma str_of_nat_inj (p q : nat) : str_of_nat p = str_of_nat q -> p = q.
Proof.
  assert (Hnil : forall n, Nat.to_uint n <> Decimal.Nil).
  { intros n. rewrite <- (DecimalNat.Unsigned.of_to n) at 1.
    rewrite DecimalNat.Unsigned.to_of. apply DecimalFacts.unorm_nonnil. }
  unfold str_of_nat. intros Heq.
  apply (f_equal NilZero.uint_of_string) in Heq.
  rewrite !NilZero.usu in Heq by apply Hnil.
  injection Heq as Heq.
  apply (f_equal Nat.of_uint) in Heq.
  rewrite !DecimalNat.Unsigned.of_to in Heq. exact Heq.
Qed.

Lemma string_app_inv_head (a x y : string) :
  (a ++ x = a ++ y)%string -> x = y.
Proof.
  induction a as [|c a IH]; cbn; [auto|]. intros [= Heq]. apply IH, Heq.
Qed.

Lemma string_app_not_self (a : string) (c : ascii) (x : string) :
  (a ++ String c x)%string <> a.
Proof.
  induction a as [|d a IH]; cbn; [discriminate|].
  intros [= Heq]. apply IH, Heq.
Qed.

End PageUrls.

(** X14. The listing URLs of a crawl are one per page: [get_page_url]
    gives the base URL for page 0 and for no other page, and different
    page numbers never give the same URL, for any base URL; the same holds
    for the URLs built by the USAO scraper, where page 0 has a query
    string as well. *)
Theorem page_urls_are_distinct (s : BaseScraper.t) (p q : nat) :
  (BaseScraper.get_page_url s p = BaseScraper.base_url s <-> p = 0) /\
  (BaseScraper.get_page_url s p = BaseScraper.get_page_url s q <-> p = q) /\
  (USAOScraper.page_url s p = USAOScraper.page_url s q <-> p = q).
Proof.
  assert (Hbase : forall n, n <> 0 ->
            BaseScraper.get_page_url s n <> BaseScraper.base_url s).
  { intros n Hn. unfold BaseScraper.get_page_url.
    destruct (Nat.eqb_spec n 0) as [|_]; [contradiction|].
    apply string_app_not_self. }
  split; [|split].
  - split.
    + intros Heq. destruct (Nat.eq_dec p 0) as [|Hne]; [assumption|].
      destruct (Hbase p Hne Heq).
    + intros ->. reflexivity.
  - split; [|intros ->; reflexivity].
    intros Heq.
    destruct (Nat.eq_dec p 0) as [->|Hp], (Nat.eq_dec q 0) as [->|Hq];
      try reflexivity.
    + destruct (Hbase q Hq). symmetry. exact Heq.
    + destruct (Hbase p Hp). exact Heq.
    + unfold BaseScraper.get_page_url in Heq.
      destruct (Nat.eqb_spec p 0) as [|_]; [contradiction|].
      destruct (Nat.eqb_spec q 0) as [|_]; [contradiction|].
      apply string_app_inv_head, (string_app_inv_head "?page=") in Heq.
      apply str_of_nat_inj, Heq.
  - split; [|intros ->; reflexivity].
    unfold USAOScraper.page_url. intros Heq.
    apply string_app_inv_head, string_app_inv_head,
      (string_app_inv_head "?page=") in Heq.
    apply str_of_nat_inj, Heq.
Qed.

(** ** The scraper: cleaning the text of an article *)

Section CleanText.
Import TextCleaning.

Lemma split_go_lstrip (s : string) :
  Py.split_go (lstrip s) [] = Py.split_go s [].
Proof.
  induction s as [|c s IH]; [reflexivity|].
  cbn [lstrip]. destruct (Py.isspace c) eqn:Hc; [|reflexivity].
  rewrite IH. cbn [Py.split_go]. rewrite Hc. reflexivity.
Qed.

Lemma split_go_rstrip (s : string) : forall acc,
  Py.split_go (rstrip s) acc = Py.split_go s acc.
Proof.
  induction s as [|c s IH]; intros acc; [reflexivity|].
  cbn [rstrip]. destruct (rstrip s) as [|d r] eqn:Hr.
  - destruct (Py.isspace c) eqn:Hc; cbn [Py.split_go]; rewrite Hc.
    + rewrite <- IH. destruct acc; reflexivity.
    + rewrite <- IH. reflexivity.
  - cbn [Py.split_go]. destruct (Py.isspace c).
    + rewrite <- IH. reflexivity.
    + rewrite <- IH. reflexivity.
Qed.

Lemma split_go_collapse (s : string) :
  (forall acc, Py.split_go (collapse false s) acc = Py.split_go s acc) /\
  Py.split_go (collapse true s) [] = Py.split_go s [].
Proof.
  induction s as [|c s [IH1 IH2]]; [split; reflexivity|].
  cbn [collapse]. destruct (Py.isspace c) eqn:Hc.
  - split.
    + intros acc. cbn [Py.split_go]. rewrite Hc.
      change (Py.isspace " ") with true. cbv iota. rewrite IH2. reflexivity.
    + cbn [Py.split_go]. rewrite Hc. exact IH2.
  - split.
    + intros acc. cbn [Py.split_go]. rewrite Hc. apply IH1.
    + cbn [Py.split_go]. rewrite Hc. apply IH1.
Qed.

Lemma remove_string_of_list (class : ascii -> bool) (l : list ascii) :
  remove class (string_of_list_ascii l)
  = string_of_list_ascii (List.filter (fun c => negb (class c)) l).
Proof.
  induction l as [|c l IH]; [reflexivity|].
  cbn [string_of_list_ascii remove List.filter].
  destruct (class c); cbn [negb string_of_list_ascii]; rewrite IH; reflexivity.
Qed.

Lemma filter_rev {A} (f : A -> bool) (l : list A) :
  List.filter f (rev l) = rev (List.filter f l).
Proof.
  induction l as [|x l IH]; [reflexivity|].
  cbn [rev List.filter]. rewrite List.filter_app, IH. cbn [List.filter].
  destruct (f x); cbn [rev]; [reflexivity | apply app_nil_r].
Qed.

Lemma filter_cons_app {A} (f : A -> bool) (x : A) (l : list A) :
  List.filter f (x :: l) = List.filter f [x] ++ List.filter f l.
Proof. cbn [List.filter]. destruct (f x); reflexivity. Qed.

Lemma string_of_rev_empty (l : list ascii) :
  String.eqb (string_of_list_ascii (rev l)) "" = match l with
                                                 | [] => true
                                                 | _ => false
                                                 end.
Proof.
  destruct l as [|c l]; [reflexivity|].
  apply String.eqb_neq. intros Hnil.
  apply (f_equal list_ascii_of_string) in Hnil.
  rewrite list_ascii_of_string_of_list_ascii in Hnil.
  apply (f_equal (@length ascii)) in Hnil.
  rewrite length_rev in Hnil. discriminate.
Qed.

(** Removing characters that are not white space removes them from the
    words, and a word of which nothing is left disappears. *)
Lemma split_go_remove (class : ascii -> bool) (s : string) :
  (forall c, class c = true -> Py.isspace c = false) ->
  forall acc,
    Py.split_go (remove class s) (List.filter (fun c => negb (class c)) acc)
    = List.filter (fun w => negb (String.eqb w ""))
        (List.map (remove class) (Py.split_go s acc)).
Proof.
  intros Hclass.
  assert (Hflush : forall acc,
            match List.filter (fun c => negb (class c)) acc with
            | [] => []
            | _ => [string_of_list_ascii
                      (rev (List.filter (fun c => negb (class c)) acc))]
            end
            = List.filter (fun w => negb (String.eqb w ""))
                [remove class (string_of_list_ascii (rev acc))]).
  { intros acc. cbn [List.filter].
    rewrite remove_string_of_list, filter_rev, string_of_rev_empty.
    destruct (List.filter _ acc); reflexivity. }
  induction s as [|c s IH]; intros acc.
  - destruct acc as [|a acc]; [reflexivity|].
    cbn [remove Py.split_go List.map]. rewrite <- (Hflush (a :: acc)).
    reflexivity.
  - cbn [remove Py.split_go].
    destruct (class c) eqn:Hc.
    + rewrite (Hclass c Hc).
      rewrite <- (IH (c :: acc)). cbn [List.filter]. rewrite Hc. reflexivity.
    + cbn [Py.split_go]. destruct (Py.isspace c) eqn:Hs.
      * specialize (IH []). cbn [List.filter] in IH.
        destruct acc as [|a acc].
        -- cbn [List.filter]. exact IH.
        -- cbn [List.map].
           rewrite (filter_cons_app (fun w => negb (String.eqb w ""))).
           rewrite <- (Hflush (a :: acc)), <- IH.
           destruct (List.filter _ (a :: acc)); reflexivity.
      * rewrite <- (IH (c :: acc)). cbn [List.filter]. rewrite Hc. reflexivity.
Qed.

Lemma special_not_space (c : ascii) :
  special c = true -> Py.isspace c = false.
Proof.
  unfold special. rewrite negb_true_iff, !orb_false_iff. tauto.
Qed.

Lemma collapse_spaces (s : string) : forall b,
  Forall (fun c => Py.isspace c = true -> c = " "%char)
    (list_ascii_of_string (collapse b s)).
Proof.
  induction s as [|c s IH]; intros b; [constructor|].
  cbn [collapse]. destruct (Py.isspace c) eqn:Hc.
  - destruct b; [apply IH|]. cbn [list_ascii_of_string].
    constructor; [reflexivity | apply IH].
  - cbn [list_ascii_of_string]. constructor; [congruence | apply IH].
Qed.

Lemma remove_chars (class : ascii -> bool) (P : ascii -> Prop) (s : string) :
  Forall P (list_ascii_of_string s) ->
  Forall (fun c => class c = false /\ P c)
    (list_ascii_of_string (remove class s)).
Proof.
  induction s as [|c s IH]; intros Hall; [constructor|].
  cbn [list_ascii_of_string] in Hall. apply Forall_cons in Hall as [Hc Hall].
  cbn [remove]. destruct (class c) eqn:Hcl; [apply IH, Hall|].
  cbn [list_ascii_of_string]. constructor; [split; assumption | apply IH, Hall].
Qed.

End CleanText.

(** X15. [clean_text] works on the words of a text one by one: the words
    of the cleaned text are the words of the text, each with its special
    characters removed, and a word of which nothing is left dropped; no
    two words are merged and none is cut. The cleaned text has no special
    character, and no white space other than the plain space. *)
Theorem clean_text_keeps_words (text : string) :
  Py.split (TextCleaning.clean_text text)
  = List.filter (fun w => negb (String.eqb w ""))
      (List.map (TextCleaning.remove TextCleaning.special) (Py.split text)) /\
  Forall (fun c => TextCleaning.special c = false /\
                   (Py.isspace c = true -> c = " "%char))
    (list_ascii_of_string (TextCleaning.clean_text text)).
Proof.
  unfold TextCleaning.clean_text, TextCleaning.strip, Py.split. split.
  - rewrite (split_go_remove TextCleaning.special _ special_not_space []).
    f_equal. f_equal.
    rewrite (proj1 (split_go_collapse _)), split_go_rstrip.
    apply split_go_lstrip.
  - apply remove_chars, collapse_spaces.
Qed.

(** ** The ingester of local files *)

Section LocalIngestion.
Context `{Host}.
Import LocalFileIngester.



End LocalIngestion.

